(** * claude-code-router: streaming core and routing engine

    A shallow embedding of
      - [src/utils/router.ts]            (token accounting, model selection),
      - [src/utils/SSEParser.transform.ts] (push-event wire-format parser),
      - [src/utils/rewriteStream.ts]     (single-pass stream rewriter),
      - [src/utils/processCheck.ts]      (agent tool-call interceptor,
                                          service process check),
      - [src/middleware/auth.ts]         (API-key check),
    followed by the properties of the specification stated over it.

    JavaScript strings are represented by Rocq [string]s holding their
    UTF-8 encoding.  Equality, concatenation, [includes], [startsWith],
    [split] on an ASCII separator and [slice] past an ASCII prefix all
    commute with that encoding, so the string operations below act on the
    bytes. *)

From Stdlib Require Import ZArith Ascii String.
From stdpp Require Import list strings gmap.

Local Open Scope string_scope.
Local Open Scope Z_scope.

(** ** JavaScript string primitives *)

Module JS.

(** [s.startsWith(p)] *)
Fixpoint startsWith (p s : string) : bool :=
  match p, s with
  | EmptyString, _ => true
  | String a p', String b s' => if Ascii.eqb a b then startsWith p' s' else false
  | String _ _, EmptyString => false
  end.

(** [s.includes(sub)] *)
Fixpoint includes (sub s : string) : bool :=
  startsWith sub s ||
  match s with
  | EmptyString => false
  | String _ s' => includes sub s'
  end.

(** [s.slice(n)] for [0 <= n] *)
Fixpoint slice (n : nat) (s : string) : string :=
  match n, s with
  | O, _ => s
  | S n', String _ s' => slice n' s'
  | S _, EmptyString => EmptyString
  end.

(** [s.split(sep)] for a one-character separator: never empty,
    [''.split(sep)] is [['']]. *)
Fixpoint split (sep : ascii) (s : string) : list string :=
  match s with
  | EmptyString => [EmptyString]
  | String c s' =>
      if Ascii.eqb c sep then EmptyString :: split sep s'
      else match split sep s' with
           | hd :: tl => String c hd :: tl
           | [] => [String c EmptyString]
           end
  end.

(** Truthiness of a string value: only [''] is falsy. *)
Definition truthy (s : string) : bool :=
  match s with EmptyString => false | _ => true end.

(** Truthiness of an optional string ([undefined] is falsy). *)
Definition truthy_opt (o : option string) : bool :=
  match o with Some s => truthy s | None => false end.

(** The string held by an option already known to be truthy. *)
Definition default_opt (o : option string) : string :=
  match o with Some s => s | None => EmptyString end.

(** [a.find(pred)] *)
Fixpoint find {A} (pred : A -> bool) (l : list A) : option A :=
  match l with
  | [] => None
  | x :: l' => if pred x then Some x else find pred l'
  end.

(** [a.some(pred)] *)
Definition some {A} (pred : A -> bool) (l : list A) : bool :=
  existsb pred l.

(** Position just after the first occurrence of [sub] in [s], together
    with the text before it: the shortest match of [(.*?)sub]. *)
Fixpoint cut_at (sub s : string) : option (string * string) :=
  if startsWith sub s then Some (EmptyString, slice (String.length sub) s)
  else match s with
       | EmptyString => None
       | String c s' =>
           match cut_at sub s' with
           | Some (before, after) => Some (String c before, after)
           | None => None
           end
       end.

(** ASCII letters to lower case; every other byte is kept. *)
Definition lower_ascii (c : ascii) : ascii :=
  let n := nat_of_ascii c in
  if (Nat.leb 65 n && Nat.leb n 90)%bool then ascii_of_nat (n + 32) else c.

Fixpoint ascii_toLowerCase (s : string) : string :=
  match s with
  | EmptyString => EmptyString
  | String c s' => String (lower_ascii c) (ascii_toLowerCase s')
  end.

End JS.

(** ** Router ([src/utils/router.ts]) *)

Module Router.

Section WithPlatform.

(** Platform functions the router calls: the tokenizer
    ([enc.encode] of tiktoken), [JSON.stringify],
    [String.prototype.toLowerCase], and the file system behind
    [searchProjectBySession] and [readConfigFile]. *)
Variable JSONValue : Type.
Variable encode : string -> list N.
Variable JSON_stringify : JSONValue -> string.
Variable toLowerCase : string -> string.

(** *** Request data *)

Inductive ToolResultContent :=
| TRString (s : string)
| TRJson (j : JSONValue).

Inductive ContentPart :=
| CPText (text : string)
| CPToolUse (input : JSONValue)
| CPToolResult (content : ToolResultContent)
| CPOther (type : string).

Inductive MessageContent :=
| ContentString (s : string)
| ContentArray (parts : list ContentPart)
| ContentOther.

Record MessageParam := { role : string; content : MessageContent }.

Inductive SystemText :=
| TextString (s : string)
| TextArray (parts : list string)
| TextMissing.

Record SystemBlock := { sb_type : string; sb_text : SystemText }.

Inductive SystemPrompt :=
| SysUndefined
| SysString (s : string)
| SysArray (items : list SystemBlock).

Record Tool := {
  tool_name : string;
  tool_type : option string;
  tool_description : option string;
  tool_input_schema : option JSONValue
}.

Definition tokens (s : string) : Z := Z.of_nat (length (encode s)).

(** *** calculateTokenCount

    The source keeps one mutable counter [tokenCount] and adds to it
    inside nested [forEach] loops; the counter is threaded here as the
    accumulator of a left fold. *)

Definition count_part (tokenCount : Z) (contentPart : ContentPart) : Z :=
  match contentPart with
  | CPText text => tokenCount + tokens text
  | CPToolUse input => tokenCount + tokens (JSON_stringify input)
  | CPToolResult (TRString s) => tokenCount + tokens s
  | CPToolResult (TRJson j) => tokenCount + tokens (JSON_stringify j)
  | CPOther _ => tokenCount
  end.

Definition count_message (tokenCount : Z) (message : MessageParam) : Z :=
  match content message with
  | ContentString s => tokenCount + tokens s
  | ContentArray parts => fold_left count_part parts tokenCount
  | ContentOther => tokenCount
  end.

Definition count_system_item (tokenCount : Z) (item : SystemBlock) : Z :=
  if negb (String.eqb (sb_type item) "text") then tokenCount
  else match sb_text item with
       | TextString s => tokenCount + tokens s
       | TextArray parts =>
           fold_left (fun acc textPart => acc + tokens textPart) parts tokenCount
       | TextMissing => tokenCount
       end.

Definition count_tool (tokenCount : Z) (tool : Tool) : Z :=
  let tokenCount :=
    match tool_description tool with
    | Some d => if JS.truthy d then tokenCount + tokens (tool_name tool ++ d)
                else tokenCount
    | None => tokenCount
    end in
  match tool_input_schema tool with
  | Some sch => tokenCount + tokens (JSON_stringify sch)
  | None => tokenCount
  end.

(** [messages] and [tools] are [None] when the caller passes something
    that is not an array ([undefined]). *)
Definition calculateTokenCount
    (messages : option (list MessageParam)) (system : SystemPrompt)
    (tools : option (list Tool)) : Z :=
  let tokenCount := 0 in
  let tokenCount :=
    match messages with
    | Some ms => fold_left count_message ms tokenCount
    | None => tokenCount
    end in
  let tokenCount :=
    match system with
    | SysString s => tokenCount + tokens s
    | SysArray items => fold_left count_system_item items tokenCount
    | SysUndefined => tokenCount
    end in
  match tools with
  | Some ts => fold_left count_tool ts tokenCount
  | None => tokenCount
  end.

(** *** Configuration and request *)

Record RouterConfig := {
  default : string;
  background : option string;
  think : option string;
  longContext : option string;
  longContextThreshold : option Z;
  webSearch : option string
}.

Record Provider := { name : string; models : list string }.

Record AppConfig := { Providers : list Provider; GlobalRouter : RouterConfig }.

(** A project or session [config.json]: only its [Router] section is read. *)
Record ConfigFile := { file_Router : option RouterConfig }.

Record Usage := { input_tokens : Z; output_tokens : Z }.

Record ThinkingConfig := { thinking_type : string; budget_tokens : option Z }.

Record RequestBody := {
  model : string;
  messages : list MessageParam;
  system : SystemPrompt;
  tools : option (list Tool);
  thinking : option ThinkingConfig
}.

Record Request := { body : RequestBody; sessionId : option string }.

Inductive LogEntry :=
| LogLongContext (tokenCount threshold : Z)
| LogBackground (requested : string)
| LogThink.

(** What [getUseModel] does: the value it resolves to (or the
    [TypeError] it rejects with), the lines it wrote to [req.log], and
    the system prompt it leaves in [req.body]. *)
Inductive Outcome :=
| Selected (target : string)
| TypeError.

Record Decision := {
  outcome : Outcome;
  logged : list LogEntry;
  system_after : SystemPrompt
}.

Variable HOME_DIR : string.
Variable join : list string -> string.
Variable searchProjectBySession : string -> option string.
Variable readConfigFile : string -> option ConfigFile.

(** *** getProjectSpecificRouter *)

Definition getProjectSpecificRouter (req : Request) : option RouterConfig :=
  match sessionId req with
  | Some sid =>
      if JS.truthy sid then
        match searchProjectBySession sid with
        | Some project =>
            if JS.truthy project then
              let projectConfigPath := join [HOME_DIR; project; "config.json"] in
              let sessionConfigPath := join [HOME_DIR; project; sid ++ ".json"] in
              match readConfigFile sessionConfigPath with
              | Some {| file_Router := Some r |} => Some r
              | _ =>
                  match readConfigFile projectConfigPath with
                  | Some {| file_Router := Some r |} => Some r
                  | _ => None
                  end
              end
            else None
        | None => None
        end
      else None
  | None => None
  end.

(** *** getUseModel, rule by rule *)

Definition SUBAGENT_OPEN : string := "<CCR-SUBAGENT-MODEL>".
Definition SUBAGENT_CLOSE : string := "</CCR-SUBAGENT-MODEL>".

(** Rule 1, taken when [req.body.model.includes(",")]. *)
Definition explicitModel (config : AppConfig) (requested : string) : string :=
  let parts := JS.split "," requested in
  let provider := nth 0 parts EmptyString in
  let model := nth 1 parts EmptyString in
  let finalProvider :=
    JS.find (fun p => String.eqb (toLowerCase (name p)) provider)
            (Providers config) in
  let finalModel :=
    match finalProvider with
    | Some p => JS.find (fun m => String.eqb (toLowerCase m) model) (models p)
    | None => None
    end in
  match finalProvider, finalModel with
  | Some p, Some m =>
      if JS.truthy m then name p ++ "," ++ m else requested
  | _, _ => requested
  end.

(** [Router.longContextThreshold || 60000] *)
Definition thresholdOf (R : RouterConfig) : Z :=
  match longContextThreshold R with
  | Some t => if t =? 0 then 60000 else t
  | None => 60000
  end.

(** The guard of rule 2 without its [&& Router.longContext] part. *)
Definition overThreshold (R : RouterConfig) (tokenCount : Z)
    (lastUsage : option Usage) : bool :=
  let longContextThreshold := thresholdOf R in
  let lastUsageThreshold :=
    match lastUsage with
    | Some u => (longContextThreshold <? input_tokens u) && (20000 <? tokenCount)
    | None => false
    end in
  let tokenCountThreshold := longContextThreshold <? tokenCount in
  lastUsageThreshold || tokenCountThreshold.

(** Rule 3 looks at [req.body.system[1].text]. *)
Inductive SubagentProbe :=
| ProbeSkip
| ProbeThrow
| ProbeHit (target : string) (system' : SystemPrompt).

Definition subagentProbe (sys : SystemPrompt) : SubagentProbe :=
  match sys with
  | SysArray (b0 :: b1 :: rest) =>
      match sb_text b1 with
      | TextString text =>
          if JS.startsWith SUBAGENT_OPEN text then
            match JS.cut_at SUBAGENT_CLOSE
                    (JS.slice (String.length SUBAGENT_OPEN) text) with
            | Some (m, after) =>
                ProbeHit m
                  (SysArray (b0 :: {| sb_type := sb_type b1;
                                      sb_text := TextString after |} :: rest))
            | None => ProbeSkip
            end
          else ProbeSkip
      | TextArray _ => ProbeThrow
      | TextMissing => ProbeSkip
      end
  | _ => ProbeSkip
  end.

Definition hasWebSearchTool (ts : option (list Tool)) : bool :=
  match ts with
  | Some l =>
      JS.some (fun tool => match tool_type tool with
                           | Some ty => JS.startsWith "web_search" ty
                           | None => false
                           end) l
  | None => false
  end.

(** Rules 3 to 7; [R] is the active route configuration and [config]
    the global one. *)
Definition afterLongContext (req : Request) (config : AppConfig)
    (R : RouterConfig) (log0 : list LogEntry) : Decision :=
  let b := body req in
  match subagentProbe (system b) with
  | ProbeThrow =>
      {| outcome := TypeError; logged := log0; system_after := system b |}
  | ProbeHit m sys' =>
      {| outcome := Selected m; logged := log0; system_after := sys' |}
  | ProbeSkip =>
      if JS.includes "claude" (model b) && JS.includes "haiku" (model b)
         && JS.truthy_opt (background (GlobalRouter config))
      then {| outcome := Selected (JS.default_opt (background (GlobalRouter config)));
              logged := log0 ++ [LogBackground (model b)];
              system_after := system b |}
      else if hasWebSearchTool (tools b) && JS.truthy_opt (webSearch R)
      then {| outcome := Selected (JS.default_opt (webSearch R));
              logged := log0; system_after := system b |}
      else if bool_decide (is_Some (thinking b)) && JS.truthy_opt (think R)
      then {| outcome := Selected (JS.default_opt (think R));
              logged := log0 ++ [LogThink]; system_after := system b |}
      else {| outcome := Selected (default R);
              logged := log0; system_after := system b |}
  end.

Definition getUseModel (req : Request) (tokenCount : Z) (config : AppConfig)
    (lastUsage : option Usage) : Decision :=
  let projectSpecificRouter := getProjectSpecificRouter req in
  let R := match projectSpecificRouter with
           | Some r => r
           | None => GlobalRouter config
           end in
  let b := body req in
  if JS.includes "," (model b) then
    {| outcome := Selected (explicitModel config (model b));
       logged := []; system_after := system b |}
  else if overThreshold R tokenCount lastUsage && JS.truthy_opt (longContext R)
  then {| outcome := Selected (JS.default_opt (longContext R));
          logged := [LogLongContext tokenCount (thresholdOf R)];
          system_after := system b |}
  else afterLongContext req config R [].

End WithPlatform.

Arguments TRString {JSONValue} _.
Arguments TRJson {JSONValue} _.
Arguments CPText {JSONValue} _.
Arguments CPToolUse {JSONValue} _.
Arguments CPToolResult {JSONValue} _.
Arguments CPOther {JSONValue} _.
Arguments ContentString {JSONValue} _.
Arguments ContentArray {JSONValue} _.
Arguments ContentOther {JSONValue}.
Arguments role {JSONValue} _.
Arguments content {JSONValue} _.
Arguments tool_name {JSONValue} _.
Arguments tool_type {JSONValue} _.
Arguments tool_description {JSONValue} _.
Arguments tool_input_schema {JSONValue} _.
Arguments model {JSONValue} _.
Arguments messages {JSONValue} _.
Arguments system {JSONValue} _.
Arguments tools {JSONValue} _.
Arguments thinking {JSONValue} _.
Arguments body {JSONValue} _.
Arguments sessionId {JSONValue} _.

End Router.

(** ** Router middleware and project lookup ([src/utils/router.ts]) *)

Module Middleware.

Import Router.

(** [s.split(sep)] for a separator of several characters: the pieces
    between successive occurrences, found from the left. *)
Fixpoint splitOn_from (fuel : nat) (sep s : string) : list string :=
  match fuel with
  | O => [s]
  | S fuel' =>
      match JS.cut_at sep s with
      | None => [s]
      | Some (before, after) => before :: splitOn_from fuel' sep after
      end
  end.

Definition splitOn (sep s : string) : list string :=
  splitOn_from (String.length s) sep s.

Section WithPlatform.

(** Beside the platform functions of [getUseModel]: [encodeThrows] tells
    the texts on which the tokenizer's [enc.encode] throws instead of
    returning (tiktoken refuses a text that holds one of its special
    tokens). *)
Variable JSONValue : Type.
Variable encode : string -> list N.
Variable encodeThrows : string -> bool.
Variable JSON_stringify : JSONValue -> string.
Variable toLowerCase : string -> string.
Variable HOME_DIR : string.
Variable join : list string -> string.

(** *** searchProjectBySession

    The cache is an [LRUCache] of the [lru-cache] package, taken here
    through its three operations; [get] also returns the cache, whose
    recency order it updates.  The directory listing and [stat] are the
    file system's; [None] is a thrown error. *)

Variable Cache : Type.
Variable cache_has : string -> Cache -> bool.
Variable cache_get : string -> Cache -> option (option string) * Cache.
Variable cache_set : string -> option string -> Cache -> Cache.

Record Dirent := { d_name : string; d_isDirectory : bool }.

Record FileSystem := {
  opendir : string -> option (list Dirent);
  stat_isFile : string -> option bool;
  readConfigFile : string -> option ConfigFile
}.

Variable CLAUDE_PROJECTS_DIR : string.

(** One of the concurrent checks: the folder's name when it holds the
    session file, [null] otherwise. *)
Definition checkFolder (fs : FileSystem) (sessionId folderName : string)
    : option string :=
  let sessionFilePath :=
    join [CLAUDE_PROJECTS_DIR; folderName; sessionId ++ ".jsonl"] in
  match stat_isFile fs sessionFilePath with
  | Some true => Some folderName
  | Some false => None
  | None => None
  end.

(** The first result that is truthy. *)
Fixpoint firstFound (results : list (option string)) : option string :=
  match results with
  | [] => None
  | Some name :: rest => if JS.truthy name then Some name else firstFound rest
  | None :: rest => firstFound rest
  end.

Definition scanProjects (fs : FileSystem) (sessionId : string)
    : option (option string) :=
  match opendir fs CLAUDE_PROJECTS_DIR with
  | None => None
  | Some dir =>
      let folderNames :=
        map d_name (List.filter d_isDirectory dir) in
      Some (firstFound (map (checkFolder fs sessionId) folderNames))
  end.

Definition searchProjectBySession (fs : FileSystem) (sessionId : string)
    (cache : Cache) : option string * Cache :=
  if cache_has sessionId cache then
    let '(hit, cache') := cache_get sessionId cache in
    (match hit with Some project => project | None => None end, cache')
  else
    match scanProjects fs sessionId with
    | Some result => (result, cache_set sessionId result cache)
    | None => (None, cache_set sessionId None cache)
    end.

(** *** router *)

(** The settings [router] reads besides those of [getUseModel]. *)
Record RouterSettings := {
  app : AppConfig;
  REWRITE_SYSTEM_PROMPT : option string;
  CUSTOM_ROUTER_PATH : option string
}.

(** The request as the middleware receives it: [req.body.metadata.user_id]
    beside the part [getUseModel] reads. *)
Record Incoming := {
  request : Request JSONValue;
  user_id : option string
}.

(** What the platform gives the middleware: the last usage recorded for
    a session ([sessionUsageCache.get]), the content of a file
    ([readFile]; [None] when it throws), and the function a custom
    router module exports ([None] when [require] throws).  A custom
    router is given the request object itself, which it may change: it
    answers with the request as it leaves it, and with [None] when it
    throws, [Some None] for a falsy value and [Some (Some m)] for a
    string.  The configuration it only reads. *)
Record Platform := {
  lastUsageOf : option string -> option Usage;
  readFile : string -> option string;
  requireRouter :
    string ->
    option (Request JSONValue -> Z -> AppConfig ->
            Request JSONValue * option (option string));
  files : FileSystem;
  projectOf : string -> option string
}.

Inductive RouterLog :=
| Info (l : LogEntry)
| CustomRouterFailed
| MiddlewareError.

(** [router] either returns, leaving the request with its session id,
    its model and its system prompt, or rejects. *)
Inductive Routed :=
| Done (sessionId : option string) (model : string) (system : SystemPrompt)
    (log : list RouterLog)
| Rejects.

(** [req.sessionId] after the first block. *)
Definition sessionIdOf (before : option string) (user_id : option string)
    : option string :=
  match user_id with
  | Some u =>
      if JS.truthy u then
        match splitOn "_session_" u with
        | _ :: second :: _ => Some second
        | _ => before
        end
      else before
  | None => before
  end.

(** The system prompt after the [REWRITE_SYSTEM_PROMPT] block; [None]
    when that block throws. *)
Definition rewriteSystem (pf : Platform) (settings : RouterSettings)
    (sys : SystemPrompt) : option SystemPrompt :=
  match REWRITE_SYSTEM_PROMPT settings with
  | Some path =>
      if JS.truthy path then
        match sys with
        | SysArray (b0 :: b1 :: rest) =>
            match sb_text b1 with
            | TextString text =>
                if JS.includes "<env>" text then
                  match readFile pf path with
                  | Some prompt =>
                      Some (SysArray
                        (b0 :: {| sb_type := sb_type b1;
                                  sb_text := TextString
                                    (prompt ++ "<env>"
                                     ++ List.last (splitOn "<env>" text) "") |}
                            :: rest))
                  | None => None
                  end
                else Some sys
            | TextArray parts =>
                if existsb (String.eqb "<env>") parts then None else Some sys
            | TextMissing => Some sys
            end
        | _ => Some sys
        end
      else Some sys
  | None => Some sys
  end.

Definition withSystem (req : Request JSONValue) (sid : option string)
    (sys : SystemPrompt) : Request JSONValue :=
  {| body := {| model := model (body req); messages := messages (body req);
                system := sys; tools := tools (body req);
                thinking := thinking (body req) |};
     sessionId := sid |}.

(** The texts [calculateTokenCount] hands to the tokenizer, in the order
    of its loops. *)
Definition part_texts (contentPart : ContentPart JSONValue) : list string :=
  match contentPart with
  | CPText text => [text]
  | CPToolUse input => [JSON_stringify input]
  | CPToolResult (TRString s) => [s]
  | CPToolResult (TRJson j) => [JSON_stringify j]
  | CPOther _ => []
  end.

Definition message_texts (message : MessageParam JSONValue) : list string :=
  match content message with
  | ContentString s => [s]
  | ContentArray parts => flat_map part_texts parts
  | ContentOther => []
  end.

Definition system_item_texts (item : SystemBlock) : list string :=
  if negb (String.eqb (sb_type item) "text") then []
  else match sb_text item with
       | TextString s => [s]
       | TextArray parts => parts
       | TextMissing => []
       end.

Definition tool_texts (tool : Tool JSONValue) : list string :=
  (match tool_description tool with
   | Some d => if JS.truthy d then [(tool_name tool ++ d)%string] else []
   | None => []
   end ++
   match tool_input_schema tool with
   | Some sch => [JSON_stringify sch]
   | None => []
   end)%list.

Definition encodedTexts (messages : option (list (MessageParam JSONValue)))
    (system : SystemPrompt) (tools : option (list (Tool JSONValue))) : list string :=
  (match messages with
   | Some ms => flat_map message_texts ms
   | None => []
   end ++
   match system with
   | SysString s => [s]
   | SysArray items => flat_map system_item_texts items
   | SysUndefined => []
   end ++
   match tools with
   | Some ts => flat_map tool_texts ts
   | None => []
   end)%list.

(** [calculateTokenCount] throws: the tokenizer does on one of the texts. *)
Definition countThrows (messages : option (list (MessageParam JSONValue)))
    (system : SystemPrompt) (tools : option (list (Tool JSONValue))) : bool :=
  existsb encodeThrows (encodedTexts messages system tools).

(** The custom-router block: the request as it leaves it, the model it
    gave if truthy, and what was logged. *)
Definition customRoute (pf : Platform) (settings : RouterSettings)
    (req : Request JSONValue) (tokenCount : Z)
    : Request JSONValue * option string * list RouterLog :=
  match CUSTOM_ROUTER_PATH settings with
  | Some path =>
      if JS.truthy path then
        match requireRouter pf path with
        | Some customRouter =>
            match customRouter req tokenCount (app settings) with
            | (req', Some (Some m)) =>
                (req', if JS.truthy m then Some m else None, [])
            | (req', Some None) => (req', None, [])
            | (req', None) => (req', None, [CustomRouterFailed])
            end
        | None => (req, None, [CustomRouterFailed])
        end
      else (req, None, [])
  | None => (req, None, [])
  end.

Definition router (pf : Platform) (settings : RouterSettings) (inc : Incoming)
    : Routed :=
  let sid := sessionIdOf (sessionId (request inc)) (user_id inc) in
  let lastMessageUsage := lastUsageOf pf sid in
  match rewriteSystem pf settings (system (body (request inc))) with
  | None => Rejects
  | Some sys =>
      let req := withSystem (request inc) sid sys in
      let counted := match sys with SysUndefined => SysArray [] | _ => sys end in
      if countThrows (Some (messages (body req))) counted (tools (body req))
      then Done sid (default (GlobalRouter (app settings))) sys [MiddlewareError]
      else
        let tokenCount :=
          calculateTokenCount JSONValue encode JSON_stringify
            (Some (messages (body req))) counted (tools (body req)) in
        let '(req', custom, log) := customRoute pf settings req tokenCount in
        match custom with
        | Some m => Done (sessionId req') m (system (body req')) log
        | None =>
            let d :=
              getUseModel JSONValue toLowerCase HOME_DIR join (projectOf pf)
                (readConfigFile (files pf)) req' tokenCount (app settings)
                lastMessageUsage in
            match outcome d with
            | Selected m =>
                Done (sessionId req') m (system_after d)
                  (log ++ map Info (logged d))
            | TypeError =>
                Done (sessionId req') (default (GlobalRouter (app settings)))
                  (system_after d)
                  (log ++ map Info (logged d) ++ [MiddlewareError])
            end
        end
  end.

End WithPlatform.

Arguments request {JSONValue} _.
Arguments user_id {JSONValue} _.
Arguments lastUsageOf {JSONValue} _.
Arguments readFile {JSONValue} _.
Arguments requireRouter {JSONValue} _.
Arguments files {JSONValue} _.
Arguments projectOf {JSONValue} _.
Arguments withSystem {JSONValue} _ _ _.

End Middleware.

(** ** Event types ([src/types.ts]) *)

Module Types.

Record ContentBlock := {
  cb_type : string;
  cb_name : option string;
  cb_id : option string;
  cb_text : option string
}.

Record Delta := {
  delta_type : string;
  partial_json : option string;
  delta_text : option string
}.

Record UsageInfo := { usage_input_tokens : Z; usage_output_tokens : Z }.

Record SSEEventData := {
  type : option string;
  index : option Z;
  content_block : option ContentBlock;
  delta : option Delta;
  usage : option UsageInfo
}.

(** [SSEEventData | { type: "done" } | { raw: string; error: string }],
    the declared type of a payload: what [JSON.parse] gives for a text
    that is not an object ([null], a number, a string) has no value
    here. *)
Inductive SSEData :=
| Payload (d : SSEEventData)
| Done
| RawError (raw error : string).

(** [retry] holds what [parseInt] returned: [None] is [NaN]. *)
Record ParsedSSEEvent := {
  event : option string;
  data : option SSEData;
  id : option string;
  retry : option (option Z)
}.

End Types.

(** ** Event codec: parser ([src/utils/SSEParser.transform.ts]) *)

Module SSEParser.

Import Types.

(** *** [String.prototype.trim] on the UTF-8 form

    The white space of ECMAScript: TAB, LF, VT, FF, CR, SP, and beyond
    ASCII U+00A0, U+1680, U+2000..U+200A, U+2028, U+2029, U+202F, U+205F,
    U+3000 and U+FEFF, which take two or three bytes. *)

Definition code (c : ascii) : N := N_of_ascii c.

Definition is_ws1 (a : ascii) : bool :=
  let n := code a in
  ((9 <=? n) && (n <=? 13) || (n =? 32))%N.

Definition is_ws2 (a b : ascii) : bool :=
  ((code a =? 194) && (code b =? 160))%N.

Definition is_ws3 (a b c : ascii) : bool :=
  let x := code a in let y := code b in let z := code c in
  ((x =? 225) && (y =? 154) && (z =? 128)
   || (x =? 226) && (y =? 128)
      && ((128 <=? z) && (z <=? 138) || (z =? 168) || (z =? 169) || (z =? 175))
   || (x =? 226) && (y =? 129) && (z =? 159)
   || (x =? 227) && (y =? 128) && (z =? 128)
   || (x =? 239) && (y =? 187) && (z =? 191))%N.

Fixpoint trimStart (s : string) : string :=
  match s with
  | EmptyString => s
  | String a s1 =>
      if is_ws1 a then trimStart s1
      else match s1 with
           | EmptyString => s
           | String b s2 =>
               if is_ws2 a b then trimStart s2
               else match s2 with
                    | EmptyString => s
                    | String c s3 => if is_ws3 a b c then trimStart s3 else s
                    end
           end
  end.

(** All of [s] is white space. *)
Definition blank (s : string) : bool :=
  match trimStart s with EmptyString => true | _ => false end.

Fixpoint trimEnd (s : string) : string :=
  match s with
  | EmptyString => EmptyString
  | String a s' => if blank s then EmptyString else String a (trimEnd s')
  end.

Definition trim (s : string) : string := trimEnd (trimStart s).

(** *** [parseInt(s, 10)]

    Numbers are integers here: a run of digits is read exactly, where
    the code gets the nearest double. *)

Definition digit (c : ascii) : option Z :=
  let n := code c in
  if ((48 <=? n) && (n <=? 57))%N then Some (Z.of_N n - 48) else None.

Fixpoint digits (s : string) (acc : option Z) : option Z :=
  match s with
  | EmptyString => acc
  | String c s' =>
      match digit c with
      | Some d => digits s' (Some (10 * default 0 acc + d))
      | None => acc
      end
  end.

Definition parseInt10 (s : string) : option Z :=
  match trimStart s with
  | String "-" s' => Z.opp <$> digits s' None
  | String "+" s' => digits s' None
  | s' => digits s' None
  end.

(** *** [new TextDecoder().decode(chunk)]

    The UTF-8 decoder of the Encoding standard, run on one chunk from a
    fresh state: a well-formed sequence is kept, every ill-formed or
    truncated one becomes U+FFFD, and a byte-order mark at the start of the
    chunk is dropped. *)

Record DecoderState := {
  needed : nat;
  lower : N;
  upper : N;
  seen : list ascii
}.

Definition fresh : DecoderState :=
  {| needed := 0; lower := 128; upper := 191; seen := [] |}.

Definition REPLACEMENT : list ascii :=
  [ascii_of_N 239; ascii_of_N 191; ascii_of_N 189].

Definition BOM : list ascii :=
  [ascii_of_N 239; ascii_of_N 187; ascii_of_N 191].

(** A byte met while no sequence is open; [k] decodes what follows. *)
Definition lead (b : ascii) (k : DecoderState -> list ascii) : list ascii :=
  let n := code b in
  if (n <=? 127)%N then b :: k fresh
  else if ((194 <=? n) && (n <=? 223))%N then
    k {| needed := 1; lower := 128; upper := 191; seen := [b] |}
  else if ((224 <=? n) && (n <=? 239))%N then
    k {| needed := 2;
         lower := if (n =? 224)%N then 160%N else 128%N;
         upper := if (n =? 237)%N then 159%N else 191%N;
         seen := [b] |}
  else if ((240 <=? n) && (n <=? 244))%N then
    k {| needed := 3;
         lower := if (n =? 240)%N then 144%N else 128%N;
         upper := if (n =? 244)%N then 143%N else 191%N;
         seen := [b] |}
  else REPLACEMENT ++ k fresh.

Fixpoint decode_from (st : DecoderState) (bs : list ascii) : list ascii :=
  match bs with
  | [] => match needed st with O => [] | S _ => REPLACEMENT end
  | b :: bs' =>
      match needed st with
      | O => lead b (fun st' => decode_from st' bs')
      | S n =>
          if ((lower st <=? code b) && (code b <=? upper st))%N then
            match n with
            | O => seen st ++ [b] ++ decode_from fresh bs'
            | S _ => decode_from {| needed := n; lower := 128; upper := 191;
                                    seen := seen st ++ [b] |} bs'
            end
          else REPLACEMENT ++ lead b (fun st' => decode_from st' bs')
      end
  end.

Definition strip_bom (l : list ascii) : list ascii :=
  match l with
  | a :: b :: c :: rest =>
      if ((code a =? 239) && (code b =? 187) && (code c =? 191))%N
      then rest else l
  | _ => l
  end.

Definition decode (chunk : list Byte.byte) : string :=
  string_of_list_ascii (strip_bom (decode_from fresh (map ascii_of_byte chunk))).

Section Parser.

(** [JSON.parse(data) as SSEData]; [None] when it throws. *)
Variable JSON_parse : string -> option SSEData.

Definition emptyEvent : ParsedSSEEvent :=
  {| event := None; data := None; id := None; retry := None |}.

(** [Object.keys(e).length > 0] *)
Definition hasKeys (e : ParsedSSEEvent) : bool :=
  bool_decide (is_Some (event e)) || bool_decide (is_Some (data e))
  || bool_decide (is_Some (id e)) || bool_decide (is_Some (retry e)).

(** The parser object: [this.buffer] and [this.currentEvent]. *)
Record Parser := { buffer : string; currentEvent : ParsedSSEEvent }.

Definition initial : Parser := {| buffer := ""; currentEvent := emptyEvent |}.

(** The payload of a [data:] line. *)
Definition parseData (data : string) : SSEData :=
  if String.eqb data "[DONE]" then Done
  else match JSON_parse data with
       | Some v => v
       | None => RawError data "JSON parse failed"
       end.

(** [processLine(line, events)]: the draft afterwards, the [events] array
    afterwards (when one was passed), and the value returned. *)
Definition processLine (line : string) (events : option (list ParsedSSEEvent))
    (cur : ParsedSSEEvent)
    : ParsedSSEEvent * option (list ParsedSSEEvent) * option ParsedSSEEvent :=
  if negb (JS.truthy (trim line)) then
    if hasKeys cur then
      match events with
      | Some evs => (emptyEvent, Some (evs ++ [cur])%list, None)
      | None => (emptyEvent, None, Some cur)
      end
    else (cur, events, None)
  else if JS.startsWith "event:" line then
    ({| event := Some (trim (JS.slice 6 line)); data := data cur;
        id := id cur; retry := retry cur |}, events, None)
  else if JS.startsWith "data:" line then
    ({| event := event cur; data := Some (parseData (trim (JS.slice 5 line)));
        id := id cur; retry := retry cur |}, events, None)
  else if JS.startsWith "id:" line then
    ({| event := event cur; data := data cur;
        id := Some (trim (JS.slice 3 line)); retry := retry cur |}, events, None)
  else if JS.startsWith "retry:" line then
    ({| event := event cur; data := data cur; id := id cur;
        retry := Some (parseInt10 (trim (JS.slice 6 line))) |}, events, None)
  else (cur, events, None).

(** The [for (const line of lines)] loop of [transform]: the draft it
    leaves and what it enqueued. *)
Fixpoint processLines (lines : list string) (cur : ParsedSSEEvent)
    : ParsedSSEEvent * list ParsedSSEEvent :=
  match lines with
  | [] => (cur, [])
  | line :: rest =>
      let '(cur', _, returned) := processLine line None cur in
      let '(cur'', out) := processLines rest cur' in
      (cur'', match returned with Some e => e :: out | None => out end)
  end.

(** [transform] once the chunk is decoded: append, split on newline, keep
    the last piece, process the others. *)
Definition feed (text : string) (p : Parser) : Parser * list ParsedSSEEvent :=
  let lines := JS.split "010" (buffer p ++ text) in
  let '(cur, out) := processLines (removelast lines) (currentEvent p) in
  ({| buffer := List.last lines ""; currentEvent := cur |}, out).

Definition transform (chunk : list Byte.byte) (p : Parser)
    : Parser * list ParsedSSEEvent :=
  feed (decode chunk) p.

Definition flush (p : Parser) : list ParsedSSEEvent :=
  let '(cur, enqueued) :=
    if JS.truthy (trim (buffer p)) then
      match processLine (trim (buffer p)) (Some []) (currentEvent p) with
      | (cur, Some events, _) => (cur, events)
      | (cur, None, _) => (cur, [])
      end
    else (currentEvent p, []) in
  if hasKeys cur then (enqueued ++ [cur])%list else enqueued.

(** The readable side of the transform stream: everything enqueued while
    the chunks were written, then what [flush] adds. *)
Fixpoint transformAll (chunks : list (list Byte.byte)) (p : Parser)
    : Parser * list ParsedSSEEvent :=
  match chunks with
  | [] => (p, [])
  | chunk :: rest =>
      let '(p', out) := transform chunk p in
      let '(p'', out') := transformAll rest p' in
      (p'', (out ++ out')%list)
  end.

Definition parseStream (chunks : list (list Byte.byte)) : list ParsedSSEEvent :=
  let '(p, out) := transformAll chunks initial in
  (out ++ flush p)%list.

End Parser.

End SSEParser.

(** ** Streams: the output side of a [ReadableStream]

    The part of the Streams standard the code relies on: a default
    controller with the default queuing strategy (high-water mark 1, every
    chunk of size 1), and a consumer that, whenever the producer is
    suspended in an [await], may take a chunk from the queue or cancel the
    stream. *)

Module Streams.

Record NodeError := { err_name : string; err_code : option string }.

Definition TypeError : NodeError :=
  {| err_name := "TypeError"; err_code := None |}.

(** How an [async] function ends. *)
Inductive Completion (A : Type) :=
| Return (v : A)
| Throw (e : NodeError).
Arguments Return {A} v.
Arguments Throw {A} e.

Inductive StreamState := Readable | Closed | Errored.

(** [queued] counts the chunks waiting in the queue; [emitted] records
    every chunk ever accepted by [enqueue], in order. *)
Record Controller (A : Type) := {
  state : StreamState;
  closeRequested : bool;
  queued : nat;
  emitted : list A
}.
Arguments state {A} c.
Arguments closeRequested {A} c.
Arguments queued {A} c.
Arguments emitted {A} c.

Definition newController {A} : Controller A :=
  {| state := Readable; closeRequested := false; queued := 0; emitted := [] |}.

Definition highWaterMark : Z := 1.

(** [controller.desiredSize]; [None] is [null]. *)
Definition desiredSize {A} (c : Controller A) : option Z :=
  match state c with
  | Errored => None
  | Closed => Some 0
  | Readable => Some (highWaterMark - Z.of_nat (queued c))
  end.

(** Truthiness of a [number | null]. *)
Definition truthy (n : option Z) : bool :=
  match n with Some z => negb (z =? 0) | None => false end.

Definition canCloseOrEnqueue {A} (c : Controller A) : bool :=
  match state c with Readable => negb (closeRequested c) | _ => false end.

(** [controller.enqueue(x)]; [None] when it throws a [TypeError]. *)
Definition enqueue {A} (x : A) (c : Controller A) : option (Controller A) :=
  if canCloseOrEnqueue c then
    Some {| state := state c; closeRequested := closeRequested c;
            queued := S (queued c); emitted := (emitted c ++ [x])%list |}
  else None.

(** [controller.close()]; [None] when it throws a [TypeError]. *)
Definition close {A} (c : Controller A) : option (Controller A) :=
  if canCloseOrEnqueue c then
    Some {| state := match queued c with O => Closed | S _ => Readable end;
            closeRequested := true; queued := queued c; emitted := emitted c |}
  else None.

(** [controller.error(e)]: nothing happens unless the stream is readable. *)
Definition error {A} (c : Controller A) : Controller A :=
  match state c with
  | Readable => {| state := Errored; closeRequested := closeRequested c;
                   queued := 0; emitted := emitted c |}
  | _ => c
  end.

Inductive ConsumerAction := Wait | Take | Cancel.

Definition consumerStep {A} (a : ConsumerAction) (c : Controller A)
    : Controller A :=
  match a, state c with
  | Take, Readable =>
      match queued c with
      | O => c
      | S n => {| state := if closeRequested c
                           then match n with O => Closed | S _ => Readable end
                           else Readable;
                  closeRequested := closeRequested c;
                  queued := n; emitted := emitted c |}
      end
  | Cancel, Readable =>
      {| state := Closed; closeRequested := closeRequested c;
         queued := 0; emitted := emitted c |}
  | _, _ => c
  end.

(** The output as the producer sees it: its controller, and the number
    of suspensions so far, which indexes the consumer's schedule. *)
Record Output (A : Type) := { ctl : Controller A; clock : nat }.
Arguments ctl {A} o.
Arguments clock {A} o.

Definition newOutput {A} : Output A := {| ctl := newController; clock := 0 |}.

Definition withCtl {A} (o : Output A) (c : Controller A) : Output A :=
  {| ctl := c; clock := clock o |}.

(** One [await]: the consumer acts, time advances. *)
Definition await {A} (consumer : nat -> ConsumerAction) (o : Output A)
    : Output A :=
  {| ctl := consumerStep (consumer (clock o)) (ctl o); clock := S (clock o) |}.

End Streams.

(** ** Stream rewriter ([src/utils/rewriteStream.ts]) *)

Module RewriteStream.

Import Streams.

Section Rewrite.

(** Items of the source, items of the output, and the state the step
    function closes over. *)
Variables (A B St : Type).
Variable consumer : nat -> ConsumerAction.
Variable processor : A -> St -> Output B -> St * Output B * Completion (option B).

(** What [start] has done when it returns: the step function's state, the
    output, how often [reader.read()] was called, and whether
    [reader.releaseLock()] ran. *)
Record Run := {
  final : St;
  output : Output B;
  reads : nat;
  released : bool
}.

(** The [catch] and [finally] blocks. *)
Definition fail (s : St) (o : Output B) (reads : nat) : Run :=
  {| final := s; output := withCtl o (error (ctl o)); reads := reads;
     released := true |}.

(** The [while (true)] loop over a source that yields [src] and then
    either reports [done] or rejects the read with [ending]. *)
Fixpoint loop (src : list A) (ending : option NodeError) (s : St)
    (o : Output B) (reads : nat) : Run :=
  match src with
  | [] =>
      let o := await consumer o in
      match ending with
      | None =>
          match close (ctl o) with
          | Some c => {| final := s; output := withCtl o c; reads := S reads;
                         released := true |}
          | None => fail s o (S reads)
          end
      | Some _ => fail s o (S reads)
      end
  | value :: rest =>
      let o := await consumer o in
      let '(s', o', processed) := processor value s o in
      let o' := await consumer o' in
      match processed with
      | Throw _ => fail s' o' (S reads)
      | Return None => loop rest ending s' o' (S reads)
      | Return (Some y) =>
          match enqueue y (ctl o') with
          | Some c => loop rest ending s' (withCtl o' c) (S reads)
          | None => fail s' o' (S reads)
          end
      end
  end.

Definition rewriteStream (src : list A) (ending : option NodeError) (s0 : St)
    : Run :=
  loop src ending s0 newOutput 0.

End Rewrite.

Arguments final {B St} r.
Arguments output {B St} r.
Arguments reads {B St} r.
Arguments released {B St} r.

End RewriteStream.

(** ** Tool-call interceptor ([src/utils/processCheck.ts]) *)

Module Interceptor.

Import Types Streams.

Section Agent.

(** [M]: the messages the request arrived with, which the interceptor
    never inspects.  [Args]: what [JSON5.parse] produces. *)
Variables (M Args : Type).

Record ToolUseMessage := {
  tu_id : option string;
  tu_name : string;
  tu_input : Args
}.

Record ToolResultMessage := {
  tool_use_id : option string;
  tr_content : option string
}.

(** A message as serialised into a request body. *)
Inductive BodyMessage :=
| Original (m : M)
| AssistantMessage (content : list ToolUseMessage)
| UserMessage (content : list ToolResultMessage).

(** An entry of [routerReq.body.messages].  The two messages pushed by
    [fetchToolResponse] hold the arrays [state.assistantMessages] and
    [state.toolMessages] themselves, not copies: they are aliases, read
    through the state whenever the body is looked at. *)
Inductive HistoryEntry :=
| Kept (m : M)
| AssistantAlias
| UserAlias.

Inductive HandlerResult :=
| Resolved (output : string)
| Rejected (e : NodeError).

(** A handler is given the parsed arguments and the request.  The
    arguments are an object it may change - the repository's image tool
    deletes a field of it -, so it answers with the arguments as it
    leaves them beside its result; the request it only reads. *)
Record ITool := {
  handler : Args -> list BodyMessage -> Args * HandlerResult
}.

Record IAgent := { agent_name : string; tools : gmap string ITool }.

Inductive FetchResult :=
| FetchRejected (e : NodeError)
| Response (ok : bool) (status : Z) (chunks : list (list Byte.byte))
    (ending : option NodeError).

(** The collaborators: the agent registry ([agentsManager.getAgent]),
    [JSON5.parse] and [JSON.parse] ([None] when they throw), the loopback
    [fetch] (given the number of earlier requests and the body posted), the
    consumer of the output stream, and the request's [agents]. *)
Variable getAgent : string -> option IAgent.
Variable JSON5_parse : string -> option Args.
Variable JSON_parse : string -> option SSEData.
Variable fetch : nat -> list BodyMessage -> FetchResult.
Variable consumer : nat -> ConsumerAction.
Variable agents : list string.

Record AgentToolState := {
  currentAgent : option IAgent;
  currentToolIndex : option Z;
  currentToolName : string;
  currentToolArgs : string;
  currentToolId : option string;
  toolMessages : list ToolResultMessage;
  assistantMessages : list ToolUseMessage
}.

Definition createAgentToolState : AgentToolState :=
  {| currentAgent := None; currentToolIndex := Some (-1);
     currentToolName := ""; currentToolArgs := ""; currentToolId := Some "";
     toolMessages := []; assistantMessages := [] |}.

Definition resetToolState (state : AgentToolState) : AgentToolState :=
  {| currentAgent := None; currentToolIndex := Some (-1);
     currentToolName := ""; currentToolArgs := ""; currentToolId := Some "";
     toolMessages := toolMessages state;
     assistantMessages := assistantMessages state |}.

Inductive ConsoleLine :=
| ToolFailed (toolName : string)
| FetchStatus (status : Z)
| FetchTimedOut
| FetchFailed (e : NodeError)
| Unexpected (e : NodeError).

(** Everything one response stream's step function works on: its closed-
    over tool state, [routerReq.body.messages], the bodies posted so far,
    whether [abortController.abort()] was called, and [console.error]. *)
Record Session := {
  tool : AgentToolState;
  history : list HistoryEntry;
  requests : list (list BodyMessage);
  aborted : bool;
  console : list ConsoleLine
}.

Definition newSession (messages : list M) : Session :=
  {| tool := createAgentToolState; history := map Kept messages;
     requests := []; aborted := false; console := [] |}.

Definition withTool (s : Session) (t : AgentToolState) : Session :=
  {| tool := t; history := history s; requests := requests s;
     aborted := aborted s; console := console s |}.

Definition logError (s : Session) (l : ConsoleLine) : Session :=
  {| tool := tool s; history := history s; requests := requests s;
     aborted := aborted s; console := (console s ++ [l])%list |}.

Definition abort (s : Session) : Session :=
  {| tool := tool s; history := history s; requests := requests s;
     aborted := true; console := console s |}.

(** [routerReq.body.messages] as [JSON.stringify] or a handler sees it. *)
Definition resolve (state : AgentToolState) (h : HistoryEntry) : BodyMessage :=
  match h with
  | Kept m => Original m
  | AssistantAlias => AssistantMessage (assistantMessages state)
  | UserAlias => UserMessage (toolMessages state)
  end.

Definition bodyMessages (s : Session) : list BodyMessage :=
  map (resolve (tool s)) (history s).

(** *** Reading an event *)

Definition dataIndex (d : SSEData) : option Z :=
  match d with Payload p => index p | _ => None end.

Definition dataType (d : SSEData) : option string :=
  match d with Payload p => type p | Done => Some "done" | RawError _ _ => None end.

Definition dataContentBlock (d : SSEData) : option ContentBlock :=
  match d with Payload p => content_block p | _ => None end.

Definition dataDelta (d : SSEData) : option Delta :=
  match d with Payload p => delta p | _ => None end.

Definition eventIs (name : string) (ev : ParsedSSEEvent) : bool :=
  bool_decide (event ev = Some name).

(** [state.currentToolIndex > -1] *)
Definition toolInProgress (state : AgentToolState) : bool :=
  match currentToolIndex state with Some i => -1 <? i | None => false end.

(** [data.data.index === state.currentToolIndex]: reading [index] off a
    missing payload throws. *)
Definition indexMatches (ev : ParsedSSEEvent) (state : AgentToolState)
    : Completion bool :=
  match data ev with
  | None => Throw TypeError
  | Some d => Return (bool_decide (dataIndex d = currentToolIndex state))
  end.

(** *** detectToolCallStart *)

Definition registers (toolName : string) (agentName : string) : bool :=
  match getAgent agentName with
  | Some a => bool_decide (is_Some (tools a !! toolName))
  | None => false
  end.

Definition detectToolCallStart (ev : ParsedSSEEvent) (state : AgentToolState)
    : bool * AgentToolState :=
  match data ev ≫= dataContentBlock with
  | Some block =>
      match cb_name block with
      | Some toolName =>
          if eventIs "content_block_start" ev && JS.truthy toolName then
            match JS.find (registers toolName) agents with
            | Some agent =>
                if JS.truthy agent then
                  (true,
                   {| currentAgent := getAgent agent;
                      currentToolIndex := data ev ≫= dataIndex;
                      currentToolName := toolName;
                      currentToolArgs := currentToolArgs state;
                      currentToolId := cb_id block;
                      toolMessages := toolMessages state;
                      assistantMessages := assistantMessages state |})
                else (false, state)
            | None => (false, state)
            end
          else (false, state)
      | None => (false, state)
      end
  | None => (false, state)
  end.

(** *** collectToolArguments *)

Definition collectToolArguments (ev : ParsedSSEEvent) (state : AgentToolState)
    : Completion (bool * AgentToolState) :=
  if toolInProgress state then
    match indexMatches ev state with
    | Throw e => Throw e
    | Return false => Return (false, state)
    | Return true =>
        match data ev ≫= dataDelta with
        | Some d =>
            if String.eqb (delta_type d) "input_json_delta" then
              Return (true,
                {| currentAgent := currentAgent state;
                   currentToolIndex := currentToolIndex state;
                   currentToolName := currentToolName state;
                   currentToolArgs :=
                     currentToolArgs state ++
                     (match partial_json d with
                      | Some j => if JS.truthy j then j else ""
                      | None => ""
                      end);
                   currentToolId := currentToolId state;
                   toolMessages := toolMessages state;
                   assistantMessages := assistantMessages state |})
            else Return (false, state)
        | None => Return (false, state)
        end
    end
  else Return (false, state).

(** *** executeAgentTool *)

Definition pushAssistant (state : AgentToolState) (m : ToolUseMessage)
    : AgentToolState :=
  {| currentAgent := currentAgent state;
     currentToolIndex := currentToolIndex state;
     currentToolName := currentToolName state;
     currentToolArgs := currentToolArgs state;
     currentToolId := currentToolId state;
     toolMessages := toolMessages state;
     assistantMessages := (assistantMessages state ++ [m])%list |}.

Definition pushTool (state : AgentToolState) (m : ToolResultMessage)
    : AgentToolState :=
  {| currentAgent := currentAgent state;
     currentToolIndex := currentToolIndex state;
     currentToolName := currentToolName state;
     currentToolArgs := currentToolArgs state;
     currentToolId := currentToolId state;
     toolMessages := (toolMessages state ++ [m])%list;
     assistantMessages := assistantMessages state |}.

(** The body of the [try] block and its [catch].  The tool use put on
    record before the call holds the arguments object itself, not a copy:
    the handler sees it with the arguments as parsed, and afterwards it
    reads as the handler left them. *)
Definition runTool (s : Session) (o : Output ParsedSSEEvent)
    : Session * Output ParsedSSEEvent :=
  let state := tool s in
  match JSON5_parse (currentToolArgs state) with
  | None => (logError s (ToolFailed (currentToolName state)), o)
  | Some args =>
      let recorded (input : Args) :=
        pushAssistant state
          {| tu_id := currentToolId state; tu_name := currentToolName state;
             tu_input := input |} in
      let called :=
        currentAgent state ≫= (fun a => tools a !! currentToolName state) in
      let result :=
        match called with
        | Some t => Some (handler t args (bodyMessages (withTool s (recorded args))))
        | None => None
        end in
      let o := await consumer o in
      match result with
      | None =>
          (withTool s (pushTool (recorded args)
             {| tool_use_id := currentToolId state; tr_content := None |}), o)
      | Some (args', Resolved toolResult) =>
          (withTool s (pushTool (recorded args')
             {| tool_use_id := currentToolId state;
                tr_content := Some toolResult |}), o)
      | Some (args', Rejected _) =>
          (logError (withTool s (recorded args'))
             (ToolFailed (currentToolName state)), o)
      end
  end.

Definition executeAgentTool (ev : ParsedSSEEvent) (s : Session)
    (o : Output ParsedSSEEvent)
    : Session * Output ParsedSSEEvent * Completion bool :=
  if toolInProgress (tool s) then
    match indexMatches ev (tool s) with
    | Throw e => (s, o, Throw e)
    | Return false => (s, o, Return false)
    | Return true =>
        if bool_decide (data ev ≫= dataType = Some "content_block_stop") then
          let '(s', o') := runTool s o in
          (withTool s' (resetToolState (tool s')), o', Return true)
        else (s, o, Return false)
    end
  else (s, o, Return false).

(** *** pipeResponseToController and fetchToolResponse *)

(** What the reader of [response.body.pipeThrough(new SSEParserTransform())]
    yields before it reports [done] or rejects. *)
Definition bodyEvents (chunks : list (list Byte.byte)) (ending : option NodeError)
    : list ParsedSSEEvent :=
  let '(p, out) := SSEParser.transformAll JSON_parse chunks SSEParser.initial in
  match ending with
  | None => (out ++ SSEParser.flush JSON_parse p)%list
  | Some _ => out
  end.

Definition envelope (value : ParsedSSEEvent) : bool :=
  match event value with
  | Some name =>
      JS.truthy name &&
      (String.eqb name "message_start" || String.eqb name "message_stop")
  | None => false
  end.

Definition cancellation (e : NodeError) : bool :=
  String.eqb (err_name e) "AbortError"
  || bool_decide (err_code e = Some "ERR_STREAM_PREMATURE_CLOSE").

(** The [while (true)] loop of [pipeResponseToController]; the second
    component is the error it rethrows, if any. *)
Fixpoint pipeResponseToController (events : list ParsedSSEEvent)
    (ending : option NodeError) (s : Session) (o : Output ParsedSSEEvent)
    : Session * Output ParsedSSEEvent * option NodeError :=
  match events with
  | [] =>
      let o := await consumer o in
      match ending with
      | None => (s, o, None)
      | Some readError =>
          if cancellation readError then (abort s, o, None)
          else (s, o, Some readError)
      end
  | value :: rest =>
      let o := await consumer o in
      if envelope value then pipeResponseToController rest ending s o
      else if negb (truthy (desiredSize (ctl o))) then (s, o, None)
      else match enqueue value (ctl o) with
           | Some c => pipeResponseToController rest ending s (withCtl o c)
           | None => (s, o, Some TypeError)
           end
  end.

Definition pushHistory (s : Session) (h : list HistoryEntry) : Session :=
  {| tool := tool s; history := (history s ++ h)%list; requests := requests s;
     aborted := aborted s; console := console s |}.

Definition post (s : Session) (body : list BodyMessage) : Session :=
  {| tool := tool s; history := history s;
     requests := (requests s ++ [body])%list;
     aborted := aborted s; console := console s |}.

Definition fetchToolResponse (s : Session) (o : Output ParsedSSEEvent)
    : Session * Output ParsedSSEEvent :=
  let s := pushHistory s [AssistantAlias; UserAlias] in
  let body := bodyMessages s in
  let response := fetch (length (requests s)) body in
  let s := post s body in
  let o := await consumer o in
  match response with
  | FetchRejected e =>
      (logError s (if String.eqb (err_name e) "AbortError"
                   then FetchTimedOut else FetchFailed e), o)
  | Response ok status chunks ending =>
      if negb ok then (logError s (FetchStatus status), o)
      else
        match pipeResponseToController (bodyEvents chunks ending) ending s o with
        | (s', o', None) => (s', o')
        | (s', o', Some e) =>
            (logError s' (if String.eqb (err_name e) "AbortError"
                          then FetchTimedOut else FetchFailed e), o')
        end
  end.

(** *** createAgentStreamProcessor *)

(** The [catch] of the step function. *)
Definition recover (e : NodeError) (s : Session) (o : Output ParsedSSEEvent)
    : Session * Output ParsedSSEEvent * Completion (option ParsedSSEEvent) :=
  let s := logError s (Unexpected e) in
  if bool_decide (err_code e = Some "ERR_STREAM_PREMATURE_CLOSE")
  then (abort s, o, Return None)
  else (s, o, Throw e).

Definition processor (ev : ParsedSSEEvent) (s : Session)
    (o : Output ParsedSSEEvent)
    : Session * Output ParsedSSEEvent * Completion (option ParsedSSEEvent) :=
  match detectToolCallStart ev (tool s) with
  | (true, state) => (withTool s state, o, Return None)
  | (false, _) =>
      match collectToolArguments ev (tool s) with
      | Throw e => recover e s o
      | Return (true, state) => (withTool s state, o, Return None)
      | Return (false, _) =>
          match executeAgentTool ev s o with
          | (s', o', Throw e) => recover e s' o'
          | (s', o', Return true) => (s', o', Return None)
          | (s', o', Return false) =>
              if eventIs "message_delta" ev
                 && negb (Nat.eqb (length (toolMessages (tool s'))) 0)
              then let '(s'', o'') := fetchToolResponse s' o' in
                   (s'', o'', Return None)
              else (s', o', Return (Some ev))
          end
      end
  end.

(** [rewriteStream(eventStream, processor)] over the events of the
    model's response. *)
Definition processEvents (events : list ParsedSSEEvent)
    (ending : option NodeError) (messages : list M) :=
  RewriteStream.rewriteStream ParsedSSEEvent ParsedSSEEvent Session consumer
    processor events ending (newSession messages).

End Agent.

Arguments tu_id {Args} _.
Arguments tu_name {Args} _.
Arguments tu_input {Args} _.
Arguments Original {M Args} _.
Arguments AssistantMessage {M Args} _.
Arguments UserMessage {M Args} _.
Arguments Kept {M} _.
Arguments AssistantAlias {M}.
Arguments UserAlias {M}.
Arguments handler {M Args} _.
Arguments agent_name {M Args} _.
Arguments tools {M Args} _.
Arguments currentAgent {M Args} _.
Arguments currentToolIndex {M Args} _.
Arguments currentToolName {M Args} _.
Arguments currentToolArgs {M Args} _.
Arguments currentToolId {M Args} _.
Arguments toolMessages {M Args} _.
Arguments assistantMessages {M Args} _.
Arguments tool {M Args} _.
Arguments history {M Args} _.
Arguments requests {M Args} _.
Arguments aborted {M Args} _.
Arguments console {M Args} _.
Arguments resetToolState {M Args} _.
Arguments withTool {M Args} _ _.
Arguments logError {M Args} _ _.
Arguments abort {M Args} _.
Arguments resolve {M Args} _ _.
Arguments bodyMessages {M Args} _.
Arguments toolInProgress {M Args} _.
Arguments indexMatches {M Args} _ _.
Arguments collectToolArguments {M Args} _ _.
Arguments pushAssistant {M Args} _ _.
Arguments pushTool {M Args} _ _.
Arguments pushHistory {M Args} _ _.
Arguments post {M Args} _ _.

End Interceptor.

(** ** API-key middleware ([src/middleware/auth.ts]) *)

Module Auth.

Record AuthConfig := { APIKEY : option string; PORT : option Z }.

(** A header as Node hands it over: one string, or an array of them. *)
Inductive HeaderValue :=
| Single (s : string)
| Multiple (l : list string).

Record Headers := {
  origin : option string;
  authorization : option string;
  x_api_key : option HeaderValue
}.

Record AuthRequest := { url : string; headers : Headers }.

(** What the hook does with the request: it calls [done()], having set
    the [Access-Control-Allow-Origin] header or not, or it sends a reply
    of its own. *)
Inductive Reply :=
| Next (allowOrigin : option string)
| Sent (status : Z) (body : string).

Section WithPlatform.

(** The decimal form of a number in a template literal. *)
Variable toString : Z -> string.

(** [l.includes(x)] on an array of strings. *)
Definition arrayIncludes (l : list string) (x : string) : bool :=
  existsb (String.eqb x) l.

Definition isPublic (url : string) : bool :=
  arrayIncludes ["/"; "/health"] url || JS.startsWith "/ui" url.

(** [config.PORT || 3456] *)
Definition portOf (config : AuthConfig) : Z :=
  match PORT config with
  | Some p => if p =? 0 then 3456 else p
  | None => 3456
  end.

Definition allowedOrigins (config : AuthConfig) : list string :=
  [ "http://127.0.0.1:" ++ toString (portOf config);
    "http://localhost:" ++ toString (portOf config) ].

(** [req.headers.authorization || req.headers["x-api-key"]] *)
Definition authHeaderValue (h : Headers) : option HeaderValue :=
  match authorization h with
  | Some a => if JS.truthy a then Some (Single a) else x_api_key h
  | None => x_api_key h
  end.

(** [Array.isArray(v) ? v[0] : v || ""]; [None] is [undefined]. *)
Definition authKeyOf (h : Headers) : option string :=
  match authHeaderValue h with
  | Some (Multiple l) => head l
  | Some (Single v) => Some (if JS.truthy v then v else "")
  | None => Some ""
  end.

(** The token compared with the key; [None] is [undefined], when the
    header has no second part. *)
Definition tokenOf (authKey : string) : option string :=
  if JS.startsWith "Bearer" authKey then JS.split " " authKey !! 1%nat
  else Some authKey.

(** The branch taken when no key is configured: requests from a browser
    are let in from the two loopback origins only. *)
Definition withoutKey (config : AuthConfig) (req : AuthRequest) : Reply :=
  match origin (headers req) with
  | Some o =>
      if JS.truthy o then
        if arrayIncludes (allowedOrigins config) o then Next (Some o)
        else Sent 403 "CORS not allowed for this origin"
      else Next None
  | None => Next None
  end.

Definition apiKeyAuth (config : AuthConfig) (req : AuthRequest) : Reply :=
  if isPublic (url req) then Next None
  else
    match APIKEY config with
    | Some apiKey =>
        if JS.truthy apiKey then
          match authKeyOf (headers req) with
          | Some authKey =>
              if negb (JS.truthy authKey) then Sent 401 "APIKEY is missing"
              else if bool_decide (tokenOf authKey = Some apiKey) then Next None
              else Sent 401 "Invalid API key"
          | None => Sent 401 "APIKEY is missing"
          end
        else withoutKey config req
    | None => withoutKey config req
    end.

End WithPlatform.

End Auth.

(** ** Service process check ([src/utils/processCheck.ts]) *)

Module ProcessCheck.

Import SSEParser.

(** Numbers are integers here.  A run of digits too long for a double is
    read exactly, where the code reads it to the nearest double; the
    comparisons below are with small constants and come out the same. *)

Definition MAX_PID_VALUE : Z := 4194304.

(** [/^\d+$/.test(s)] *)
Definition allDigits (s : string) : bool :=
  match s with
  | EmptyString => false
  | _ => forallb (fun c => bool_decide (is_Some (digit c))) (list_ascii_of_string s)
  end.

(** The PID file: its content when it exists, whether it can be read, and
    whether it can be unlinked. *)
Record Disk := {
  pidFile : option string;
  readable : bool;
  removable : bool
}.

(** What the host answers: the platform, whether [process.kill(pid, 0)]
    returns without throwing, the output of a command run by [execSync]
    ([None] when it throws), and the decimal form of a number. *)
Record Host := {
  win32 : bool;
  kill : Z -> bool;
  execSync : string -> option string;
  toString : Z -> string
}.

(** The one probe a check may make. *)
Inductive Probe :=
| Signalled (pid : Z)
| Ran (command : string).

Definition cleanupPidFile (d : Disk) : Disk :=
  match pidFile d with
  | Some _ =>
      if removable d
      then {| pidFile := None; readable := readable d; removable := removable d |}
      else d
  | None => d
  end.

Definition quote : string := String (ascii_of_nat 34) "".

Definition tasklistCommand (h : Host) (pid : Z) : string :=
  "tasklist /FI " ++ quote ++ "PID eq " ++ toString h pid ++ quote.

(** The result, the disk afterwards, and the probe made, if any. *)
Definition isServiceRunning (h : Host) (d : Disk) : bool * Disk * option Probe :=
  match pidFile d with
  | None => (false, d, None)
  | Some content =>
      if negb (readable d) then (false, d, None)
      else
        let pidStr := trim content in
        match parseInt10 pidStr with
        | None => (false, cleanupPidFile d, None)
        | Some pid =>
            if (pid <=? 0) || (MAX_PID_VALUE <? pid) || negb (allDigits pidStr)
            then (false, cleanupPidFile d, None)
            else if win32 h then
              let command := tasklistCommand h pid in
              match execSync h command with
              | Some output =>
                  if JS.includes (toString h pid) output
                  then (true, d, Some (Ran command))
                  else (false, cleanupPidFile d, Some (Ran command))
              | None => (false, cleanupPidFile d, Some (Ran command))
              end
            else if kill h pid then (true, d, Some (Signalled pid))
            else (false, cleanupPidFile d, Some (Signalled pid))
        end
  end.

(** *** [parseInt(s)] without a radix: hexadecimal after [0x], decimal
    otherwise *)

Definition hexDigit (c : ascii) : option Z :=
  let n := code c in
  if ((48 <=? n) && (n <=? 57))%N then Some (Z.of_N n - 48)
  else if ((65 <=? n) && (n <=? 70))%N then Some (Z.of_N n - 55)
  else if ((97 <=? n) && (n <=? 102))%N then Some (Z.of_N n - 87)
  else None.

Fixpoint hexDigits (s : string) (acc : option Z) : option Z :=
  match s with
  | EmptyString => acc
  | String c s' =>
      match hexDigit c with
      | Some d => hexDigits s' (Some (16 * default 0 acc + d))
      | None => acc
      end
  end.

Definition unsignedInt (s : string) : option Z :=
  match s with
  | String z (String x s') =>
      if Ascii.eqb z "0" && (Ascii.eqb x "x" || Ascii.eqb x "X")
      then hexDigits s' None
      else digits s None
  | _ => digits s None
  end.

Definition parseInt (s : string) : option Z :=
  match trimStart s with
  | String "-" s' => Z.opp <$> unsignedInt s'
  | String "+" s' => unsignedInt s'
  | s' => unsignedInt s'
  end.

(** [None] is [null]. *)
Definition getServicePid (d : Disk) : option Z :=
  match pidFile d with
  | None => None
  | Some content => if readable d then parseInt content else None
  end.

End ProcessCheck.

(** * Properties *)

(** ** Router: token accounting and model selection *)

Module RouterProps.

Import Router.

(** Concrete platform for evaluating the router on explicit inputs: one
    token per byte, a constant [JSON.stringify], ASCII lower-casing, and
    a home directory holding one project ["proj"] whose [config.json]
    carries a [Router] section. *)
Module Sample.

Definition encode (s : string) : list N :=
  map N_of_ascii (list_ascii_of_string s).
Definition JSON_stringify (_ : unit) : string := "{}".
Definition HOME_DIR : string := "/home/u/.claude-code-router".
Definition join (l : list string) : string := String.concat "/" l.

Definition projectRouter : RouterConfig :=
  {| default := "proj,default"; background := None; think := None;
     longContext := None; longContextThreshold := None; webSearch := None |}.

Definition searchProjectBySession (sid : string) : option string :=
  if String.eqb sid "s1" then Some "proj" else None.

Definition readConfigFile (path : string) : option ConfigFile :=
  if String.eqb path "/home/u/.claude-code-router/proj/config.json"
  then Some {| file_Router := Some projectRouter |}
  else None.

Definition getUseModel :=
  Router.getUseModel unit JS.ascii_toLowerCase HOME_DIR join
    searchProjectBySession readConfigFile.

Definition plainBody (m : string) : RequestBody unit :=
  {| model := m; messages := []; system := SysUndefined;
     tools := None; thinking := None |}.

Definition providers : list Provider :=
  [ {| name := "openrouter"; models := ["claude-sonnet-4"; "gemini-pro"] |} ].

Definition globalRouter (bg : option string) : RouterConfig :=
  {| default := "openrouter,claude-sonnet-4"; background := bg; think := None;
     longContext := None; longContextThreshold := None; webSearch := None |}.

Definition config (bg : option string) : AppConfig :=
  {| Providers := providers; GlobalRouter := globalRouter bg |}.

End Sample.

Section Accounting.

Variable JSONValue : Type.
Variable encode : string -> list N.
Variable JSON_stringify : JSONValue -> string.

Local Abbreviation tokens := (Router.tokens encode).
Local Abbreviation count_part := (Router.count_part JSONValue encode JSON_stringify).
Local Abbreviation count_message := (Router.count_message JSONValue encode JSON_stringify).
Local Abbreviation count_system_item := (Router.count_system_item encode).
Local Abbreviation count_tool := (Router.count_tool JSONValue encode JSON_stringify).
Local Abbreviation calculateTokenCount :=
  (Router.calculateTokenCount JSONValue encode JSON_stringify).

(** A loop body that only ever adds to the counter can be run from 0
    and its total added afterwards. *)
Lemma fold_left_shift {A} (f : Z -> A -> Z) (l : list A) :
  (forall a x, f a x = a + f 0 x) ->
  forall a, fold_left f l a = a + fold_left f l 0.
Proof.
  intros Hf. induction l as [|x l IH]; intros a; simpl.
  - lia.
  - rewrite (IH (f a x)), (IH (f 0 x)), (Hf a x). lia.
Qed.

Lemma count_part_shift a p : count_part a p = a + count_part 0 p.
Proof. destruct p as [| |[|]|]; simpl; lia. Qed.

Lemma count_message_shift a m : count_message a m = a + count_message 0 m.
Proof.
  unfold Router.count_message. destruct (content m); try lia.
  apply fold_left_shift, count_part_shift.
Qed.

Lemma count_system_item_shift a i :
  count_system_item a i = a + count_system_item 0 i.
Proof.
  unfold Router.count_system_item.
  destruct (negb _); [lia|]. destruct (sb_text i); try lia.
  apply (fold_left_shift (fun acc textPart => acc + tokens textPart)).
  intros; lia.
Qed.

Lemma count_tool_shift a t : count_tool a t = a + count_tool 0 t.
Proof.
  unfold Router.count_tool.
  destruct (tool_description t) as [d|], (tool_input_schema t);
    try destruct (JS.truthy d); lia.
Qed.

(** The three sections as the counter sees them. *)
Definition messagesTokens (m : option (list (MessageParam JSONValue))) : Z :=
  match m with Some ms => fold_left count_message ms 0 | None => 0 end.

Definition systemTokens (s : SystemPrompt) : Z :=
  match s with
  | SysString s => tokens s
  | SysArray items => fold_left count_system_item items 0
  | SysUndefined => 0
  end.

Definition toolsTokens (t : option (list (Tool JSONValue))) : Z :=
  match t with Some ts => fold_left count_tool ts 0 | None => 0 end.

Lemma calculateTokenCount_sections m s t :
  calculateTokenCount m s t = messagesTokens m + systemTokens s + toolsTokens t.
Proof.
  unfold Router.calculateTokenCount, messagesTokens, systemTokens, toolsTokens.
  destruct t as [ts|], s as [|s|items], m as [ms|];
    try rewrite (fold_left_shift _ ts count_tool_shift);
    try rewrite (fold_left_shift _ items count_system_item_shift);
    lia.
Qed.

(** An absent section: [undefined] or the empty array. *)
Definition noMessages (m : option (list (MessageParam JSONValue))) : Prop :=
  m = None \/ m = Some [].
Definition noSystem (s : SystemPrompt) : Prop :=
  s = SysUndefined \/ s = SysArray [].
Definition noTools (t : option (list (Tool JSONValue))) : Prop :=
  t = None \/ t = Some [].

(** C7. The token count of a request is the sum of the counts obtained
    by presenting its messages, its system prompt and its tools one at
    a time, the other two sections being absent ([undefined] or the
    empty array). *)
Theorem calculateTokenCount_additive m s t m0 s0 t0 :
  noMessages m0 -> noSystem s0 -> noTools t0 ->
  calculateTokenCount m s t =
    calculateTokenCount m s0 t0 + calculateTokenCount m0 s t0
    + calculateTokenCount m0 s0 t.
Proof.
  intros Hm Hs Ht. rewrite !calculateTokenCount_sections.
  assert (messagesTokens m0 = 0) as -> by (destruct Hm as [->| ->]; reflexivity).
  assert (systemTokens s0 = 0) as -> by (destruct Hs as [->| ->]; reflexivity).
  assert (toolsTokens t0 = 0) as -> by (destruct Ht as [->| ->]; reflexivity).
  lia.
Qed.

End Accounting.

(** The law of C7 on the request of the repository's own test:
    one user message, a string system prompt, one described tool. *)
Lemma calculateTokenCount_additive_witness :
  let m := Some [ {| role := "user"; content := ContentString "Hello" |} ] in
  let s := SysString "Be helpful" in
  let t := Some [ {| tool_name := "test"; tool_type := None;
                     tool_description := Some "A test tool";
                     tool_input_schema := Some tt |} ] in
  Router.calculateTokenCount unit Sample.encode Sample.JSON_stringify m s t =
    Router.calculateTokenCount unit Sample.encode Sample.JSON_stringify m SysUndefined (Some [])
    + Router.calculateTokenCount unit Sample.encode Sample.JSON_stringify (Some []) s (Some [])
    + Router.calculateTokenCount unit Sample.encode Sample.JSON_stringify (Some []) SysUndefined t.
Proof.
  intros m s t.
  apply (calculateTokenCount_additive unit Sample.encode Sample.JSON_stringify
           m s t (Some []) SysUndefined (Some [])).
  - right; reflexivity.
  - left; reflexivity.
  - right; reflexivity.
Defined.

Section Selection.

Variable JSONValue : Type.
Variable toLowerCase : string -> string.
Variable HOME_DIR : string.
Variable join : list string -> string.
Variable searchProjectBySession : string -> option string.
Variable readConfigFile : string -> option ConfigFile.

Local Abbreviation getProjectSpecificRouter :=
  (Router.getProjectSpecificRouter JSONValue HOME_DIR join
     searchProjectBySession readConfigFile).
Local Abbreviation getUseModel :=
  (Router.getUseModel JSONValue toLowerCase HOME_DIR join
     searchProjectBySession readConfigFile).
Local Abbreviation explicitModel := (Router.explicitModel toLowerCase).
Local Abbreviation afterLongContext := (Router.afterLongContext JSONValue).

(** The route configuration rules 2 to 7 are meant to read. *)
Definition activeRouter (req : Request JSONValue) (config : AppConfig)
    : RouterConfig :=
  match getProjectSpecificRouter req with
  | Some r => r
  | None => GlobalRouter config
  end.

(** *** Rule 1 *)

(** A request naming a pair is decided by rule 1 alone: whatever the token
    count, the last usage, the route configurations, the system prompt, the
    tools and the thinking flag, the result is [explicitModel] of the
    provider list and the requested string, nothing is logged and the
    system prompt is left as it was. *)
Lemma explicit_rule_decides req tokenCount config lastUsage :
  JS.includes "," (model (body req)) = true ->
  getUseModel req tokenCount config lastUsage =
    {| outcome := Selected (explicitModel config (model (body req)));
       logged := []; system_after := system (body req) |}.
Proof. intros H. unfold Router.getUseModel. rewrite H. reflexivity. Qed.

Lemma find_some {A} (pred : A -> bool) l x :
  JS.find pred l = Some x -> In x l /\ pred x = true.
Proof.
  induction l as [|y l IH]; simpl; [discriminate|].
  destruct (pred y) eqn:E.
  - intros [= ->]. auto.
  - intros H. destruct (IH H). auto.
Qed.

(** What rule 1 returns: the raw string, or the configured spelling of a
    provider and of one of its models whose lower-cased names are EQUAL to
    the two parts as the request wrote them. *)
Lemma explicitModel_cases config requested :
  explicitModel config requested = requested \/
  exists p m,
    In p (Providers config) /\ In m (models p) /\
    toLowerCase (name p) = nth 0 (JS.split "," requested) "" /\
    toLowerCase m = nth 1 (JS.split "," requested) "" /\
    explicitModel config requested = name p ++ "," ++ m.
Proof.
  unfold Router.explicitModel.
  destruct (JS.find _ (Providers config)) as [p|] eqn:Ep; [|left; reflexivity].
  destruct (JS.find _ (models p)) as [m|] eqn:Em; [|left; reflexivity].
  destruct (JS.truthy m); [|left; reflexivity].
  apply find_some in Ep as [Hp Hpn], Em as [Hm Hmn].
  apply String.eqb_eq in Hpn, Hmn.
  right. exists p, m. auto.
Qed.

(** *** Rule 2 *)








(** *** Scoped route configuration *)

(** With an override in force, the global configuration still enters
    rules 2 to 7, through the background tier and through nothing else:
    two global configurations with the same background target lead to the
    same decision. *)
Lemma override_leaves_background_only req tokenCount c1 c2 lastUsage R :
  getProjectSpecificRouter req = Some R ->
  JS.includes "," (model (body req)) = false ->
  background (GlobalRouter c1) = background (GlobalRouter c2) ->
  getUseModel req tokenCount c1 lastUsage = getUseModel req tokenCount c2 lastUsage.
Proof.
  intros HR Hc Hbg. unfold Router.getUseModel. rewrite HR, Hc.
  unfold Router.afterLongContext. rewrite Hbg. reflexivity.
Qed.

End Selection.


Definition plainRequest (m : string) (sid : option string) : Request unit :=
  {| body := Sample.plainBody m; sessionId := sid |}.



(** C2. A request spelling the pair in a case other than lower case is
    not resolved although provider and model match case-insensitively:
    only the configured names are lower-cased before the comparison, the
    two parts of the request are compared as written.  The raw string
    comes back instead of the canonical ["openrouter,claude-sonnet-4"]. *)
Theorem explicit_pair_mixed_case_unresolved :
  let req := plainRequest "OpenRouter,Claude-Sonnet-4" None in
  JS.ascii_toLowerCase "OpenRouter" = JS.ascii_toLowerCase "openrouter" /\
  JS.ascii_toLowerCase "Claude-Sonnet-4" = JS.ascii_toLowerCase "claude-sonnet-4" /\
  outcome (Sample.getUseModel req 0 (Sample.config None) None)
    = Selected "OpenRouter,Claude-Sonnet-4" /\
  outcome (Sample.getUseModel (plainRequest "openrouter,claude-sonnet-4" None) 0
             (Sample.config None) None)
    = Selected "openrouter,claude-sonnet-4".
Proof. vm_compute. repeat split. Qed.

(** C3. Session ["s1"] belongs to project ["proj"], whose [config.json]
    has a [Router] section without a background target.  A haiku request
    of that session is still routed by the GLOBAL background target:
    changing nothing but the global route configuration changes the
    decision. *)
Theorem override_does_not_cover_background :
  let req := plainRequest "claude-3-5-haiku" (Some "s1") in
  Router.getProjectSpecificRouter unit Sample.HOME_DIR Sample.join
    Sample.searchProjectBySession Sample.readConfigFile req
    = Some Sample.projectRouter /\
  outcome (Sample.getUseModel req 0 (Sample.config (Some "openrouter,bg")) None)
    = Selected "openrouter,bg" /\
  outcome (Sample.getUseModel req 0 (Sample.config None) None)
    = Selected "proj,default".
Proof. vm_compute. repeat split. Qed.

End RouterProps.

(** ** Event codec: the parser *)

Module SSEProps.

Import Types SSEParser.

(** A [JSON.parse] that rejects every text: it agrees with the real one
    on every text that is not JSON. *)
Definition rejectAll (_ : string) : option SSEData := None.

Definition bytesOf (s : string) : list Byte.byte :=
  map byte_of_ascii (list_ascii_of_string s).

Definition NL : string := String "010" "".

(** *** Splitting into lines *)

Lemma split_nonempty sep s : JS.split sep s <> [].
Proof.
  destruct s as [|c s]; simpl; [discriminate|].
  destruct (Ascii.eqb c sep); [discriminate|].
  destruct (JS.split sep s); discriminate.
Qed.

Lemma append_cons c (s t : string) : String c s ++ t = String c (s ++ t).
Proof. reflexivity. Qed.

Lemma append_nil_r (s : string) : s ++ "" = s.
Proof.
  induction s as [|c s IH]; [reflexivity|]. by rewrite append_cons, IH.
Qed.

Lemma append_assoc (a b c : string) : (a ++ b) ++ c = a ++ (b ++ c).
Proof.
  induction a as [|x a IH]; [reflexivity|]. by rewrite !append_cons, IH.
Qed.

(** Splitting a concatenation: the complete lines of the first part, then
    the lines of its unfinished last piece continued by the second part. *)
Lemma split_app sep a b :
  JS.split sep (a ++ b) =
    (removelast (JS.split sep a)
     ++ JS.split sep (List.last (JS.split sep a) "" ++ b))%list.
Proof.
  induction a as [|c a IH]; [reflexivity|].
  change (String c a ++ b) with (String c (a ++ b)).
  cbn [JS.split]. rewrite IH. clear IH.
  pose proof (split_nonempty sep a) as Hne.
  destruct (Ascii.eqb c sep) eqn:E.
  - destruct (JS.split sep a) as [|hd tl]; [done|]. reflexivity.
  - destruct (JS.split sep a) as [|hd tl]; [done|].
    destruct tl as [|hd' tl]; [|reflexivity].
    cbn [removelast List.last app]. rewrite append_cons.
    cbn [JS.split]. rewrite E. reflexivity.
Qed.

(** A text without the separator is its own single line. *)
Definition oneLine (sep : ascii) (s : string) : Prop := JS.split sep s = [s].

Lemma last_piece_oneLine sep s : oneLine sep (List.last (JS.split sep s) "").
Proof.
  unfold oneLine. induction s as [|c s IH]; [reflexivity|].
  cbn [JS.split]. pose proof (split_nonempty sep s) as Hne.
  destruct (Ascii.eqb c sep) eqn:E.
  - destruct (JS.split sep s) as [|hd tl]; [done|]. exact IH.
  - destruct (JS.split sep s) as [|hd tl]; [done|].
    destruct tl as [|hd' tl]; [|exact IH].
    cbn [List.last] in *. cbn [JS.split]. rewrite E, IH. reflexivity.
Qed.

Lemma removelast_app_nonempty {A} (l1 l2 : list A) :
  l2 <> [] -> removelast (l1 ++ l2) = (l1 ++ removelast l2)%list.
Proof. intros H. by apply removelast_app. Qed.

Lemma last_app_nonempty {A} (l1 l2 : list A) d :
  l2 <> [] -> List.last (l1 ++ l2) d = List.last l2 d.
Proof.
  intros H. induction l1 as [|x l1 IH]; [reflexivity|].
  simpl. destruct (l1 ++ l2)%list eqn:E.
  - apply app_eq_nil in E as [_ ->]. done.
  - exact IH.
Qed.

Section Parsing.

Variable JSON_parse : string -> option SSEData.

Local Abbreviation processLine := (SSEParser.processLine JSON_parse).
Local Abbreviation processLines := (SSEParser.processLines JSON_parse).
Local Abbreviation feed := (SSEParser.feed JSON_parse).
Local Abbreviation transform := (SSEParser.transform JSON_parse).
Local Abbreviation transformAll := (SSEParser.transformAll JSON_parse).
Local Abbreviation flush := (SSEParser.flush JSON_parse).
Local Abbreviation parseStream := (SSEParser.parseStream JSON_parse).

Lemma processLines_app l1 l2 cur :
  processLines (l1 ++ l2) cur =
    let '(c1, o1) := processLines l1 cur in
    let '(c2, o2) := processLines l2 c1 in
    (c2, (o1 ++ o2)%list).
Proof.
  revert cur. induction l1 as [|line l1 IH]; intros cur.
  - simpl. destruct (processLines l2 cur). reflexivity.
  - cbn [app SSEParser.processLines].
    destruct (processLine line None cur) as [[c e] r].
    rewrite IH. destruct (processLines l1 c) as [c1 o1].
    destruct (processLines l2 c1) as [c2 o2]. destruct r; reflexivity.
Qed.

(** Feeding a text in two pieces is feeding it at once. *)
Lemma feed_app t1 t2 p :
  feed (t1 ++ t2) p =
    let '(p1, o1) := feed t1 p in
    let '(p2, o2) := feed t2 p1 in
    (p2, (o1 ++ o2)%list).
Proof.
  unfold SSEParser.feed.
  rewrite <- append_assoc, split_app.
  set (lines1 := JS.split "010" (buffer p ++ t1)).
  destruct (processLines (removelast lines1) (currentEvent p)) as [c1 o1] eqn:E1.
  cbn [buffer currentEvent].
  set (lines2 := JS.split "010" (List.last lines1 "" ++ t2)).
  assert (lines2 <> []) as Hne by apply split_nonempty.
  rewrite removelast_app_nonempty, last_app_nonempty by exact Hne.
  rewrite processLines_app, E1.
  destruct (processLines (removelast lines2) c1) as [c2 o2]. reflexivity.
Qed.

(** The buffer never holds a newline. *)
Definition clean (p : Parser) : Prop := oneLine "010" (buffer p).

Lemma feed_clean t p : clean (feed t p).1.
Proof.
  unfold SSEParser.feed, clean.
  destruct (processLines _ _). apply last_piece_oneLine.
Qed.

Lemma feed_empty p : clean p -> feed "" p = (p, []).
Proof.
  unfold clean, oneLine, SSEParser.feed. intros H.
  rewrite append_nil_r, H. destruct p; reflexivity.
Qed.

Fixpoint concatText (l : list string) : string :=
  match l with
  | [] => ""
  | t :: l' => t ++ concatText l'
  end.

(** [transformAll], chunk after chunk, is one [feed] of the decoded
    chunks put together. *)
Lemma transformAll_feed chunks p :
  clean p ->
  transformAll chunks p = feed (concatText (map decode chunks)) p.
Proof.
  revert p. induction chunks as [|chunk chunks IH]; intros p Hp.
  - simpl. symmetry. by apply feed_empty.
  - cbn [SSEParser.transformAll map concatText]. unfold SSEParser.transform.
    rewrite feed_app. pose proof (feed_clean (decode chunk) p) as Hc.
    destruct (feed (decode chunk) p) as [p1 o1]. rewrite (IH p1 Hc).
    destruct (feed _ p1). reflexivity.
Qed.

(** Two chunkings that decode to the same text give the same events. *)
Lemma parseStream_same_text cs1 cs2 :
  concatText (map decode cs1) = concatText (map decode cs2) ->
  parseStream cs1 = parseStream cs2.
Proof.
  intros H. unfold SSEParser.parseStream.
  rewrite !transformAll_feed, H by reflexivity. reflexivity.
Qed.

(** *** Chunks of ASCII bytes *)

Definition asciiOnly (l : list ascii) : Prop :=
  Forall (fun a => (code a <=? 127)%N = true) l.

Lemma decode_from_ascii l : asciiOnly l -> decode_from fresh l = l.
Proof.
  induction 1 as [|a l Ha _ IH]; [reflexivity|].
  cbn [decode_from fresh needed]. unfold lead. rewrite Ha.
  f_equal. exact IH.
Qed.

Lemma strip_bom_ascii l : asciiOnly l -> strip_bom l = l.
Proof.
  intros H. destruct l as [|a [|b [|c rest]]]; try reflexivity.
  inversion_clear H as [|? ? Ha _]. unfold strip_bom.
  destruct (code a =? 239)%N eqn:E; [|reflexivity].
  apply N.eqb_eq in E. rewrite E in Ha. discriminate.
Qed.

Lemma string_of_list_ascii_app l1 l2 :
  string_of_list_ascii (l1 ++ l2) =
    string_of_list_ascii l1 ++ string_of_list_ascii l2.
Proof.
  induction l1 as [|a l1 IH]; [reflexivity|].
  cbn [app string_of_list_ascii]. by rewrite append_cons, IH.
Qed.

Definition asciiChunk (chunk : list Byte.byte) : Prop :=
  asciiOnly (map ascii_of_byte chunk).

Lemma decode_ascii chunk :
  asciiChunk chunk ->
  decode chunk = string_of_list_ascii (map ascii_of_byte chunk).
Proof.
  intros H. unfold decode.
  by rewrite (decode_from_ascii _ H), (strip_bom_ascii _ H).
Qed.

Lemma concatText_decode_ascii chunks :
  Forall asciiChunk chunks ->
  concatText (map decode chunks) =
    string_of_list_ascii (map ascii_of_byte (concat chunks)).
Proof.
  induction 1 as [|chunk chunks Hc _ IH]; [reflexivity|].
  cbn [map concatText concat].
  by rewrite map_app, string_of_list_ascii_app, IH, (decode_ascii _ Hc).
Qed.

(** On a stream of ASCII bytes the events do not depend on where the
    chunks are cut. *)
Lemma parseStream_rechunk_ascii cs1 cs2 :
  Forall asciiChunk cs1 -> Forall asciiChunk cs2 ->
  concat cs1 = concat cs2 ->
  parseStream cs1 = parseStream cs2.
Proof.
  intros H1 H2 H. apply parseStream_same_text.
  by rewrite !concatText_decode_ascii, H.
Qed.

(** *** End of input *)

(** With nothing but white space left in the buffer, [flush] emits the
    draft exactly when one of its fields is set. *)
Lemma flush_emits_draft p :
  JS.truthy (trim (buffer p)) = false ->
  flush p = if hasKeys (currentEvent p) then [currentEvent p] else [].
Proof. intros H. unfold SSEParser.flush. rewrite H. reflexivity. Qed.

(** A last line left without its newline is processed by [flush], and
    the draft it completes is emitted. *)
Lemma flush_processes_last_line p cur :
  JS.truthy (trim (buffer p)) = true ->
  processLine (trim (buffer p)) (Some []) (currentEvent p) = (cur, Some [], None) ->
  hasKeys cur = true ->
  flush p = [cur].
Proof.
  intros H Hl Hk. unfold SSEParser.flush. rewrite H, Hl, Hk. reflexivity.
Qed.

(** *** Malformed payloads *)

Lemma oneLine_then_separator sep s t :
  oneLine sep s -> JS.split sep (s ++ String sep t) = s :: JS.split sep t.
Proof.
  unfold oneLine. induction s as [|c s IH]; intros H.
  - change ("" ++ String sep t) with (String sep t). cbn [JS.split].
    by rewrite Ascii.eqb_refl.
  - rewrite append_cons. cbn [JS.split] in *.
    pose proof (split_nonempty sep s) as Hne.
    destruct (Ascii.eqb c sep).
    + destruct (JS.split sep s); [done|discriminate].
    + destruct (JS.split sep s) as [|hd tl] eqn:E; [done|].
      injection H as -> ->. by rewrite IH.
Qed.

Lemma data_line rest :
  "data:" ++ rest = String "d" (String "a" (String "t" (String "a" (String ":" rest)))).
Proof. reflexivity. Qed.

Lemma oneLine_data rest : oneLine "010" rest -> oneLine "010" ("data:" ++ rest).
Proof. unfold oneLine. intros H. rewrite data_line. cbn. by rewrite H. Qed.

Lemma trimStart_d s : trimStart (String "d" s) = String "d" s.
Proof. destruct s as [|b [|c s]]; reflexivity. Qed.

Lemma data_line_not_blank rest : JS.truthy (trim ("data:" ++ rest)) = true.
Proof.
  rewrite data_line. unfold trim. rewrite trimStart_d.
  cbn [trimEnd]. unfold blank. rewrite trimStart_d. reflexivity.
Qed.

Lemma data_line_prefix rest :
  JS.startsWith "event:" ("data:" ++ rest) = false /\
  JS.startsWith "data:" ("data:" ++ rest) = true /\
  JS.slice 5 ("data:" ++ rest) = rest.
Proof. rewrite data_line. repeat split. Qed.

Definition taggedDraft (cur : ParsedSSEEvent) (raw : string) : ParsedSSEEvent :=
  {| event := event cur;
     data := Some (RawError raw "JSON parse failed");
     id := id cur; retry := retry cur |}.

(** C8. A line [data:<rest>] whose payload (the text after the colon,
    trimmed) is neither the terminator nor something [JSON.parse]
    accepts: [processLine] returns normally, with a draft whose payload is
    the raw text tagged as a parse failure and whose other fields are
    untouched; nothing is emitted; and a parser that meets the line in
    its input goes on with the text that follows exactly as it would from
    that draft. *)
Theorem malformed_data_is_tagged rest cur following :
  trim rest <> "[DONE]" ->
  JSON_parse (trim rest) = None ->
  oneLine "010" rest ->
  processLine ("data:" ++ rest) None cur
    = (taggedDraft cur (trim rest), None, None) /\
  feed (("data:" ++ rest) ++ NL ++ following)
       {| buffer := ""; currentEvent := cur |}
    = feed following {| buffer := ""; currentEvent := taggedDraft cur (trim rest) |}.
Proof.
  intros Hdone Hparse Hline.
  assert (processLine ("data:" ++ rest) None cur
          = (taggedDraft cur (trim rest), None, None)) as Hp.
  { destruct (data_line_prefix rest) as (He & Hd & Hs).
    unfold SSEParser.processLine, parseData.
    rewrite data_line_not_blank, He, Hd, Hs.
    apply String.eqb_neq in Hdone. rewrite Hdone, Hparse. reflexivity. }
  split; [exact Hp|].
  rewrite <- append_assoc, feed_app.
  assert (feed (("data:" ++ rest) ++ NL) {| buffer := ""; currentEvent := cur |}
          = ({| buffer := ""; currentEvent := taggedDraft cur (trim rest) |}, []))
    as ->.
  { unfold SSEParser.feed, NL. cbn [buffer currentEvent].
    change ("" ++ ?x) with x.
    rewrite (oneLine_then_separator _ _ _ (oneLine_data _ Hline)).
    cbn [JS.split removelast List.last SSEParser.processLines].
    rewrite Hp. reflexivity. }
  destruct (feed following _). reflexivity.
Qed.

End Parsing.

(** C8 on the line [data: {oops], which no JSON parser accepts. *)
Lemma malformed_data_is_tagged_witness :
  SSEParser.processLine rejectAll "data: {oops" None emptyEvent
    = (taggedDraft emptyEvent "{oops", None, None) /\
  SSEParser.feed rejectAll ("data: {oops" ++ NL ++ NL)
      {| buffer := ""; currentEvent := emptyEvent |}
    = SSEParser.feed rejectAll NL
        {| buffer := ""; currentEvent := taggedDraft emptyEvent "{oops" |}.
Proof.
  apply (malformed_data_is_tagged rejectAll " {oops" emptyEvent NL).
  - vm_compute. discriminate.
  - reflexivity.
  - reflexivity.
Defined.

Definition E_ACUTE : list Byte.byte := [Byte.xc3; Byte.xa9].

(** C5. The line [data: café] and its blank line, once in a single chunk
    and once cut between the two bytes of the last letter: the events
    differ.  Each chunk is decoded on its own, by a decoder created for
    that chunk, so both halves of the letter become U+FFFD. *)
Theorem rechunk_inside_character :
  let whole := (bytesOf "data: caf" ++ E_ACUTE ++ bytesOf (NL ++ NL))%list in
  let head := (bytesOf "data: caf" ++ [Byte.xc3])%list in
  let tail := ([Byte.xa9] ++ bytesOf (NL ++ NL))%list in
  (head ++ tail)%list = whole /\
  SSEParser.parseStream rejectAll [whole]
    = [taggedDraft emptyEvent
         ("caf" ++ string_of_list_ascii (map ascii_of_byte E_ACUTE))] /\
  SSEParser.parseStream rejectAll [head; tail]
    = [taggedDraft emptyEvent
         ("caf" ++ string_of_list_ascii (REPLACEMENT ++ REPLACEMENT))] /\
  SSEParser.parseStream rejectAll [head; tail]
    <> SSEParser.parseStream rejectAll [whole].
Proof. vm_compute. repeat split. discriminate. Qed.

End SSEProps.

(** ** Stream rewriter *)

Module RewriteProps.

Import Streams RewriteStream.

(** *** The controller *)

Lemma enqueue_refused {A} (x : A) c : state c <> Readable -> enqueue x c = None.
Proof. unfold enqueue, canCloseOrEnqueue. destruct (state c); done. Qed.

Lemma enqueue_emitted {A} (x : A) c c' :
  enqueue x c = Some c' -> emitted c' = (emitted c ++ [x])%list.
Proof.
  unfold enqueue. destruct (canCloseOrEnqueue c); [|discriminate].
  by intros [= <-].
Qed.

Lemma consumerStep_emitted {A} a (c : Controller A) :
  emitted (consumerStep a c) = emitted c.
Proof. destruct a, c as [[] ? [] ?]; reflexivity. Qed.

Lemma await_emitted {A} consumer (o : Output A) :
  emitted (ctl (await consumer o)) = emitted (ctl o).
Proof. apply consumerStep_emitted. Qed.

(** A stream that stopped being readable stays so whatever the consumer
    does, and a cancel makes it so. *)
Lemma consumerStep_stays_closed {A} a (c : Controller A) :
  state c <> Readable -> state (consumerStep a c) <> Readable.
Proof. destruct a, c as [[] ? [] ?]; simpl; congruence. Qed.

Lemma cancel_closes {A} (c : Controller A) :
  state (consumerStep Cancel c) <> Readable.
Proof. destruct c as [[] ? ? ?]; simpl; congruence. Qed.

Lemma error_emitted {A} (c : Controller A) : emitted (error c) = emitted c.
Proof. destruct c as [[] ? ? ?]; reflexivity. Qed.

Section Loop.

Variables (A B St : Type).
Variable consumer : nat -> ConsumerAction.
Variable processor : A -> St -> Output B -> St * Output B * Completion (option B).

Local Abbreviation loop := (RewriteStream.loop A B St consumer processor).

(** The reader is always released, and the source is read once per item
    at most, plus once for its end. *)
Lemma loop_released src ending s o n : released (loop src ending s o n) = true.
Proof.
  revert s o n. induction src as [|value rest IH]; intros s o n; simpl.
  - destruct ending; [reflexivity|]. destruct (close _); reflexivity.
  - destruct (processor _ _ _) as [[s' o'] [[y|]|e]]; try reflexivity; [|apply IH].
    destruct (enqueue _ _); [apply IH|reflexivity].
Qed.

Lemma loop_reads_bound src ending s o n :
  (n < reads (loop src ending s o n) <= n + length src + 1)%nat.
Proof.
  revert s o n. induction src as [|value rest IH]; intros s o n; simpl.
  - destruct ending; [simpl; lia|]. destruct (close _); simpl; lia.
  - destruct (processor _ _ _) as [[s' o'] [[y|]|e]]; simpl; try lia.
    + destruct (enqueue _ _); [|simpl; lia].
      specialize (IH s' (withCtl (await consumer o') c) (S n)). lia.
    + specialize (IH s' (await consumer o') (S n)). lia.
Qed.

(** While the step function returns nothing the loop goes on to the next
    read, whatever the state of the output. *)
Lemma loop_reads_on value rest ending s o n s' o' :
  processor value s (await consumer o) = (s', o', Return None) ->
  loop (value :: rest) ending s o n
    = loop rest ending s' (await consumer o') (S n).
Proof. intros H. simpl. rewrite H. reflexivity. Qed.

Lemma error_not_readable {X} (c : Controller X) :
  state c <> Readable -> error c = c.
Proof. unfold error. by destruct (state c). Qed.

(** C9 (amended). The loop stops at the first value it fails to enqueue,
    as happens once the consumer has cancelled the output: the item being
    processed is the last one read, the step function's state is kept,
    and the reader is released.  The error of the refused enqueue is
    handed to [controller.error], which does nothing to an output that
    is no longer readable: the output is left as it was, closed or
    errored, with nothing added. *)
Theorem refused_enqueue_stops_reading value rest ending s o n s' o' y :
  processor value s (await consumer o) = (s', o', Return (Some y)) ->
  state (ctl (await consumer o')) <> Readable ->
  let r := loop (value :: rest) ending s o n in
  reads r = S n /\ released r = true /\ final r = s' /\
  emitted (ctl (output r)) = emitted (ctl o') /\
  ctl (output r) = ctl (await consumer o') /\
  state (ctl (output r)) <> Readable.
Proof.
  intros Hp Hclosed. cbn [RewriteStream.loop]. rewrite Hp.
  rewrite (enqueue_refused y _ Hclosed). unfold fail.
  cbn [reads released final output ctl withCtl].
  rewrite (error_not_readable _ Hclosed), await_emitted. auto 6.
Qed.

End Loop.

(** A consumer that cancels at once, one that never reads, and two step
    functions over numbers: one drops every item, one passes it on. *)
Definition cancelling (_ : nat) : ConsumerAction := Cancel.
Definition stalled (_ : nat) : ConsumerAction := Wait.

Definition dropAll (x : nat) (s : unit) (o : Output nat)
    : unit * Output nat * Completion (option nat) :=
  (s, o, Return None).

Definition passOn (x : nat) (s : unit) (o : Output nat)
    : unit * Output nat * Completion (option nat) :=
  (s, o, Return (Some x)).

Lemma refused_enqueue_stops_reading_witness :
  let r := rewriteStream nat nat unit cancelling passOn [1; 2; 3]%nat None tt in
  reads r = 1%nat /\ released r = true /\ final r = tt /\
  emitted (ctl (output r)) = [] /\
  ctl (output r) = ctl (await cancelling (await cancelling newOutput)) /\
  state (ctl (output r)) <> Readable.
Proof.
  apply (refused_enqueue_stops_reading nat nat unit cancelling passOn
           1%nat [2; 3]%nat None tt newOutput 0%nat tt
           (await cancelling newOutput) 1%nat).
  - reflexivity.
  - simpl. discriminate.
Defined.

(** C9 as written.  The consumer cancels the output before the first read
    completes, so from then on the output reports a desired size of 0 and
    refuses chunks; the step function drops every item.  All three items
    and the end of the source are read nevertheless.  Likewise with a
    consumer that merely stops reading: after the first chunk the desired
    size is 0, and the remaining items are read and enqueued all the
    same. *)
Lemma reads_continue_after_cancel :
  let o1 := await cancelling (newOutput : Output nat) in
  desiredSize (ctl o1) = Some 0 /\
  enqueue 0%nat (ctl o1) = None /\
  reads (rewriteStream nat nat unit cancelling dropAll [1; 2; 3]%nat None tt)
    = 4%nat /\
  let r := rewriteStream nat nat unit stalled passOn [1; 2; 3]%nat None tt in
  reads r = 4%nat /\ emitted (ctl (output r)) = [1; 2; 3]%nat.
Proof. vm_compute. repeat split. Qed.

End RewriteProps.

(** ** Tool-call interceptor *)

Module InterceptorProps.

Import Types Streams Interceptor RewriteProps.

Section Props.

Variables (M Args : Type).
Variable getAgent : string -> option (IAgent M Args).
Variable JSON5_parse : string -> option Args.
Variable JSON_parse : string -> option SSEData.
Variable fetch : nat -> list (BodyMessage M Args) -> FetchResult.
Variable consumer : nat -> ConsumerAction.
Variable agents : list string.

Local Abbreviation detectToolCallStart :=
  (Interceptor.detectToolCallStart M Args getAgent agents).
Local Abbreviation runTool := (Interceptor.runTool M Args JSON5_parse consumer).
Local Abbreviation executeAgentTool :=
  (Interceptor.executeAgentTool M Args JSON5_parse consumer).
Local Abbreviation pipeResponseToController :=
  (Interceptor.pipeResponseToController M Args consumer).
Local Abbreviation fetchToolResponse :=
  (Interceptor.fetchToolResponse M Args JSON_parse fetch consumer).
Local Abbreviation processor :=
  (Interceptor.processor M Args getAgent JSON5_parse JSON_parse fetch
     consumer agents).
Local Abbreviation bodyEvents := (Interceptor.bodyEvents JSON_parse).

Implicit Types (s : Session M Args) (o : Output ParsedSSEEvent)
  (state : AgentToolState M Args) (ev : ParsedSSEEvent).

(** The events of a continuation that are not its turn envelope. *)
Definition inner (events : list ParsedSSEEvent) : list ParsedSSEEvent :=
  List.filter (fun value => negb (envelope value)) events.

Lemma inner_nil : inner [] = [].
Proof. reflexivity. Qed.

(** The consumer reads every chunk as soon as it can, and the output is
    open with at most one chunk waiting. *)
Definition keepsUp o : Prop :=
  (forall t, consumer t = Take) /\
  canCloseOrEnqueue (ctl o) = true /\ (queued (ctl o) <= 1)%nat.

Lemma keepsUp_await o :
  keepsUp o ->
  keepsUp (await consumer o) /\ queued (ctl (await consumer o)) = 0%nat.
Proof.
  intros (Ht & Hc & Hq). unfold keepsUp, await. cbn [ctl clock].
  rewrite Ht. destruct (ctl o) as [[] cr q em]; try discriminate.
  unfold canCloseOrEnqueue in Hc. cbn in Hc, Hq |- *.
  destruct cr; [discriminate|].
  destruct q as [|[|q]]; cbn; [auto..|lia].
Qed.

Lemma keepsUp_enqueue o value :
  keepsUp o -> queued (ctl o) = 0%nat ->
  truthy (desiredSize (ctl o)) = true /\
  exists c, enqueue value (ctl o) = Some c /\ keepsUp (withCtl o c).
Proof.
  intros (Ht & Hc & _) Hq. unfold keepsUp, desiredSize, enqueue. rewrite Hc.
  destruct o as [[[] cr q em] k]; try discriminate.
  cbn in Hc, Hq |- *. subst q. destruct cr; [discriminate|].
  split; [reflexivity|]. eexists. split; [reflexivity|]. cbn. auto.
Qed.

(** *** pipeResponseToController *)

(** Whatever the consumer does, the events forwarded are the inner events
    of an initial part of the continuation, in order; the tool state, the
    message history and the list of requests are not touched. *)
Lemma pipe_forwards_prefix events ending s o :
  exists s' o' thrown taken rest,
    pipeResponseToController events ending s o = (s', o', thrown) /\
    events = (taken ++ rest)%list /\
    emitted (ctl o') = (emitted (ctl o) ++ inner taken)%list /\
    tool s' = tool s /\ history s' = history s /\ requests s' = requests s.
Proof.
  revert s o. induction events as [|value events IH]; intros s o.
  - cbn [Interceptor.pipeResponseToController].
    destruct ending as [e|]; [destruct (cancellation e)|];
      eexists _, _, _, [], [];
      repeat split; rewrite ?await_emitted, ?inner_nil, ?app_nil_r; reflexivity.
  - cbn [Interceptor.pipeResponseToController].
    destruct (envelope value) eqn:Eenv.
    + destruct (IH s (await consumer o))
        as (s' & o' & th & taken & rest & Hrun & -> & Hem & Ht & Hh & Hr).
      exists s', o', th, (value :: taken), rest.
      rewrite Hrun, Hem, await_emitted. unfold inner. cbn [List.filter].
      rewrite Eenv. repeat split; assumption.
    + destruct (negb (truthy _)).
      { eexists _, _, _, [], (value :: events).
        repeat split; rewrite ?await_emitted, ?inner_nil, ?app_nil_r; reflexivity. }
      destruct (enqueue value _) as [c|] eqn:Eq.
      * destruct (IH s (withCtl (await consumer o) c))
          as (s' & o' & th & taken & rest & Hrun & -> & Hem & Ht & Hh & Hr).
        exists s', o', th, (value :: taken), rest.
        rewrite Hrun, Hem. cbn [withCtl ctl].
        rewrite (enqueue_emitted _ _ _ Eq), await_emitted.
        unfold inner. cbn [List.filter]. rewrite Eenv. cbn [negb].
        rewrite <- app_assoc. repeat split; assumption.
      * eexists _, _, _, [], (value :: events).
        repeat split; rewrite ?await_emitted, ?inner_nil, ?app_nil_r; reflexivity.
Qed.

(** With a consumer that keeps up, every inner event is forwarded. *)
Lemma pipe_forwards_all events ending s o :
  keepsUp o ->
  exists s' o' thrown,
    pipeResponseToController events ending s o = (s', o', thrown) /\
    emitted (ctl o') = (emitted (ctl o) ++ inner events)%list.
Proof.
  revert s o. induction events as [|value events IH]; intros s o Hk.
  - cbn [Interceptor.pipeResponseToController].
    destruct ending as [e|]; [destruct (cancellation e)|];
      eexists _, _, _;
      (split; [reflexivity|]); by rewrite await_emitted, inner_nil, app_nil_r.
  - cbn [Interceptor.pipeResponseToController].
    destruct (keepsUp_await o Hk) as [Hk' Hq].
    destruct (envelope value) eqn:Eenv.
    + destruct (IH s _ Hk') as (s' & o' & th & Hrun & Hem).
      exists s', o', th. rewrite Hrun, Hem, await_emitted.
      unfold inner. cbn [List.filter]. rewrite Eenv. split; reflexivity.
    + destruct (keepsUp_enqueue _ value Hk' Hq) as (Hds & c & Eq & Hk'').
      rewrite Hds, Eq. cbn [negb].
      destruct (IH s _ Hk'') as (s' & o' & th & Hrun & Hem).
      exists s', o', th. rewrite Hrun, Hem. cbn [withCtl ctl].
      rewrite (enqueue_emitted _ _ _ Eq), await_emitted.
      unfold inner. cbn [List.filter]. rewrite Eenv. cbn [negb].
      rewrite <- app_assoc. split; reflexivity.
Qed.

(** *** Which stage takes an event *)

(** The event is not addressed to the tool call in progress: none is in
    progress, or the payload's index is not the bound one. *)
Definition notForTool ev state : Prop :=
  toolInProgress state = false \/
  exists d, data ev = Some d /\ dataIndex d <> currentToolIndex state.

(** The block-stop event of the tool call in progress. *)
Definition matchingStop ev state : Prop :=
  toolInProgress state = true /\
  event ev <> Some "content_block_start" /\
  exists d, data ev = Some d /\
    dataIndex d = currentToolIndex state /\
    dataType d = Some "content_block_stop" /\
    forall dl, dataDelta d = Some dl -> delta_type dl <> "input_json_delta".

Lemma detect_only_block_start ev state :
  event ev <> Some "content_block_start" ->
  detectToolCallStart ev state = (false, state).
Proof.
  intros H. unfold Interceptor.detectToolCallStart, eventIs.
  rewrite (bool_decide_eq_false_2 _ H).
  destruct (data ev ≫= dataContentBlock) as [block|]; [|reflexivity].
  destruct (cb_name block); reflexivity.
Qed.

Lemma collect_skips ev state :
  notForTool ev state -> collectToolArguments ev state = Return (false, state).
Proof.
  intros [H|(d & Hd & Hne)]; unfold collectToolArguments.
  - rewrite H. reflexivity.
  - destruct (toolInProgress state); [|reflexivity].
    unfold indexMatches. rewrite Hd, (bool_decide_eq_false_2 _ Hne). reflexivity.
Qed.

Lemma execute_skips ev s o :
  notForTool ev (tool s) -> executeAgentTool ev s o = (s, o, Return false).
Proof.
  intros [H|(d & Hd & Hne)]; unfold Interceptor.executeAgentTool.
  - rewrite H. reflexivity.
  - destruct (toolInProgress (tool s)); [|reflexivity].
    unfold indexMatches. rewrite Hd, (bool_decide_eq_false_2 _ Hne). reflexivity.
Qed.

Lemma collect_leaves_stop ev state :
  matchingStop ev state -> collectToolArguments ev state = Return (false, state).
Proof.
  intros (Hp & _ & d & Hd & Hi & _ & Hdl). unfold collectToolArguments, indexMatches.
  rewrite Hp, Hd, (bool_decide_eq_true_2 _ Hi). cbn [mbind option_bind].
  destruct (dataDelta d) as [dl|] eqn:E; [|reflexivity].
  specialize (Hdl dl eq_refl). apply String.eqb_neq in Hdl. rewrite Hdl. reflexivity.
Qed.

Lemma execute_takes_stop ev s o :
  matchingStop ev (tool s) ->
  executeAgentTool ev s o =
    let '(s', o') := runTool s o in
    (withTool s' (resetToolState (tool s')), o', Return true).
Proof.
  intros (Hp & _ & d & Hd & Hi & Ht & _).
  unfold Interceptor.executeAgentTool, indexMatches.
  rewrite Hp, Hd, (bool_decide_eq_true_2 _ Hi). cbn [mbind option_bind].
  rewrite (bool_decide_eq_true_2 _ Ht). reflexivity.
Qed.

(** *** fetchToolResponse *)

(** The body a continuation posts: the history as it stands, one
    assistant message with the recorded tool uses, one user message with
    the recorded tool results. *)
Definition continuationBody s : list (BodyMessage M Args) :=
  (bodyMessages s
   ++ [AssistantMessage (assistantMessages (tool s));
       UserMessage (toolMessages (tool s))])%list.

(** The events read from the answer to a request. *)
Definition continuationEvents (r : FetchResult) : list ParsedSSEEvent :=
  match r with
  | Response true _ chunks ending => bodyEvents chunks ending
  | _ => []
  end.

Lemma fetchToolResponse_spec s o :
  let answer := fetch (length (requests s)) (continuationBody s) in
  exists s' o' taken rest,
    fetchToolResponse s o = (s', o') /\
    tool s' = tool s /\
    history s' = (history s ++ [AssistantAlias; UserAlias])%list /\
    requests s' = (requests s ++ [continuationBody s])%list /\
    continuationEvents answer = (taken ++ rest)%list /\
    emitted (ctl o') = (emitted (ctl o) ++ inner taken)%list /\
    (keepsUp o ->
     emitted (ctl o') = (emitted (ctl o) ++ inner (continuationEvents answer))%list).
Proof.
  intros answer. unfold Interceptor.fetchToolResponse.
  set (s1 := pushHistory s [AssistantAlias; UserAlias]).
  assert (bodyMessages s1 = continuationBody s) as Hbody.
  { unfold bodyMessages, continuationBody, s1. cbn [history tool pushHistory].
    by rewrite map_app. }
  rewrite Hbody. change (requests s1) with (requests s). fold answer.
  destruct answer as [e|[] status chunks ending] eqn:Ea; cbn [negb continuationEvents].
  - eexists _, _, [], [].
    repeat split; intros; cbn [logError tool history requests post ctl];
      rewrite ?await_emitted, ?inner_nil, ?app_nil_r; reflexivity.
  - destruct (pipe_forwards_prefix (bodyEvents chunks ending) ending
                (post s1 (continuationBody s)) (await consumer o))
      as (s' & o' & th & taken & rest & Hrun & Hev & Hem & Ht & Hh & Hr).
    rewrite Hrun. rewrite await_emitted in Hem.
    assert (keepsUp o ->
            emitted (ctl o') =
              (emitted (ctl o) ++ inner (bodyEvents chunks ending))%list) as Hall.
    { intros Hk. apply keepsUp_await in Hk as [Hk _].
      destruct (pipe_forwards_all (bodyEvents chunks ending) ending
                  (post s1 (continuationBody s)) _ Hk)
        as (s2 & o2 & th2 & Hrun2 & Hem2).
      rewrite Hrun in Hrun2. injection Hrun2 as <- <- <-.
      by rewrite Hem2, await_emitted. }
    destruct th as [e|]; eexists _, o', taken, rest;
      (split; [reflexivity|]); cbn [logError tool history requests];
      rewrite Ht, Hh, Hr; repeat split; assumption.
  - eexists _, _, [], [].
    repeat split; intros; cbn [logError tool history requests post ctl];
      rewrite ?await_emitted, ?inner_nil, ?app_nil_r; reflexivity.
Qed.

(** *** The continuation *)

(** A turn-complete event met with a tool result on record goes to
    [fetchToolResponse], and nothing is returned for enqueueing. *)
Lemma turn_complete_runs_continuation ev s o :
  event ev = Some "message_delta" ->
  toolMessages (tool s) <> [] ->
  notForTool ev (tool s) ->
  processor ev s o =
    let '(s', o') := fetchToolResponse s o in (s', o', Return None).
Proof.
  intros Hev Hrec Hnot. unfold Interceptor.processor.
  rewrite detect_only_block_start by (rewrite Hev; discriminate).
  rewrite (collect_skips _ _ Hnot), (execute_skips _ _ o Hnot).
  unfold eventIs. rewrite (bool_decide_eq_true_2 _ Hev).
  destruct (toolMessages (tool s)); [done|]. reflexivity.
Qed.

Lemma bodyMessages_extended s s' :
  tool s' = tool s ->
  history s' = (history s ++ [AssistantAlias; UserAlias])%list ->
  bodyMessages s' = continuationBody s.
Proof.
  intros Ht Hh. unfold bodyMessages, continuationBody.
  rewrite Hh, Ht, map_app. reflexivity.
Qed.






(** *** The recorded lists *)

(** [state'] has everything [state] had on record, in the same order. *)
Definition keepsRecords state state' : Prop :=
  (exists uses, assistantMessages state' = (assistantMessages state ++ uses)%list) /\
  (exists results, toolMessages state' = (toolMessages state ++ results)%list).

Lemma keepsRecords_same state state' :
  assistantMessages state' = assistantMessages state ->
  toolMessages state' = toolMessages state ->
  keepsRecords state state'.
Proof.
  intros Ha Ht. split; exists []; rewrite app_nil_r; assumption.
Qed.

Lemma keepsRecords_trans state1 state2 state3 :
  keepsRecords state1 state2 -> keepsRecords state2 state3 ->
  keepsRecords state1 state3.
Proof.
  intros [[u1 Hu1] [r1 Hr1]] [[u2 Hu2] [r2 Hr2]]. split.
  - exists (u1 ++ u2)%list. by rewrite Hu2, Hu1, app_assoc.
  - exists (r1 ++ r2)%list. by rewrite Hr2, Hr1, app_assoc.
Qed.

Lemma detect_keepsRecords ev state :
  keepsRecords state (detectToolCallStart ev state).2.
Proof.
  unfold Interceptor.detectToolCallStart.
  repeat match goal with
         | |- context [match ?x with _ => _ end] => destruct x
         end; by apply keepsRecords_same.
Qed.

Lemma collect_keepsRecords ev state b state' :
  collectToolArguments ev state = Return (b, state') ->
  keepsRecords state state'.
Proof.
  unfold collectToolArguments.
  repeat match goal with
         | |- context [match ?x with _ => _ end] => destruct x
         end; intros [= <- <-] || discriminate; by apply keepsRecords_same.
Qed.

Lemma runTool_keepsRecords s o :
  keepsRecords (tool s) (tool (runTool s o).1).
Proof.
  unfold Interceptor.runTool.
  destruct (JSON5_parse _) as [args|]; [|by apply keepsRecords_same].
  destruct (mbind _ _) as [t|];
    [destruct (handler t args _) as [args' []]|];
    cbn [fst tool withTool logError];
    split; cbn [assistantMessages toolMessages pushTool pushAssistant];
    eauto using app_nil_r, eq_sym.
Qed.

Lemma execute_keepsRecords ev s o :
  keepsRecords (tool s) (tool (executeAgentTool ev s o).1.1).
Proof.
  unfold Interceptor.executeAgentTool.
  destruct (toolInProgress _); [|by apply keepsRecords_same].
  destruct (indexMatches _ _) as [[]|]; try by apply keepsRecords_same.
  destruct (bool_decide _); [|by apply keepsRecords_same].
  pose proof (runTool_keepsRecords s o) as H.
  destruct (runTool s o) as [s' o']. exact H.
Qed.

Lemma recover_tool e s o : tool (Interceptor.recover M Args e s o).1.1 = tool s.
Proof. unfold recover. destruct (bool_decide _); reflexivity. Qed.

(** No step of the interceptor removes or reorders anything from the
    recorded tool uses or tool results. *)
Lemma processor_keepsRecords ev s o :
  keepsRecords (tool s) (tool (processor ev s o).1.1).
Proof.
  unfold Interceptor.processor.
  pose proof (detect_keepsRecords ev (tool s)) as Hd.
  destruct (detectToolCallStart ev (tool s)) as [[] state]; [exact Hd|].
  destruct (collectToolArguments ev (tool s)) as [[[] state']|e] eqn:Ec.
  - exact (collect_keepsRecords _ _ _ _ Ec).
  - pose proof (execute_keepsRecords ev s o) as He.
    destruct (executeAgentTool ev s o) as [[s' o'] [[]|e]]; cbn [fst] in *.
    + exact He.
    + destruct (_ && _); [|exact He].
      destruct (fetchToolResponse_spec s' o')
        as (s2 & o2 & _ & _ & Hrun & Ht & _).
      rewrite Hrun. cbn [fst]. by rewrite Ht.
    + by rewrite recover_tool.
  - rewrite recover_tool. by apply keepsRecords_same.
Qed.

(** C10. No step of the interceptor drops anything from the recorded
    tool uses and tool results, and a continuation leaves both lists as
    they are.  So a second turn-complete event on the same stream posts a
    second request, whose messages end with the same assistant and user
    messages twice over. *)
Theorem continuation_repeats ev1 ev2 s o :
  event ev1 = Some "message_delta" ->
  event ev2 = Some "message_delta" ->
  toolMessages (tool s) <> [] ->
  notForTool ev1 (tool s) ->
  notForTool ev2 (tool s) ->
  let assistant := AssistantMessage (assistantMessages (tool s)) in
  let user := UserMessage (toolMessages (tool s)) in
  (forall ev' s' o', keepsRecords (tool s') (tool (processor ev' s' o').1.1)) /\
  exists s1 o1 s2 o2,
    processor ev1 s o = (s1, o1, Return None) /\
    tool s1 = tool s /\
    processor ev2 s1 o1 = (s2, o2, Return None) /\
    tool s2 = tool s /\
    requests s2 =
      (requests s
       ++ [ (bodyMessages s ++ [assistant; user])%list;
            (bodyMessages s ++ [assistant; user; assistant; user])%list ])%list.
Proof.
  intros H1 H2 Hrec Hn1 Hn2 assistant user.
  split; [exact processor_keepsRecords|].
  destruct (fetchToolResponse_spec s o)
    as (s1 & o1 & _ & _ & Hf1 & Ht1 & Hh1 & Hr1 & _).
  pose proof (bodyMessages_extended _ _ Ht1 Hh1) as Hb1.
  assert (toolMessages (tool s1) <> []) as Hrec1 by by rewrite Ht1.
  assert (notForTool ev2 (tool s1)) as Hn2' by by rewrite Ht1.
  destruct (fetchToolResponse_spec s1 o1)
    as (s2 & o2 & _ & _ & Hf2 & Ht2 & _ & Hr2 & _).
  exists s1, o1, s2, o2. repeat split; try assumption.
  - by rewrite (turn_complete_runs_continuation _ _ _ H1 Hrec Hn1), Hf1.
  - by rewrite (turn_complete_runs_continuation _ _ _ H2 Hrec1 Hn2'), Hf2.
  - congruence.
  - rewrite Hr2, Hr1. unfold continuationBody at 2. rewrite Hb1, Ht1.
    unfold continuationBody. rewrite <- !app_assoc. reflexivity.
Qed.

(** *** A failing tool call *)

(** The arguments do not parse, or the handler of the bound tool rejects
    (it sees the request with the tool use already on record). *)
Definition toolFails s : Prop :=
  JSON5_parse (currentToolArgs (tool s)) = None \/
  exists args t args' e,
    JSON5_parse (currentToolArgs (tool s)) = Some args /\
    currentAgent (tool s) ≫= (fun a => tools a !! currentToolName (tool s)) = Some t /\
    let use := {| tu_id := currentToolId (tool s);
                  tu_name := currentToolName (tool s); tu_input := args |} in
    handler t args (bodyMessages (withTool s (pushAssistant (tool s) use)))
      = (args', Rejected e).

Lemma runTool_failure s o :
  toolFails s ->
  let s' := (runTool s o).1 in
  toolMessages (tool s') = toolMessages (tool s) /\
  console s' = (console s ++ [ToolFailed (currentToolName (tool s))])%list /\
  history s' = history s /\ requests s' = requests s /\ aborted s' = aborted s.
Proof.
  intros [H|(args & t & args' & e & Hp & Ht & Hh)]; unfold Interceptor.runTool.
  - rewrite H. repeat split.
  - rewrite Hp. cbn zeta in Hh |- *. rewrite Ht, Hh. repeat split.
Qed.

Lemma runTool_frame s o :
  let '(s', o') := runTool s o in
  history s' = history s /\ requests s' = requests s /\
  aborted s' = aborted s /\ emitted (ctl o') = emitted (ctl o).
Proof.
  unfold Interceptor.runTool.
  destruct (JSON5_parse _) as [args|]; [|repeat split].
  destruct (mbind _ _) as [t|];
    [destruct (handler t args _) as [args' []]|];
    rewrite await_emitted; repeat split.
Qed.

(** What does hold of a failing call.  The block-stop event of the
    tool call in progress never makes the step function throw: it
    returns with nothing to enqueue, the
    accumulator, the bound index and the other fields of the call are
    back to their initial values, and the history, the requests, the
    abort flag and the output are as before.  When the arguments do not
    parse or the handler rejects, the failure is logged and the recorded
    tool results are unchanged; when the arguments do not parse the
    recorded tool uses are unchanged as well. *)
Theorem failed_tool_is_dropped ev s o :
  matchingStop ev (tool s) ->
  exists s' o',
    processor ev s o = (s', o', Return None) /\
    currentToolIndex (tool s') = Some (-1) /\
    currentToolArgs (tool s') = "" /\
    currentToolName (tool s') = "" /\
    currentAgent (tool s') = None /\
    history s' = history s /\ requests s' = requests s /\
    aborted s' = aborted s /\ emitted (ctl o') = emitted (ctl o) /\
    (toolFails s ->
     toolMessages (tool s') = toolMessages (tool s) /\
     console s' = (console s ++ [ToolFailed (currentToolName (tool s))])%list) /\
    (JSON5_parse (currentToolArgs (tool s)) = None ->
     assistantMessages (tool s') = assistantMessages (tool s)).
Proof.
  intros Hstop. pose proof Hstop as (_ & Hev & _).
  unfold Interceptor.processor.
  rewrite (detect_only_block_start _ _ Hev), (collect_leaves_stop _ _ Hstop),
    (execute_takes_stop _ _ o Hstop).
  pose proof (runTool_frame s o) as Hframe.
  pose proof (runTool_failure s o) as Hfail.
  assert (JSON5_parse (currentToolArgs (tool s)) = None ->
          assistantMessages (tool (runTool s o).1) = assistantMessages (tool s))
    as Hparse.
  { intros H. unfold Interceptor.runTool. rewrite H. reflexivity. }
  destruct (runTool s o) as [s' o']. cbn [fst] in *.
  destruct Hframe as (Hh & Hr & Ha & Hem).
  eexists _, _. split; [reflexivity|].
  cbn [tool withTool resetToolState currentToolIndex currentToolArgs
       currentToolName currentAgent history requests aborted console
       toolMessages assistantMessages].
  repeat split; try assumption; by apply Hfail.
Qed.

End Props.

Arguments notForTool {M Args} ev state.
Arguments matchingStop {M Args} ev state.
Arguments continuationBody {M Args} s.
Arguments toolFails {M Args} JSON5_parse s.
Arguments keepsRecords {M Args} state state'.

(** *** One agent, one tool

    The agent ["image"] registers the tool ["analyzeImage"], whose handler
    rejects the arguments [{boom}] and answers anything else, leaving the
    arguments as they are; arguments
    parse when they open with a brace; every continuation is answered by
    a turn of one text delta; the consumer reads as soon as it can. *)
Module Sample.

Definition analyzeImage : ITool string string :=
  {| handler := fun args _ =>
       (args,
        if String.eqb args "{boom}"
        then Rejected {| err_name := "Error"; err_code := None |}
        else Resolved ("seen " ++ args)) |}.

Definition imageAgent : IAgent string string :=
  {| agent_name := "image"; tools := {[ "analyzeImage" := analyzeImage ]} |}.

Definition getAgent (name : string) : option (IAgent string string) :=
  if String.eqb name "image" then Some imageAgent else None.

Definition JSON5_parse (s : string) : option string :=
  if JS.startsWith "{" s then Some s else None.

Definition NL : string := SSEProps.NL.

Definition continuation : list (list Byte.byte) :=
  [ SSEProps.bytesOf
      ("event: message_start" ++ NL ++ "data: a" ++ NL ++ NL ++
       "event: content_block_delta" ++ NL ++ "data: b" ++ NL ++ NL ++
       "event: message_stop" ++ NL ++ "data: c" ++ NL ++ NL) ].

Definition fetch (_ : nat) (_ : list (BodyMessage string string)) : FetchResult :=
  Response true 200 continuation None.

Definition eager (_ : nat) : ConsumerAction := Take.

Definition processor :=
  Interceptor.processor string string getAgent JSON5_parse SSEProps.rejectAll
    fetch eager ["image"].

Definition payload (ty : string) (i : option Z) (b : option ContentBlock)
    (d : option Delta) : option SSEData :=
  Some (Payload {| type := Some ty; index := i; content_block := b;
                   delta := d; usage := None |}).

Definition named (name : string) (d : option SSEData) : ParsedSSEEvent :=
  {| event := Some name; data := d; id := None; retry := None |}.

Definition blockStart : ParsedSSEEvent :=
  named "content_block_start"
    (payload "content_block_start" (Some 1)
       (Some {| cb_type := "tool_use"; cb_name := Some "analyzeImage";
                cb_id := Some "toolu_1"; cb_text := None |}) None).

Definition argsDelta (fragment : string) : ParsedSSEEvent :=
  named "content_block_delta"
    (payload "content_block_delta" (Some 1) None
       (Some {| delta_type := "input_json_delta";
                partial_json := Some fragment; delta_text := None |})).

Definition blockStop : ParsedSSEEvent :=
  named "content_block_stop" (payload "content_block_stop" (Some 1) None None).

Definition messageDelta : ParsedSSEEvent :=
  named "message_delta" (payload "message_delta" None None None).

Definition textDelta : ParsedSSEEvent :=
  named "content_block_delta" (Some (RawError "b" "JSON parse failed")).

Definition toolUse (args : string) : ToolUseMessage string :=
  {| tu_id := Some "toolu_1"; tu_name := "analyzeImage"; tu_input := args |}.

Definition toolResult (out : string) : ToolResultMessage :=
  {| tool_use_id := Some "toolu_1"; tr_content := Some out |}.

Definition withRecords (t : AgentToolState string string)
    : Session string string :=
  {| tool := t; history := [Kept "look at this"]; requests := [];
     aborted := false; console := [] |}.

(** One tool call carried out and on record, no call in progress. *)
Definition afterTool : Session string string :=
  withRecords
    {| currentAgent := None; currentToolIndex := Some (-1);
       currentToolName := ""; currentToolArgs := ""; currentToolId := Some "";
       toolMessages := [toolResult "seen {}"];
       assistantMessages := [toolUse "{}"] |}.

(** A call of [analyzeImage] bound to block 1 with [args] accumulated. *)
Definition accumulating (args : string) : Session string string :=
  withRecords
    {| currentAgent := Some imageAgent; currentToolIndex := Some 1;
       currentToolName := "analyzeImage"; currentToolArgs := args;
       currentToolId := Some "toolu_1";
       toolMessages := []; assistantMessages := [] |}.

End Sample.

Lemma eager_keepsUp : keepsUp Sample.eager (newOutput : Output ParsedSSEEvent).
Proof. split; [reflexivity|]. split; [reflexivity|]. simpl. lia. Qed.






(** C10 on the sample: two turn-complete events in a row, two requests,
    the second with the pair of messages appended twice. *)
Lemma continuation_repeats_witness :
  exists s1 o1 s2 o2,
    Sample.processor Sample.messageDelta Sample.afterTool newOutput
      = (s1, o1, Return None) /\
    Sample.processor Sample.messageDelta s1 o1 = (s2, o2, Return None) /\
    toolMessages (tool s2) = [Sample.toolResult "seen {}"] /\
    requests s2 =
      [ [Original "look at this";
         AssistantMessage [Sample.toolUse "{}"];
         UserMessage [Sample.toolResult "seen {}"]];
        [Original "look at this";
         AssistantMessage [Sample.toolUse "{}"];
         UserMessage [Sample.toolResult "seen {}"];
         AssistantMessage [Sample.toolUse "{}"];
         UserMessage [Sample.toolResult "seen {}"]] ].
Proof.
  destruct (continuation_repeats string string Sample.getAgent
              Sample.JSON5_parse SSEProps.rejectAll Sample.fetch Sample.eager
              ["image"] Sample.messageDelta Sample.messageDelta
              Sample.afterTool newOutput)
    as (_ & s1 & o1 & s2 & o2 & Hp1 & _ & Hp2 & Ht2 & Hr2).
  - reflexivity.
  - reflexivity.
  - discriminate.
  - left. reflexivity.
  - left. reflexivity.
  - exists s1, o1, s2, o2. split; [exact Hp1|]. split; [exact Hp2|]. split.
    + rewrite Ht2. reflexivity.
    + rewrite Hr2. reflexivity.
Defined.

(** On the sample, with arguments [oops] that do not parse: nothing
    is recorded, the failure is logged, the state is reset. *)
Lemma failed_tool_is_dropped_witness :
  exists s' o',
    Sample.processor Sample.blockStop (Sample.accumulating "oops") newOutput
      = (s', o', Return None) /\
    currentToolIndex (tool s') = Some (-1) /\
    currentToolArgs (tool s') = "" /\
    toolMessages (tool s') = [] /\
    assistantMessages (tool s') = [] /\
    console s' = [ToolFailed "analyzeImage"].
Proof.
  destruct (failed_tool_is_dropped string string Sample.getAgent
              Sample.JSON5_parse SSEProps.rejectAll Sample.fetch Sample.eager
              ["image"] Sample.blockStop (Sample.accumulating "oops") newOutput)
    as (s' & o' & Hp & Hi & Ha & _ & _ & _ & _ & _ & _ & Hfail & Hparse).
  - split; [reflexivity|]. split; [discriminate|].
    eexists. split; [reflexivity|]. split; [reflexivity|].
    split; [reflexivity|]. discriminate.
  - exists s', o'. split; [exact Hp|]. split; [exact Hi|]. split; [exact Ha|].
    destruct (Hfail (or_introl eq_refl)) as [Ht Hc].
    split; [rewrite Ht; reflexivity|].
    split; [rewrite (Hparse eq_refl); reflexivity|].
    rewrite Hc. reflexivity.
Defined.


(** The scenario of the specification: a tool call streamed as a start,
    two argument fragments and a stop, then the turn-complete event.  One
    request is posted, with one new assistant message and one new user
    message; the client sees the continuation's text delta and nothing of
    the tool call. *)
Lemma streamed_tool_call_scenario :
  let r :=
    processEvents string string Sample.getAgent Sample.JSON5_parse
      SSEProps.rejectAll Sample.fetch Sample.eager ["image"]
      [ Sample.blockStart; Sample.argsDelta "{"; Sample.argsDelta "}";
        Sample.blockStop; Sample.messageDelta ]
      None ["look at this"] in
  requests (RewriteStream.final r) =
    [ [Original "look at this";
       AssistantMessage [Sample.toolUse "{}"];
       UserMessage [Sample.toolResult "seen {}"]] ] /\
  emitted (ctl (RewriteStream.output r)) = [Sample.textDelta] /\
  RewriteStream.reads r = 6%nat.
Proof. vm_compute. repeat split. Qed.

End InterceptorProps.

(** * Further properties *)

(** ** Router: accounting and rules *)

Module RouterExtra.

Import Router RouterProps.

Section Accounting.

Variable JSONValue : Type.
Variable encode : string -> list N.
Variable JSON_stringify : JSONValue -> string.

Local Abbreviation tokens := (Router.tokens encode).
Local Abbreviation count_part := (Router.count_part JSONValue encode JSON_stringify).
Local Abbreviation count_message := (Router.count_message JSONValue encode JSON_stringify).
Local Abbreviation count_system_item := (Router.count_system_item encode).
Local Abbreviation count_tool := (Router.count_tool JSONValue encode JSON_stringify).
Local Abbreviation calculateTokenCount :=
  (Router.calculateTokenCount JSONValue encode JSON_stringify).
Local Abbreviation messagesTokens := (RouterProps.messagesTokens JSONValue encode JSON_stringify).
Local Abbreviation systemTokens := (RouterProps.systemTokens encode).
Local Abbreviation toolsTokens := (RouterProps.toolsTokens JSONValue encode JSON_stringify).

Lemma fold_left_nonneg {A} (f : Z -> A -> Z) (l : list A) :
  (forall a x, 0 <= a -> 0 <= f a x) ->
  forall a, 0 <= a -> 0 <= fold_left f l a.
Proof.
  intros Hf. induction l as [|x l IH]; intros a Ha; simpl; [assumption|].
  apply IH, Hf, Ha.
Qed.

Lemma tokens_nonneg s : 0 <= tokens s.
Proof. unfold Router.tokens. lia. Qed.

Lemma count_part_nonneg a p : 0 <= a -> 0 <= count_part a p.
Proof.
  intros Ha. destruct p as [t|i|[c|j]|ty]; simpl;
    try pose proof (tokens_nonneg t);
    try pose proof (tokens_nonneg (JSON_stringify i));
    try pose proof (tokens_nonneg c);
    try pose proof (tokens_nonneg (JSON_stringify j)); lia.
Qed.

Lemma count_message_nonneg a m : 0 <= a -> 0 <= count_message a m.
Proof.
  intros Ha. unfold Router.count_message. destruct (content m) as [s|parts|].
  - pose proof (tokens_nonneg s). lia.
  - by apply fold_left_nonneg; [apply count_part_nonneg|].
  - assumption.
Qed.

Lemma count_system_item_nonneg a i : 0 <= a -> 0 <= count_system_item a i.
Proof.
  intros Ha. unfold Router.count_system_item. destruct (negb _); [assumption|].
  destruct (sb_text i) as [s|parts|]; [| |assumption].
  - pose proof (tokens_nonneg s). lia.
  - apply (fold_left_nonneg (fun acc textPart => acc + tokens textPart)); [|assumption].
    intros b x Hb. pose proof (tokens_nonneg x). lia.
Qed.

Lemma count_tool_nonneg a t : 0 <= a -> 0 <= count_tool a t.
Proof.
  intros Ha. unfold Router.count_tool.
  destruct (tool_description t) as [d|], (tool_input_schema t) as [sch|];
    try destruct (JS.truthy d);
    try pose proof (tokens_nonneg (tool_name t ++ d));
    try pose proof (tokens_nonneg (JSON_stringify sch)); lia.
Qed.

(** X1. The count is never negative, and it is a sum over the messages and
    over the tools: for a request whose messages and tools are two lists
    put end to end, it is the count of the first halves with the system
    prompt plus the count of the second halves alone. *)
Theorem calculateTokenCount_concat m1 m2 s t1 t2 :
  0 <= calculateTokenCount (Some (m1 ++ m2)%list) s (Some (t1 ++ t2)%list) /\
  calculateTokenCount (Some (m1 ++ m2)%list) s (Some (t1 ++ t2)%list) =
    calculateTokenCount (Some m1) s (Some t1)
    + calculateTokenCount (Some m2) SysUndefined (Some t2).
Proof.
  split.
  - unfold Router.calculateTokenCount.
    apply fold_left_nonneg; [apply count_tool_nonneg|].
    destruct s as [|str|items].
    + apply fold_left_nonneg; [apply count_message_nonneg|lia].
    + pose proof (tokens_nonneg str).
      assert (0 <= fold_left count_message (m1 ++ m2)%list 0)
        by (apply fold_left_nonneg; [apply count_message_nonneg|lia]).
      lia.
    + apply fold_left_nonneg; [apply count_system_item_nonneg|].
      apply fold_left_nonneg; [apply count_message_nonneg|lia].
  - rewrite !calculateTokenCount_sections.
    unfold RouterProps.messagesTokens, RouterProps.toolsTokens.
    rewrite !fold_left_app.
    rewrite (fold_left_shift _ m2 (count_message_shift _ _ _)).
    rewrite (fold_left_shift _ t2 (count_tool_shift _ _ _)).
    simpl. lia.
Qed.

End Accounting.

(** *** Strings *)

Lemma startsWith_app p s : JS.startsWith p (p ++ s) = true.
Proof.
  induction p as [|c p IH]; [reflexivity|].
  rewrite SSEProps.append_cons. cbn [JS.startsWith].
  by rewrite Ascii.eqb_refl.
Qed.

Lemma slice_length_app p s : JS.slice (String.length p) (p ++ s) = s.
Proof. induction p as [|c p IH]; [reflexivity|]. exact IH. Qed.

Lemma includes_at_start sub s :
  JS.startsWith sub s = true -> JS.includes sub s = true.
Proof. intros H. destruct s; cbn [JS.includes]; by rewrite H. Qed.

Lemma includes_middle sub a b : JS.includes sub (a ++ sub ++ b) = true.
Proof.
  induction a as [|c a IH].
  - change ("" ++ sub ++ b) with (sub ++ b).
    apply includes_at_start, startsWith_app.
  - rewrite SSEProps.append_cons. cbn [JS.includes]. rewrite IH.
    apply orb_true_r.
Qed.

(** [c] does not occur in [s]. *)
Fixpoint lacks (c : ascii) (s : string) : bool :=
  match s with
  | EmptyString => true
  | String a s' => negb (Ascii.eqb a c) && lacks c s'
  end.

Lemma lacks_oneLine c s : lacks c s = true -> SSEProps.oneLine c s.
Proof.
  unfold SSEProps.oneLine. induction s as [|a s IH]; [reflexivity|].
  cbn [lacks JS.split]. intros [Ha Hs]%andb_true_iff.
  apply negb_true_iff in Ha. rewrite Ha, (IH Hs). reflexivity.
Qed.

(** The first occurrence of [sub] in [m ++ sub ++ rest] is the one
    written, when the first character of [sub] does not occur in [m]. *)
Lemma cut_at_first c sub m rest :
  lacks c m = true ->
  JS.cut_at (String c sub) (m ++ String c sub ++ rest) = Some (m, rest).
Proof.
  induction m as [|a m IH]; intros H.
  - change ("" ++ ?x) with x.
    destruct (String c sub ++ rest) eqn:E; [discriminate|].
    cbn [JS.cut_at]. rewrite <- E, startsWith_app.
    by rewrite slice_length_app.
  - cbn [lacks] in H. apply andb_true_iff in H as [Ha Hm].
    apply negb_true_iff in Ha. rewrite SSEProps.append_cons.
    cbn [JS.cut_at JS.startsWith]. rewrite Ascii.eqb_sym, Ha, (IH Hm).
    reflexivity.
Qed.

Section Selection.

Variable JSONValue : Type.
Variable toLowerCase : string -> string.
Variable HOME_DIR : string.
Variable join : list string -> string.
Variable searchProjectBySession : string -> option string.
Variable readConfigFile : string -> option ConfigFile.

Local Abbreviation getUseModel :=
  (Router.getUseModel JSONValue toLowerCase HOME_DIR join
     searchProjectBySession readConfigFile).
Local Abbreviation explicitModel := (Router.explicitModel toLowerCase).
Local Abbreviation afterLongContext := (Router.afterLongContext JSONValue).
Local Abbreviation activeRouter :=
  (RouterProps.activeRouter JSONValue HOME_DIR join searchProjectBySession
     readConfigFile).

Lemma find_first {A} (pred : A -> bool) l1 x l2 :
  Forall (fun y => pred y = false) l1 -> pred x = true ->
  JS.find pred (l1 ++ x :: l2) = Some x.
Proof.
  induction 1 as [|y l1 Hy _ IH]; intros Hx; cbn [app JS.find].
  - by rewrite Hx.
  - rewrite Hy. by apply IH.
Qed.

(** X2. A request that spells a configured provider and one of its
    models in their lower-case forms is answered with the configured
    spelling of both.  The provider is the first one of that lower-case
    name, the model the first one of its list with that lower-case
    name; neither lower-case name holds a comma and the model is not
    empty. *)
Theorem lowercase_pair_resolves req tokenCount config lastUsage
    ps1 p ps2 ms1 m ms2 :
  Providers config = (ps1 ++ p :: ps2)%list ->
  Forall (fun q => toLowerCase (name q) <> toLowerCase (name p)) ps1 ->
  models p = (ms1 ++ m :: ms2)%list ->
  Forall (fun x => toLowerCase x <> toLowerCase m) ms1 ->
  m <> "" ->
  lacks "," (toLowerCase (name p)) = true ->
  lacks "," (toLowerCase m) = true ->
  model (body req) = toLowerCase (name p) ++ "," ++ toLowerCase m ->
  getUseModel req tokenCount config lastUsage =
    {| outcome := Selected (name p ++ "," ++ m); logged := [];
       system_after := system (body req) |}.
Proof.
  intros Hps Hfirst Hms Hmfirst Hm Hcp Hcm Hreq.
  rewrite explicit_rule_decides by (rewrite Hreq; apply (includes_middle "," _ _)).
  f_equal. f_equal. unfold Router.explicitModel. rewrite Hreq.
  change (toLowerCase (name p) ++ "," ++ toLowerCase m)
    with (toLowerCase (name p) ++ String "," (toLowerCase m)).
  rewrite (SSEProps.oneLine_then_separator _ _ _ (lacks_oneLine _ _ Hcp)).
  rewrite (lacks_oneLine _ _ Hcm). cbn [nth].
  rewrite Hps, (find_first _ ps1 p ps2).
  - rewrite Hms, (find_first _ ms1 m ms2).
    + destruct m; [done|reflexivity].
    + eapply Forall_impl; [exact Hmfirst|]. intros x Hx. by apply String.eqb_neq.
    + apply String.eqb_refl.
  - eapply Forall_impl; [exact Hfirst|]. intros q Hq. by apply String.eqb_neq.
  - apply String.eqb_refl.
Qed.

(** X3. The embedded override.  When the request names no pair, the
    long-context rule does not apply, and the second system block opens
    with the tag around a model name free of the character [<], that
    name is returned as it is, whatever the background, web-search,
    thinking and default tiers say, and the tag - nothing else - is
    removed from the block. *)
Theorem subagent_tag_selects req tokenCount config lastUsage b0 b1 rest m tail :
  JS.includes "," (model (body req)) = false ->
  overThreshold (activeRouter req config) tokenCount lastUsage
    && JS.truthy_opt (longContext (activeRouter req config)) = false ->
  system (body req) = SysArray (b0 :: b1 :: rest) ->
  sb_text b1 = TextString (SUBAGENT_OPEN ++ m ++ SUBAGENT_CLOSE ++ tail) ->
  lacks "<" m = true ->
  getUseModel req tokenCount config lastUsage =
    {| outcome := Selected m; logged := [];
       system_after :=
         SysArray (b0 :: {| sb_type := sb_type b1; sb_text := TextString tail |}
                      :: rest) |}.
Proof.
  intros Hc Hlong Hsys Htext Hm.
  unfold Router.getUseModel. rewrite Hc.
  fold (activeRouter req config). rewrite Hlong.
  unfold Router.afterLongContext, subagentProbe. rewrite Hsys, Htext.
  rewrite startsWith_app, slice_length_app.
  unfold SUBAGENT_CLOSE.
  rewrite (cut_at_first "<" "/CCR-SUBAGENT-MODEL>" m tail Hm). reflexivity.
Qed.

Definition withThinking (req : Request JSONValue) (t : option ThinkingConfig)
    : Request JSONValue :=
  {| body := {| model := model (body req); messages := messages (body req);
                system := system (body req); tools := tools (body req);
                thinking := t |};
     sessionId := sessionId req |}.

(** X4. Web search comes before thinking.  For a request that declares
    a web-search tool, with a web-search target in the active route
    configuration, the thinking flag has no influence at all on what
    [getUseModel] returns, logs, or does to the system prompt. *)
Theorem web_search_hides_thinking req tokenCount config lastUsage t1 t2 :
  hasWebSearchTool JSONValue (tools (body req)) = true ->
  JS.truthy_opt (webSearch (activeRouter req config)) = true ->
  getUseModel (withThinking req t1) tokenCount config lastUsage =
  getUseModel (withThinking req t2) tokenCount config lastUsage.
Proof.
  intros Hweb Htarget.
  unfold Router.getUseModel, Router.afterLongContext, Router.getProjectSpecificRouter.
  cbn [withThinking body sessionId model system tools thinking].
  unfold RouterProps.activeRouter, Router.getProjectSpecificRouter in Htarget.
  rewrite Hweb. cbn [andb].
  destruct (JS.includes "," _); [reflexivity|].
  destruct (_ && JS.truthy_opt (longContext _)); [reflexivity|].
  destruct (subagentProbe _); try reflexivity.
  destruct (_ && JS.truthy_opt (background _)); [reflexivity|].
  rewrite Htarget. reflexivity.
Qed.

(** X5. [getUseModel] changes the system prompt only by consuming the
    tag of the embedded override: in every other case the prompt is
    left exactly as it was, and when the tag is consumed the model
    returned is the one the tag held. *)
Theorem system_prompt_kept req tokenCount config lastUsage :
  let d := getUseModel req tokenCount config lastUsage in
  system_after d = system (body req) \/
  exists m, subagentProbe (system (body req)) = ProbeHit m (system_after d) /\
            outcome d = Selected m.
Proof.
  unfold Router.getUseModel, Router.afterLongContext. cbn zeta.
  destruct (JS.includes "," _); [left; reflexivity|].
  destruct (_ && JS.truthy_opt (longContext _)); [left; reflexivity|].
  destruct (subagentProbe _) as [| |m sys'] eqn:E.
  - destruct (_ && JS.truthy_opt (background _)); [left; reflexivity|].
    destruct (_ && JS.truthy_opt (webSearch _)); [left; reflexivity|].
    destruct (_ && JS.truthy_opt (think _)); left; reflexivity.
  - left; reflexivity.
  - right. exists m. split; reflexivity.
Qed.

End Selection.

(** A configuration that spells its provider and model with capitals. *)
Definition capitalConfig : AppConfig :=
  {| Providers := [ {| name := "OpenRouter"; models := ["Claude-Sonnet-4"] |} ];
     GlobalRouter := Sample.globalRouter None |}.

Lemma lowercase_pair_resolves_witness :
  Sample.getUseModel (plainRequest "openrouter,claude-sonnet-4" None) 0
    capitalConfig None
  = {| outcome := Selected "OpenRouter,Claude-Sonnet-4"; logged := [];
       system_after := SysUndefined |}.
Proof.
  apply (lowercase_pair_resolves unit JS.ascii_toLowerCase Sample.HOME_DIR
           Sample.join Sample.searchProjectBySession Sample.readConfigFile
           (plainRequest "openrouter,claude-sonnet-4" None) 0 capitalConfig None
           [] {| name := "OpenRouter"; models := ["Claude-Sonnet-4"] |} []
           [] "Claude-Sonnet-4" []).
  - reflexivity.
  - constructor.
  - reflexivity.
  - constructor.
  - discriminate.
  - reflexivity.
  - reflexivity.
  - reflexivity.
Defined.

(** The request of the repository's test of the embedded override. *)
Definition taggedRequest : Request unit :=
  {| body :=
       {| model := "claude-sonnet-4"; messages := [];
          system := SysArray
            [ {| sb_type := "text"; sb_text := TextString "Base system prompt" |};
              {| sb_type := "text";
                 sb_text := TextString
                   "<CCR-SUBAGENT-MODEL>custom,model</CCR-SUBAGENT-MODEL>Rest of prompt" |} ];
          tools := None; thinking := None |};
     sessionId := None |}.

Lemma subagent_tag_selects_witness :
  Sample.getUseModel taggedRequest 0 (Sample.config (Some "openrouter,bg")) None
  = {| outcome := Selected "custom,model"; logged := [];
       system_after := SysArray
         [ {| sb_type := "text"; sb_text := TextString "Base system prompt" |};
           {| sb_type := "text"; sb_text := TextString "Rest of prompt" |} ] |}.
Proof.
  apply (subagent_tag_selects unit JS.ascii_toLowerCase Sample.HOME_DIR
           Sample.join Sample.searchProjectBySession Sample.readConfigFile
           taggedRequest 0 (Sample.config (Some "openrouter,bg")) None
           {| sb_type := "text"; sb_text := TextString "Base system prompt" |}
           {| sb_type := "text";
              sb_text := TextString
                "<CCR-SUBAGENT-MODEL>custom,model</CCR-SUBAGENT-MODEL>Rest of prompt" |}
           [] "custom,model" "Rest of prompt").
  - reflexivity.
  - reflexivity.
  - reflexivity.
  - reflexivity.
  - reflexivity.
Defined.

Definition searchConfig : AppConfig :=
  {| Providers := Sample.providers;
     GlobalRouter :=
       {| default := "openrouter,claude-sonnet-4"; background := None;
          think := Some "openrouter,claude-sonnet-4-thinking";
          longContext := None; longContextThreshold := None;
          webSearch := Some "openrouter,gpt-4-search" |} |}.

Definition searchRequest : Request unit :=
  {| body :=
       {| model := "claude-sonnet-4"; messages := []; system := SysUndefined;
          tools := Some [ {| tool_name := "search";
                             tool_type := Some "web_search_20250305";
                             tool_description := None;
                             tool_input_schema := None |} ];
          thinking := None |};
     sessionId := None |}.

Lemma web_search_hides_thinking_witness :
  Sample.getUseModel
    (withThinking unit searchRequest
       (Some {| thinking_type := "enabled"; budget_tokens := Some 10000 |}))
    0 searchConfig None
  = Sample.getUseModel (withThinking unit searchRequest None) 0 searchConfig None.
Proof.
  apply (web_search_hides_thinking unit JS.ascii_toLowerCase Sample.HOME_DIR
           Sample.join Sample.searchProjectBySession Sample.readConfigFile
           searchRequest 0 searchConfig None).
  - reflexivity.
  - reflexivity.
Defined.

End RouterExtra.

(** ** Router middleware and project lookup *)

Module MiddlewareProps.

Import Router Middleware RouterExtra.

(** *** Splitting on a marker *)

Lemma cut_at_absent sub s : JS.includes sub s = false -> JS.cut_at sub s = None.
Proof.
  induction s as [|c s IH]; cbn [JS.includes JS.cut_at].
  - rewrite orb_false_r. by intros ->.
  - intros [-> Hs]%orb_false_iff. by rewrite (IH Hs).
Qed.

Lemma length_append (a b : string) :
  String.length (a ++ b) = (String.length a + String.length b)%nat.
Proof.
  induction a as [|c a IH]; [reflexivity|].
  rewrite SSEProps.append_cons. cbn [String.length]. by rewrite IH.
Qed.

(** Whether [s] opens with [sub] is decided by the first characters of
    [s], as many as [sub] has. *)
Lemma startsWith_long sub x y :
  (String.length sub <= String.length x)%nat ->
  JS.startsWith sub (x ++ y) = JS.startsWith sub x.
Proof.
  revert x. induction sub as [|c sub IH]; intros x H; [reflexivity|].
  destruct x as [|a x]; [cbn in H; lia|].
  rewrite SSEProps.append_cons. cbn [JS.startsWith].
  destruct (Ascii.eqb c a); [|reflexivity].
  apply IH. cbn in H. lia.
Qed.

(** The occurrence of the marker written after [a] is the first one when
    none starts inside [a]. *)
Lemma cut_at_clean sub1 c a b :
  JS.includes (sub1 ++ String c "") (a ++ sub1) = false ->
  JS.cut_at (sub1 ++ String c "") (a ++ (sub1 ++ String c "") ++ b) = Some (a, b).
Proof.
  set (sub := sub1 ++ String c "").
  assert (String.length sub = S (String.length sub1)) as Hlen.
  { unfold sub. rewrite length_append. cbn. lia. }
  induction a as [|c0 a IH]; intros H.
  - change ("" ++ ?x) with x.
    destruct (sub ++ b) eqn:E.
    { destruct sub; [discriminate Hlen|discriminate E]. }
    cbn [JS.cut_at]. rewrite <- E, startsWith_app. by rewrite slice_length_app.
  - rewrite SSEProps.append_cons in H |- *.
    cbn [JS.includes] in H. apply orb_false_iff in H as [Hs Hi].
    cbn [JS.cut_at].
    assert (JS.startsWith sub (String c0 (a ++ sub ++ b)) = false) as ->.
    { rewrite <- Hs. unfold sub at 2.
      rewrite (SSEProps.append_assoc sub1), <- (SSEProps.append_assoc a sub1).
      rewrite <- SSEProps.append_cons.
      apply startsWith_long. rewrite Hlen. cbn [String.length].
      rewrite length_append. lia. }
    by rewrite (IH Hi).
Qed.

Lemma splitOn_two sep u a b :
  JS.cut_at sep u = Some (a, b) ->
  JS.cut_at sep b = None ->
  (2 <= String.length u)%nat ->
  splitOn sep u = [a; b].
Proof.
  intros Ha Hb Hlen. unfold splitOn.
  destruct (String.length u) as [|[|n]]; [lia..|].
  cbn [splitOn_from]. rewrite Ha.
  destruct n; cbn [splitOn_from]; by rewrite Hb.
Qed.

Lemma splitOn_absent sep u : JS.cut_at sep u = None -> splitOn sep u = [u].
Proof.
  intros H. unfold splitOn. destruct (String.length u); cbn [splitOn_from];
    [reflexivity|]. by rewrite H.
Qed.

(** X6. The session id is read off [metadata.user_id]: an id that does
    not hold the marker [_session_] leaves [req.sessionId] as it was; an
    id of the form [prefix_session_id], with no occurrence of the marker
    starting inside the prefix and none inside [id], sets it to [id]. *)
Theorem session_id_from_user_id before :
  (forall u, JS.includes "_session_" u = false ->
             sessionIdOf before (Some u) = before) /\
  (forall prefix id,
     JS.includes "_session_" (prefix ++ "_session") = false ->
     JS.includes "_session_" id = false ->
     sessionIdOf before (Some (prefix ++ "_session_" ++ id)) = Some id).
Proof.
  split.
  - intros u H. unfold sessionIdOf.
    rewrite (splitOn_absent _ _ (cut_at_absent _ _ H)).
    by destruct (JS.truthy u).
  - intros prefix id Hp Hi. unfold sessionIdOf.
    assert (JS.truthy (prefix ++ "_session_" ++ id) = true) as ->.
    { destruct prefix; reflexivity. }
    rewrite (splitOn_two "_session_" _ prefix id); [reflexivity| | |].
    + exact (cut_at_clean "_session" "_" prefix id Hp).
    + by apply cut_at_absent.
    + rewrite !length_append. cbn. lia.
Qed.

(** *** router *)

Section Routing.

Variable JSONValue : Type.
Variable encode : string -> list N.
Variable encodeThrows : string -> bool.
Variable JSON_stringify : JSONValue -> string.
Variable toLowerCase : string -> string.
Variable HOME_DIR : string.
Variable join : list string -> string.

Local Abbreviation router :=
  (Middleware.router JSONValue encode encodeThrows JSON_stringify toLowerCase
     HOME_DIR join).
Local Abbreviation activeRouter pf :=
  (RouterProps.activeRouter JSONValue HOME_DIR join (projectOf pf)
     (readConfigFile (files pf))).

Local Abbreviation rewriteSystem := (Middleware.rewriteSystem JSONValue).

(** *** The texts that are tokenized *)

Local Abbreviation calculateTokenCount :=
  (Router.calculateTokenCount JSONValue encode JSON_stringify).
Local Abbreviation encodedTexts :=
  (Middleware.encodedTexts JSONValue JSON_stringify).

Definition addTokens (acc : Z) (text : string) : Z :=
  acc + Router.tokens encode text.

Lemma fold_left_flat_map {A B} (f : Z -> B -> Z) (g : A -> list B) l acc :
  fold_left f (flat_map g l) acc
    = fold_left (fun acc x => fold_left f (g x) acc) l acc.
Proof.
  revert acc. induction l as [|x l IH]; intros acc; [reflexivity|].
  cbn [flat_map fold_left]. by rewrite fold_left_app, IH.
Qed.

Lemma fold_left_pointwise {A} (f g : Z -> A -> Z) l acc :
  (forall acc x, f acc x = g acc x) -> fold_left f l acc = fold_left g l acc.
Proof.
  intros H. revert acc. induction l as [|x l IH]; intros acc; [reflexivity|].
  cbn [fold_left]. by rewrite H, IH.
Qed.

Lemma count_part_texts acc p :
  Router.count_part JSONValue encode JSON_stringify acc p
    = fold_left addTokens (Middleware.part_texts JSONValue JSON_stringify p) acc.
Proof. by destruct p as [| |[]|]. Qed.

Lemma count_message_texts acc m :
  Router.count_message JSONValue encode JSON_stringify acc m
    = fold_left addTokens (Middleware.message_texts JSONValue JSON_stringify m) acc.
Proof.
  unfold Router.count_message, Middleware.message_texts.
  destruct (content m); [reflexivity| |reflexivity].
  rewrite fold_left_flat_map. apply fold_left_pointwise.
  intros. apply count_part_texts.
Qed.

Lemma count_system_item_texts acc item :
  Router.count_system_item encode acc item
    = fold_left addTokens (Middleware.system_item_texts item) acc.
Proof.
  unfold Router.count_system_item, Middleware.system_item_texts.
  destruct (negb _); [reflexivity|]. by destruct (sb_text item).
Qed.

Lemma count_tool_texts acc tool :
  Router.count_tool JSONValue encode JSON_stringify acc tool
    = fold_left addTokens (Middleware.tool_texts JSONValue JSON_stringify tool) acc.
Proof.
  unfold Router.count_tool, Middleware.tool_texts. rewrite fold_left_app.
  destruct (tool_description tool) as [d|]; [destruct (JS.truthy d)|];
    by destruct (tool_input_schema tool).
Qed.

(** The count is the sum of the token counts of exactly the texts
    listed by [encodedTexts]: these are the texts the tokenizer is run
    on. *)
Lemma calculateTokenCount_texts m sys t :
  calculateTokenCount m sys t = fold_left addTokens (encodedTexts m sys t) 0.
Proof.
  unfold Router.calculateTokenCount, Middleware.encodedTexts.
  rewrite !fold_left_app. cbn zeta.
  assert (match m with
          | Some ms =>
              fold_left (Router.count_message JSONValue encode JSON_stringify) ms 0
          | None => 0
          end =
          fold_left addTokens
            match m with
            | Some ms =>
                flat_map (Middleware.message_texts JSONValue JSON_stringify) ms
            | None => []
            end 0) as ->.
  { destruct m as [ms|]; [|reflexivity]. rewrite fold_left_flat_map.
    apply fold_left_pointwise, count_message_texts. }
  set (afterMessages := fold_left addTokens _ 0).
  assert (match sys with
          | SysUndefined => afterMessages
          | SysString s => afterMessages + Router.tokens encode s
          | SysArray items =>
              fold_left (Router.count_system_item encode) items afterMessages
          end =
          fold_left addTokens
            match sys with
            | SysUndefined => []
            | SysString s => [s]
            | SysArray items => flat_map Middleware.system_item_texts items
            end afterMessages) as ->.
  { destruct sys as [|text|items]; [reflexivity..|].
    rewrite fold_left_flat_map.
    apply fold_left_pointwise, count_system_item_texts. }
  destruct t as [ts|]; [|reflexivity]. rewrite fold_left_flat_map.
  apply fold_left_pointwise, count_tool_texts.
Qed.






(** X8. A second system block whose text is an array makes the
    embedded-override rule throw.  With no system-prompt rewrite and no
    custom router, for a request that names no pair, and no long-context
    target in any route configuration, the middleware does not reject: it
    logs the error and sets the model to the default of the GLOBAL route
    configuration, whether or not a project configuration is in force. *)
Theorem router_falls_back_to_global_default pf settings inc b0 b1 rest parts :
  REWRITE_SYSTEM_PROMPT settings = None ->
  CUSTOM_ROUTER_PATH settings = None ->
  JS.includes "," (model (body (request inc))) = false ->
  system (body (request inc)) = SysArray (b0 :: b1 :: rest) ->
  sb_text b1 = TextArray parts ->
  (forall req,
     JS.truthy_opt (longContext (activeRouter pf req (app settings))) = false) ->
  router pf settings inc =
    Done (sessionIdOf (sessionId (request inc)) (user_id inc))
      (default (GlobalRouter (app settings)))
      (system (body (request inc))) [MiddlewareError].
Proof.
  intros Hrw Hcr Hc Hsys Htext Hlong. unfold Middleware.router.
  unfold Middleware.rewriteSystem. rewrite Hrw.
  destruct (Middleware.countThrows _ _ _ _ _ _); [reflexivity|].
  unfold Middleware.customRoute. rewrite Hcr.
  unfold Router.getUseModel.
  cbn [withSystem body model system sessionId].
  rewrite Hc.
  match goal with
  | |- context [overThreshold ?R _ _ && JS.truthy_opt (longContext ?R)] =>
      assert (JS.truthy_opt (longContext R) = false) as ->
  end.
  { pose proof (Hlong (withSystem (request inc)
                  (sessionIdOf (sessionId (request inc)) (user_id inc))
                  (system (body (request inc))))) as H.
    unfold RouterProps.activeRouter in H. exact H. }
  rewrite andb_false_r.
  unfold Router.afterLongContext, subagentProbe.
  cbn [withSystem body model system sessionId].
  rewrite Hsys, Htext. reflexivity.
Qed.

End Routing.

(** *** searchProjectBySession *)

Section Lookup.

Variable join : list string -> string.
Variable CLAUDE_PROJECTS_DIR : string.

Local Abbreviation checkFolder := (Middleware.checkFolder join CLAUDE_PROJECTS_DIR).
Local Abbreviation scanProjects := (Middleware.scanProjects join CLAUDE_PROJECTS_DIR).

(** The path looked at inside a project folder. *)
Definition sessionFile (sessionId folderName : string) : string :=
  join [CLAUDE_PROJECTS_DIR; folderName; sessionId ++ ".jsonl"].

Lemma firstFound_some results name :
  firstFound results = Some name -> In (Some name) results /\ name <> "".
Proof.
  induction results as [|[n|] results IH]; cbn [firstFound]; [discriminate| |].
  - destruct (JS.truthy n) eqn:E.
    + intros [= ->]. split; [by left|]. by destruct name.
    + intros H. destruct (IH H). split; [by right|assumption].
  - intros H. destruct (IH H). split; [by right|assumption].
Qed.

Lemma firstFound_none results name :
  firstFound results = None -> In (Some name) results -> name = "".
Proof.
  induction results as [|[n|] results IH]; cbn [firstFound]; [by intros _ []| |].
  - destruct (JS.truthy n) eqn:E; [discriminate|].
    intros H [[= ->]|Hin]; [by destruct name|by apply IH].
  - intros H [Hin|Hin]; [discriminate|by apply IH].
Qed.

Lemma checkFolder_some fs sid folder name :
  checkFolder fs sid folder = Some name <->
  name = folder /\ stat_isFile fs (sessionFile sid folder) = Some true.
Proof.
  unfold Middleware.checkFolder, sessionFile.
  destruct (stat_isFile fs _) as [[]|]; split; try (intros [= <-]; done);
    intros [-> H]; done.
Qed.

(** X9. A scan that can list the projects directory answers with a
    folder of that directory that is a directory and holds the
    session's [.jsonl] file as a regular file; and it answers [null]
    only when no named directory of the listing holds one. *)
Theorem scan_finds_session_folder fs sid dir result :
  opendir fs CLAUDE_PROJECTS_DIR = Some dir ->
  scanProjects fs sid = Some result ->
  match result with
  | Some folder =>
      exists d, In d dir /\ d_name d = folder /\ d_isDirectory d = true /\
                stat_isFile fs (sessionFile sid folder) = Some true
  | None =>
      forall d, In d dir -> d_isDirectory d = true -> d_name d <> "" ->
                stat_isFile fs (sessionFile sid (d_name d)) <> Some true
  end.
Proof.
  intros Hdir. unfold Middleware.scanProjects. rewrite Hdir. intros [= <-].
  destruct (firstFound _) as [folder|] eqn:E.
  - apply firstFound_some in E as [Hin _].
    apply in_map_iff in Hin as (f & Hf & Hin).
    apply checkFolder_some in Hf as [-> Hstat].
    apply in_map_iff in Hin as (d & <- & Hd).
    apply filter_In in Hd as [Hd Hdirectory]. eauto.
  - intros d Hd Hdirectory Hname Hstat. apply Hname.
    apply (firstFound_none _ _ E), in_map_iff.
    exists (d_name d). split; [by apply checkFolder_some|].
    apply in_map, filter_In. auto.
Qed.

Variable Cache : Type.
Variable cache_has : string -> Cache -> bool.
Variable cache_get : string -> Cache -> option (option string) * Cache.
Variable cache_set : string -> option string -> Cache -> Cache.

Local Abbreviation searchProjectBySession :=
  (Middleware.searchProjectBySession join Cache cache_has cache_get cache_set
     CLAUDE_PROJECTS_DIR).

(** What the lookup relies on in the cache: an entry just set is there
    with its value, and reading an entry keeps it. *)
Definition cacheKeeps : Prop :=
  (forall k v c, cache_has k (cache_set k v c) = true /\
                 (cache_get k (cache_set k v c)).1 = Some v) /\
  (forall k c, cache_has k c = true ->
     cache_has k (cache_get k c).2 = true /\
     (cache_get k (cache_get k c).2).1 = (cache_get k c).1).

(** X10. Every answer is cached, found or not, failed scan included:
    asked again for the same session, the lookup gives the same answer
    without consulting the file system, whatever the file system has
    become in between. *)
Theorem second_lookup_is_cached fs fs' sid cache :
  cacheKeeps ->
  let '(answer, cache1) := searchProjectBySession fs sid cache in
  (searchProjectBySession fs' sid cache1).1 = answer.
Proof.
  intros [Hset Hget]. unfold Middleware.searchProjectBySession.
  destruct (cache_has sid cache) eqn:Hhit.
  - destruct (Hget sid cache Hhit) as [Hhas Hval].
    destruct (cache_get sid cache) as [hit cache1]. cbn [fst snd] in *.
    rewrite Hhas. destruct (cache_get sid cache1) as [hit' cache2].
    cbn [fst] in *. by rewrite Hval.
  - destruct (scanProjects fs sid) as [result|].
    + destruct (Hset sid result cache) as [Hhas Hval]. rewrite Hhas.
      destruct (cache_get sid _) as [hit cache2]. cbn [fst] in *. by rewrite Hval.
    + destruct (Hset sid None cache) as [Hhas Hval]. rewrite Hhas.
      destruct (cache_get sid _) as [hit cache2]. cbn [fst] in *. by rewrite Hval.
Qed.

End Lookup.

(** *** A sample platform

    No project is known, no file can be read, a custom router module
    cannot be loaded; the projects directory lists a file and two
    folders, the second of which holds the session; the cache is a
    finite map. *)
Module Sample.

Definition listing : list Dirent :=
  [ {| d_name := "notes.txt"; d_isDirectory := false |};
    {| d_name := "proj-a"; d_isDirectory := true |};
    {| d_name := "proj-b"; d_isDirectory := true |} ].

Definition fs : FileSystem :=
  {| opendir := fun path =>
       if String.eqb path "/home/u/.claude/projects" then Some listing else None;
     stat_isFile := fun path =>
       if String.eqb path "/home/u/.claude/projects/proj-b/s1.jsonl"
       then Some true else None;
     readConfigFile := fun _ => None |}.

(** The same machine with the projects directory gone. *)
Definition emptied : FileSystem :=
  {| opendir := fun _ => None; stat_isFile := fun _ => None;
     readConfigFile := fun _ => None |}.

Definition pf : Platform unit :=
  {| lastUsageOf := fun _ => None; readFile := fun _ => None;
     requireRouter := fun _ => None; files := fs; projectOf := fun _ => None |}.

Definition settings (custom : option string) : RouterSettings :=
  {| app := RouterProps.Sample.config None; REWRITE_SYSTEM_PROMPT := None;
     CUSTOM_ROUTER_PATH := custom |}.

(** The tokenizer throws on a text that holds this special token. *)
Definition specialToken (text : string) : bool :=
  JS.includes "<|endoftext|>" text.

Definition router :=
  Middleware.router unit RouterProps.Sample.encode specialToken
    RouterProps.Sample.JSON_stringify JS.ascii_toLowerCase
    RouterProps.Sample.HOME_DIR RouterProps.Sample.join.

Definition incoming (sys : SystemPrompt) : Incoming unit :=
  {| request :=
       {| body := {| model := "claude-sonnet-4"; messages := []; system := sys;
                     tools := None; thinking := None |};
          sessionId := None |};
     user_id := Some "user123_session_abc123" |}.

Definition cache_has (k : string) (c : gmap string (option string)) : bool :=
  bool_decide (is_Some (c !! k)).
Definition cache_get (k : string) (c : gmap string (option string))
    : option (option string) * gmap string (option string) :=
  (c !! k, c).
Definition cache_set (k : string) (v : option string)
    (c : gmap string (option string)) : gmap string (option string) :=
  <[k := v]> c.

Definition searchProjectBySession :=
  Middleware.searchProjectBySession RouterProps.Sample.join
    (gmap string (option string)) cache_has cache_get cache_set
    "/home/u/.claude/projects".

End Sample.

Lemma session_id_from_user_id_witness :
  sessionIdOf None (Some "user123_session_abc123") = Some "abc123".
Proof.
  apply (proj2 (session_id_from_user_id None) "user123" "abc123").
  - reflexivity.
  - reflexivity.
Defined.


Definition arrayText : SystemPrompt :=
  SysArray [ {| sb_type := "text"; sb_text := TextString "Base" |};
             {| sb_type := "text"; sb_text := TextArray ["a"; "b"] |} ].

Lemma router_falls_back_to_global_default_witness :
  Sample.router Sample.pf (Sample.settings None) (Sample.incoming arrayText)
  = Done (Some "abc123") "openrouter,claude-sonnet-4" arrayText [MiddlewareError].
Proof.
  apply (router_falls_back_to_global_default unit RouterProps.Sample.encode
           Sample.specialToken
           RouterProps.Sample.JSON_stringify JS.ascii_toLowerCase
           RouterProps.Sample.HOME_DIR RouterProps.Sample.join
           Sample.pf (Sample.settings None) (Sample.incoming arrayText)
           {| sb_type := "text"; sb_text := TextString "Base" |}
           {| sb_type := "text"; sb_text := TextArray ["a"; "b"] |} [] ["a"; "b"]).
  - reflexivity.
  - reflexivity.
  - reflexivity.
  - reflexivity.
  - reflexivity.
  - intros req. unfold RouterProps.activeRouter, Router.getProjectSpecificRouter.
    simpl. destruct (sessionId req) as [sid|]; [destruct (JS.truthy sid)|];
      reflexivity.
Defined.

Lemma scan_finds_session_folder_witness :
  exists d, In d Sample.listing /\ d_name d = "proj-b" /\ d_isDirectory d = true /\
    stat_isFile Sample.fs
      (sessionFile RouterProps.Sample.join "/home/u/.claude/projects" "s1" "proj-b")
    = Some true.
Proof.
  apply (scan_finds_session_folder RouterProps.Sample.join
           "/home/u/.claude/projects" Sample.fs "s1" Sample.listing (Some "proj-b")).
  - reflexivity.
  - vm_compute. reflexivity.
Defined.

Lemma sample_cacheKeeps :
  cacheKeeps (gmap string (option string)) Sample.cache_has Sample.cache_get
    Sample.cache_set.
Proof.
  split.
  - intros k v c. unfold Sample.cache_has, Sample.cache_get, Sample.cache_set.
    cbn [fst]. rewrite lookup_insert_eq. split; [|reflexivity].
    apply bool_decide_eq_true_2. eauto.
  - intros k c H. cbn [Sample.cache_get fst snd]. auto.
Qed.

Lemma second_lookup_is_cached_witness :
  let '(answer, cache1) := Sample.searchProjectBySession Sample.fs "s1" ∅ in
  (Sample.searchProjectBySession Sample.emptied "s1" cache1).1 = answer.
Proof.
  apply (second_lookup_is_cached RouterProps.Sample.join
           "/home/u/.claude/projects" (gmap string (option string))
           Sample.cache_has Sample.cache_get Sample.cache_set
           Sample.fs Sample.emptied "s1" ∅).
  exact sample_cacheKeeps.
Defined.

End MiddlewareProps.

(** ** Event codec: whole streams *)

Module SSEExtra.

Import Types SSEParser SSEProps.

Section Streams.

Variable JSON_parse : string -> option SSEData.

Local Abbreviation parseData := (SSEParser.parseData JSON_parse).
Local Abbreviation processLine := (SSEParser.processLine JSON_parse).
Local Abbreviation processLines := (SSEParser.processLines JSON_parse).
Local Abbreviation feed := (SSEParser.feed JSON_parse).
Local Abbreviation transformAll := (SSEParser.transformAll JSON_parse).
Local Abbreviation flush := (SSEParser.flush JSON_parse).
Local Abbreviation parseStream := (SSEParser.parseStream JSON_parse).

(** *** No empty event *)

Lemma processLine_nonblank line cur :
  JS.truthy (trim line) = true ->
  exists cur', forall events, processLine line events cur = (cur', events, None).
Proof.
  intros H. unfold SSEParser.processLine. rewrite H. cbn [negb].
  destruct (JS.startsWith "event:" line); [eauto|].
  destruct (JS.startsWith "data:" line); [eauto|].
  destruct (JS.startsWith "id:" line); [eauto|].
  destruct (JS.startsWith "retry:" line); eauto.
Qed.

Lemma processLine_blank line cur :
  JS.truthy (trim line) = false ->
  processLine line None cur =
    if hasKeys cur then (emptyEvent, None, Some cur) else (cur, None, None).
Proof. intros H. unfold SSEParser.processLine. by rewrite H. Qed.

Lemma processLine_returns_keyed line cur cur' events e :
  processLine line None cur = (cur', events, Some e) -> hasKeys e = true.
Proof.
  destruct (JS.truthy (trim line)) eqn:E.
  - destruct (processLine_nonblank line cur E) as [c Hc]. rewrite Hc. discriminate.
  - rewrite (processLine_blank _ _ E).
    destruct (hasKeys cur) eqn:Hk; [|discriminate]. by intros [= _ _ <-].
Qed.

Lemma processLines_keyed lines cur :
  Forall (fun e => hasKeys e = true) (processLines lines cur).2.
Proof.
  revert cur. induction lines as [|line lines IH]; intros cur; [constructor|].
  cbn [SSEParser.processLines].
  destruct (processLine line None cur) as [[c ev] r] eqn:E.
  specialize (IH c). destruct (processLines lines c) as [c' out]. cbn [snd] in *.
  destruct r as [e|]; [|exact IH].
  constructor; [|exact IH]. exact (processLine_returns_keyed _ _ _ _ _ E).
Qed.

Lemma transformAll_keyed chunks p :
  Forall (fun e => hasKeys e = true) (transformAll chunks p).2.
Proof.
  revert p. induction chunks as [|chunk chunks IH]; intros p; [constructor|].
  cbn [SSEParser.transformAll]. unfold SSEParser.transform, SSEParser.feed.
  pose proof (processLines_keyed
                (removelast (JS.split "010" (buffer p ++ decode chunk)))
                (currentEvent p)) as H.
  destruct (processLines _ _) as [c out]. cbn [snd] in H.
  match goal with |- context [transformAll chunks ?q] =>
    specialize (IH q); destruct (transformAll chunks q) as [p' out'] end.
  cbn [snd] in *. by apply Forall_app.
Qed.

Lemma processLine_pushes_keyed line cur cur' events r :
  processLine line (Some []) cur = (cur', Some events, r) ->
  Forall (fun e => hasKeys e = true) events.
Proof.
  destruct (JS.truthy (trim line)) eqn:E.
  - destruct (processLine_nonblank line cur E) as [c Hc]. rewrite Hc.
    intros [= _ <- _]. constructor.
  - unfold SSEParser.processLine. rewrite E. cbn [negb].
    destruct (hasKeys cur) eqn:Hk; intros [= _ <- _]; repeat constructor.
    exact Hk.
Qed.

Lemma flush_keyed p : Forall (fun e => hasKeys e = true) (flush p).
Proof.
  unfold SSEParser.flush.
  destruct (JS.truthy (trim (buffer p))).
  - destruct (processLine _ _ _) as [[c [events|]] r] eqn:E.
    + apply processLine_pushes_keyed in E.
      destruct (hasKeys c) eqn:Hk; [|exact E].
      apply Forall_app. split; [exact E|]. by repeat constructor.
    + destruct (hasKeys c) eqn:Hk; repeat constructor. exact Hk.
  - destruct (hasKeys (currentEvent p)) eqn:Hk; repeat constructor. exact Hk.
Qed.

(** X11. Whatever bytes arrive and however they are cut, every event the
    parser emits has at least one of its fields set: blank lines close
    events, they never produce one. *)
Theorem no_empty_event chunks :
  Forall (fun e => hasKeys e = true) (parseStream chunks).
Proof.
  unfold SSEParser.parseStream.
  pose proof (transformAll_keyed chunks initial) as H.
  destruct (transformAll chunks initial) as [p out]. cbn [snd] in H.
  apply Forall_app. split; [exact H|apply flush_keyed].
Qed.

(** *** One event block *)

Lemma event_line n :
  "event:" ++ n =
  String "e" (String "v" (String "e" (String "n" (String "t" (String ":" n))))).
Proof. reflexivity. Qed.

Lemma trimStart_e s : trimStart (String "e" s) = String "e" s.
Proof. destruct s as [|b [|c s]]; reflexivity. Qed.

Lemma event_line_not_blank n : JS.truthy (trim ("event:" ++ n)) = true.
Proof.
  rewrite event_line. unfold trim. rewrite trimStart_e.
  cbn [trimEnd]. unfold blank. rewrite trimStart_e. reflexivity.
Qed.

Lemma oneLine_event n : oneLine "010" n -> oneLine "010" ("event:" ++ n).
Proof. unfold oneLine. intros H. rewrite event_line. cbn. by rewrite H. Qed.

Lemma processLine_event n cur events :
  processLine ("event:" ++ n) events cur =
    ({| event := Some (trim n); data := data cur; id := id cur;
        retry := retry cur |}, events, None).
Proof.
  unfold SSEParser.processLine. rewrite event_line_not_blank.
  rewrite event_line. reflexivity.
Qed.

Lemma processLine_data r cur events :
  processLine ("data:" ++ r) events cur =
    ({| event := event cur; data := Some (parseData (trim r)); id := id cur;
        retry := retry cur |}, events, None).
Proof.
  destruct (data_line_prefix r) as (He & Hd & Hs).
  unfold SSEParser.processLine.
  by rewrite data_line_not_blank, He, Hd, Hs.
Qed.

(** The text of a block: an [event:] line, a [data:] line, a blank line. *)
Definition block (n r : string) : string :=
  ("event:" ++ n) ++ NL ++ ("data:" ++ r) ++ NL ++ NL.

(** X12. A stream whose chunks decode to one block - a line
    [event:<n>], a line [data:<r>], a blank line - parses to exactly one
    event, named by [n] trimmed and carrying the payload of [r] trimmed:
    the terminator sentinel for [[DONE]], what [JSON.parse] returns, or
    the raw text tagged as a parse failure. *)
Theorem one_block_one_event chunks n r :
  oneLine "010" n -> oneLine "010" r ->
  concatText (map decode chunks) = block n r ->
  parseStream chunks =
    [ {| event := Some (trim n); data := Some (parseData (trim r));
         id := None; retry := None |} ].
Proof.
  intros Hn Hr Htext. unfold SSEParser.parseStream.
  rewrite transformAll_feed, Htext by reflexivity.
  unfold SSEParser.feed, block, NL. cbn [buffer currentEvent initial].
  change ("" ++ ?x) with x.
  repeat change (String "010" "" ++ ?x) with (String "010" x).
  rewrite (oneLine_then_separator _ _ _ (oneLine_event _ Hn)).
  rewrite (oneLine_then_separator _ _ _ (oneLine_data _ Hr)).
  cbn [JS.split Ascii.eqb Bool.eqb removelast List.last SSEParser.processLines].
  rewrite processLine_event, processLine_data.
  cbn [event data id retry emptyEvent].
  rewrite processLine_blank by reflexivity.
  reflexivity.
Qed.

(** *** The end of the stream *)

(** The unfinished last line of a text. *)
Definition lastLine (t : string) : string := List.last (JS.split "010" t) "".

Lemma concatText_app l1 l2 :
  concatText (l1 ++ l2) = concatText l1 ++ concatText l2.
Proof.
  induction l1 as [|t l1 IH]; [reflexivity|].
  cbn [app concatText]. by rewrite IH, append_assoc.
Qed.

Lemma feed_initial_buffer t : buffer (feed t initial).1 = lastLine t.
Proof.
  unfold SSEParser.feed, lastLine. cbn [buffer currentEvent initial].
  change ("" ++ t) with t. by destruct (processLines _ _).
Qed.

(** X13. A stream may end without the blank line that closes its last
    event.  When the unfinished last line carries no white space at
    either end, the events are those of the same stream followed by a
    chunk holding the missing line end and the blank line: nothing is
    dropped, nothing is added. *)
Theorem unterminated_stream chunks :
  let t := concatText (map decode chunks) in
  trim (lastLine t) = lastLine t ->
  parseStream (chunks ++ [bytesOf (NL ++ NL)]) = parseStream chunks.
Proof.
  intros t Htrim. unfold SSEParser.parseStream.
  rewrite !transformAll_feed by reflexivity.
  rewrite map_app, concatText_app. fold t.
  assert (concatText (map decode [bytesOf (NL ++ NL)]) = NL ++ NL) as ->
    by reflexivity.
  rewrite feed_app.
  pose proof (feed_initial_buffer t) as Hbuf.
  pose proof (feed_clean JSON_parse t initial) as Hclean.
  destruct (feed t initial) as [[buf cur] out]. cbn [fst buffer] in *. subst buf.
  unfold clean in Hclean. cbn [buffer] in Hclean.
  unfold SSEParser.feed at 1. cbn [buffer currentEvent]. unfold NL.
  repeat change (String "010" "" ++ ?x) with (String "010" x).
  rewrite (oneLine_then_separator _ _ _ Hclean).
  cbn [JS.split Ascii.eqb Bool.eqb removelast List.last SSEParser.processLines].
  unfold SSEParser.flush at 2. cbn [buffer currentEvent]. rewrite Htrim.
  destruct (JS.truthy (lastLine t)) eqn:Hblank.
  - assert (JS.truthy (trim (lastLine t)) = true) as Ht by by rewrite Htrim.
    destruct (processLine_nonblank (lastLine t) cur Ht) as [c Hc].
    rewrite !Hc. rewrite processLine_blank by reflexivity.
    unfold SSEParser.flush.
    destruct (hasKeys c) eqn:Hk; cbn; rewrite ?Hk, ?app_nil_r; reflexivity.
  - assert (JS.truthy (trim (lastLine t)) = false) as Ht by by rewrite Htrim.
    rewrite (processLine_blank _ _ Ht). unfold SSEParser.flush.
    destruct (hasKeys cur) eqn:Hk.
    + rewrite processLine_blank by reflexivity. cbn. by rewrite app_nil_r.
    + rewrite processLine_blank by reflexivity. rewrite Hk. cbn.
      by rewrite Hk, !app_nil_r.
Qed.

End Streams.

(** One block, cut in the middle of a word. *)
Lemma one_block_one_event_witness :
  SSEParser.parseStream rejectAll
    [ bytesOf ("event: content_block_st");
      bytesOf ("art" ++ NL ++ "data: [DONE]" ++ NL ++ NL) ]
  = [ {| event := Some "content_block_start"; data := Some Done;
         id := None; retry := None |} ].
Proof.
  apply (one_block_one_event rejectAll _ " content_block_start" " [DONE]").
  - reflexivity.
  - reflexivity.
  - reflexivity.
Defined.

Lemma unterminated_stream_witness :
  SSEParser.parseStream rejectAll
    [ bytesOf ("event: message_stop" ++ NL ++ "data: [DONE]");
      bytesOf (NL ++ NL) ]
  = SSEParser.parseStream rejectAll
      [ bytesOf ("event: message_stop" ++ NL ++ "data: [DONE]") ].
Proof.
  apply (unterminated_stream rejectAll
           [ bytesOf ("event: message_stop" ++ NL ++ "data: [DONE]") ]).
  reflexivity.
Defined.

End SSEExtra.

(** ** Stream rewriter, whole runs *)

Module RewriteExtra.

Import Streams RewriteStream RewriteProps.

(** The output accepts chunks: it is readable and no close was asked. *)
Definition open {B} (o : Output B) : Prop := canCloseOrEnqueue (ctl o) = true.

Lemma consumerStep_open {B} a (c : Controller B) :
  a <> Cancel -> canCloseOrEnqueue c = true ->
  canCloseOrEnqueue (consumerStep a c) = true.
Proof.
  unfold canCloseOrEnqueue. intros Ha.
  destruct a, c as [[] [] [|q] em]; cbn; congruence.
Qed.

Lemma enqueue_open {B} (x : B) (c : Controller B) :
  canCloseOrEnqueue c = true ->
  exists c', enqueue x c = Some c' /\ canCloseOrEnqueue c' = true /\
             emitted c' = (emitted c ++ [x])%list.
Proof.
  intros H. unfold enqueue. rewrite H. eexists. split; [reflexivity|].
  split; [|reflexivity]. unfold canCloseOrEnqueue in *. exact H.
Qed.

Lemma close_open {B} (c : Controller B) :
  canCloseOrEnqueue c = true ->
  exists c', close c = Some c' /\ closeRequested c' = true /\
             state c' <> Errored /\ emitted c' = emitted c.
Proof.
  intros H. unfold close. rewrite H. eexists. split; [reflexivity|].
  cbn. repeat split. by destruct (queued c).
Qed.

Lemma error_open {B} (c : Controller B) :
  canCloseOrEnqueue c = true ->
  state (error c) = Errored /\ closeRequested (error c) = false.
Proof.
  unfold canCloseOrEnqueue, error. destruct c as [[] [] q em]; cbn; by try discriminate.
Qed.

Section Pure.

Variables (A B St : Type).
Variable consumer : nat -> ConsumerAction.
Variable processor : A -> St -> Output B -> St * Output B * Completion (option B).

Local Abbreviation loop := (RewriteStream.loop A B St consumer processor).
Local Abbreviation rewriteStream :=
  (RewriteStream.rewriteStream A B St consumer processor).

(** The consumer may read or wait, but does not cancel. *)
Definition patient : Prop := forall t, consumer t <> Cancel.

(** In state [s0] and on the items of [items], the step function returns
    what [g] says and leaves its state and the output alone. *)
Definition answers (s0 : St) (g : A -> option B) (items : list A) : Prop :=
  Forall (fun v => forall o, processor v s0 o = (s0, o, Return (g v))) items.

Lemma await_open (o : Output B) : patient -> open o -> open (await consumer o).
Proof. intros Hp Ho. apply consumerStep_open; [apply Hp|exact Ho]. Qed.

Lemma loop_prefix s0 g pre rest ending o n :
  patient -> answers s0 g pre -> open o ->
  exists o',
    loop (pre ++ rest) ending s0 o n = loop rest ending s0 o' (n + length pre) /\
    open o' /\ emitted (ctl o') = (emitted (ctl o) ++ omap g pre)%list.
Proof.
  intros Hp Ha. revert o n.
  induction Ha as [|v pre Hv _ IH]; intros o n Ho.
  - exists o. rewrite Nat.add_0_r, app_nil_r. auto.
  - cbn [app RewriteStream.loop]. rewrite Hv.
    pose proof (await_open _ Hp (await_open _ Hp Ho)) as Ho2.
    cbn [omap list_omap length]. destruct (g v) as [y|].
    + destruct (enqueue_open y _ Ho2) as (c & -> & Hc & Hem).
      destruct (IH (withCtl (await consumer (await consumer o)) c) (S n) Hc)
        as (o' & -> & Ho' & Hem').
      exists o'. split; [f_equal; lia|]. split; [exact Ho'|].
      rewrite Hem'. cbn [withCtl ctl]. rewrite Hem, !await_emitted.
      by rewrite <- app_assoc.
    + destruct (IH _ (S n) Ho2) as (o' & -> & Ho' & Hem').
      exists o'. split; [f_equal; lia|]. split; [exact Ho'|].
      by rewrite Hem', !await_emitted.
Qed.

(** A property of the step function's state that every step keeps holds
    of the state the run ends with. *)
Lemma loop_invariant (P : St -> Prop) src ending s o n :
  (forall v s o, P s -> P (processor v s o).1.1) ->
  P s -> P (final (loop src ending s o n)).
Proof.
  intros Hstep. revert s o n.
  induction src as [|v src IH]; intros s o n Hs; cbn [RewriteStream.loop].
  - destruct ending; [exact Hs|]. destruct (close _); exact Hs.
  - pose proof (Hstep v s (await consumer o) Hs) as Hs'.
    destruct (processor v s (await consumer o)) as [[s' o'] [[y|]|e]];
      cbn [fst] in Hs'.
    + destruct (enqueue _ _); [by apply IH|exact Hs'].
    + by apply IH.
    + exact Hs'.
Qed.

(** X14. With a step function that only maps or drops items and a
    consumer that does not cancel, the output carries, in the order of
    the source, the image of every item that was not dropped; it is then
    closed; the source was read once per item and once for its end. *)
Theorem pure_step_maps_source s0 g src :
  patient -> answers s0 g src ->
  let r := rewriteStream src None s0 in
  emitted (ctl (output r)) = omap g src /\
  closeRequested (ctl (output r)) = true /\
  state (ctl (output r)) <> Errored /\
  reads r = S (length src) /\ final r = s0 /\ released r = true.
Proof.
  intros Hp Ha r. subst r. unfold RewriteStream.rewriteStream.
  destruct (loop_prefix s0 g src [] None newOutput 0 Hp Ha eq_refl)
    as (o' & Hrun & Ho' & Hem).
  rewrite app_nil_r in Hrun. rewrite Hrun. cbn [RewriteStream.loop].
  destruct (close_open _ (await_open _ Hp Ho')) as (c & -> & Hcr & Hst & Hem').
  cbn [output reads final released withCtl ctl].
  rewrite Hem', await_emitted, Hem. repeat split; auto.
Qed.

(** X15. Whatever the step function, the consumer and the source do, the
    reader's lock is released when the run is over, the source was read
    at least once, and never more often than it has items plus once. *)
Theorem reader_is_released src ending s0 :
  let r := rewriteStream src ending s0 in
  released r = true /\ (1 <= reads r <= length src + 1)%nat.
Proof.
  intros r. subst r. unfold RewriteStream.rewriteStream. split.
  - apply loop_released.
  - pose proof (loop_reads_bound A B St consumer processor src ending s0
                  newOutput 0). lia.
Qed.

(** X16. When the step function throws on an item, the run ends there:
    the output has the images of the items before it and is errored, the
    items after it are never read, and the lock is released. *)
Theorem step_error_stops_stream s0 s1 g pre v post ending e :
  patient -> answers s0 g pre ->
  (forall o, processor v s0 o = (s1, o, Throw e)) ->
  let r := rewriteStream (pre ++ v :: post) ending s0 in
  emitted (ctl (output r)) = omap g pre /\
  state (ctl (output r)) = Errored /\
  reads r = S (length pre) /\ final r = s1 /\ released r = true.
Proof.
  intros Hp Ha Hv r. subst r. unfold RewriteStream.rewriteStream.
  destruct (loop_prefix s0 g pre (v :: post) ending newOutput 0 Hp Ha eq_refl)
    as (o' & -> & Ho' & Hem).
  cbn [RewriteStream.loop]. rewrite Hv. unfold fail.
  cbn [output reads final released withCtl ctl].
  pose proof (await_open _ Hp (await_open _ Hp Ho')) as Ho2.
  destruct (error_open _ Ho2) as [Hst _].
  rewrite error_emitted, !await_emitted, Hem. repeat split; auto.
Qed.

(** X17. When the source fails after its last item, every item has gone
    through the step function before the output is errored; no close is
    asked of it. *)
Theorem source_error_errors_output s0 g src e :
  patient -> answers s0 g src ->
  let r := rewriteStream src (Some e) s0 in
  emitted (ctl (output r)) = omap g src /\
  state (ctl (output r)) = Errored /\
  closeRequested (ctl (output r)) = false /\
  reads r = S (length src) /\ final r = s0.
Proof.
  intros Hp Ha r. subst r. unfold RewriteStream.rewriteStream.
  destruct (loop_prefix s0 g src [] (Some e) newOutput 0 Hp Ha eq_refl)
    as (o' & Hrun & Ho' & Hem).
  rewrite app_nil_r in Hrun. rewrite Hrun. cbn [RewriteStream.loop].
  unfold fail. cbn [output reads final released withCtl ctl].
  destruct (error_open _ (await_open _ Hp Ho')) as [Hst Hcr].
  rewrite error_emitted, await_emitted, Hem. repeat split; auto.
Qed.

End Pure.

(** A step function over numbers that keeps the even ones, halved, and one
    that gives up on a given number. *)
Definition halve (x : nat) : option nat :=
  if Nat.even x then Some (Nat.div2 x) else None.

Definition halving (x : nat) (s : unit) (o : Output nat)
    : unit * Output nat * Completion (option nat) :=
  (s, o, Return (halve x)).

Definition failingAt (k x : nat) (s : unit) (o : Output nat)
    : unit * Output nat * Completion (option nat) :=
  (s, o, if Nat.eqb x k then Throw TypeError else Return (Some x)).

Lemma stalled_patient : patient stalled.
Proof. intros t. discriminate. Qed.

Lemma pure_step_maps_source_witness :
  let r := rewriteStream nat nat unit stalled halving [4; 5; 6]%nat None tt in
  emitted (ctl (output r)) = [2; 3]%nat /\
  closeRequested (ctl (output r)) = true /\
  state (ctl (output r)) <> Errored /\
  reads r = 4%nat /\ final r = tt /\ released r = true.
Proof.
  apply (pure_step_maps_source nat nat unit stalled halving tt halve
           [4; 5; 6]%nat stalled_patient).
  repeat constructor.
Defined.

Lemma step_error_stops_stream_witness :
  let r := rewriteStream nat nat unit stalled (failingAt 7)
             [1; 2; 7; 8]%nat None tt in
  emitted (ctl (output r)) = [1; 2]%nat /\
  state (ctl (output r)) = Errored /\
  reads r = 3%nat /\ final r = tt /\ released r = true.
Proof.
  apply (step_error_stops_stream nat nat unit stalled (failingAt 7) tt tt Some
           [1; 2]%nat 7%nat [8]%nat None TypeError stalled_patient).
  - repeat constructor.
  - reflexivity.
Defined.

Lemma source_error_errors_output_witness :
  let r := rewriteStream nat nat unit stalled halving [4; 5; 6]%nat
             (Some TypeError) tt in
  emitted (ctl (output r)) = [2; 3]%nat /\
  state (ctl (output r)) = Errored /\
  closeRequested (ctl (output r)) = false /\
  reads r = 4%nat /\ final r = tt.
Proof.
  apply (source_error_errors_output nat nat unit stalled halving tt halve
           [4; 5; 6]%nat TypeError stalled_patient).
  repeat constructor.
Defined.

End RewriteExtra.

(** ** Tool-call interceptor, whole streams *)

Module InterceptorExtra.

Import Types Streams Interceptor RewriteStream RewriteProps InterceptorProps
  RewriteExtra.

Section Props.

Variables (M Args : Type).
Variable getAgent : string -> option (IAgent M Args).
Variable JSON5_parse : string -> option Args.
Variable JSON_parse : string -> option SSEData.
Variable fetch : nat -> list (BodyMessage M Args) -> FetchResult.
Variable consumer : nat -> ConsumerAction.
Variable agents : list string.

Local Abbreviation detectToolCallStart :=
  (Interceptor.detectToolCallStart M Args getAgent agents).
Local Abbreviation runTool := (Interceptor.runTool M Args JSON5_parse consumer).
Local Abbreviation executeAgentTool :=
  (Interceptor.executeAgentTool M Args JSON5_parse consumer).
Local Abbreviation pipeResponseToController :=
  (Interceptor.pipeResponseToController M Args consumer).
Local Abbreviation fetchToolResponse :=
  (Interceptor.fetchToolResponse M Args JSON_parse fetch consumer).
Local Abbreviation processor :=
  (Interceptor.processor M Args getAgent JSON5_parse JSON_parse fetch
     consumer agents).
Local Abbreviation processEvents :=
  (Interceptor.processEvents M Args getAgent JSON5_parse JSON_parse fetch
     consumer agents).
Local Abbreviation bodyEvents := (Interceptor.bodyEvents JSON_parse).

Implicit Types (s : Session M Args) (o : Output ParsedSSEEvent)
  (state : AgentToolState M Args) (ev : ParsedSSEEvent).

(** *** When the step function throws *)

Lemma indexMatches_throws ev state e :
  indexMatches ev state = Throw e -> data ev = None /\ e = TypeError.
Proof.
  unfold indexMatches. destruct (data ev); [discriminate|].
  by intros [= <-].
Qed.

Lemma collect_throws ev state e :
  collectToolArguments ev state = Throw e ->
  toolInProgress state = true /\ data ev = None /\ e = TypeError.
Proof.
  unfold collectToolArguments.
  destruct (toolInProgress state); [|discriminate].
  destruct (indexMatches ev state) as [[]|e'] eqn:Ei.
  - destruct (data ev ≫= dataDelta) as [d|]; [|discriminate].
    destruct (String.eqb _ _); discriminate.
  - discriminate.
  - intros [= <-]. split; [reflexivity|]. by apply indexMatches_throws in Ei.
Qed.

Lemma execute_throws ev s o s' o' e :
  executeAgentTool ev s o = (s', o', Throw e) ->
  toolInProgress (tool s) = true /\ data ev = None /\ e = TypeError.
Proof.
  unfold Interceptor.executeAgentTool.
  destruct (toolInProgress (tool s)); [|discriminate].
  destruct (indexMatches ev (tool s)) as [[]|e'] eqn:Ei.
  - destruct (bool_decide _); [|discriminate].
    destruct (runTool s o). discriminate.
  - discriminate.
  - intros [= <- <- <-]. split; [reflexivity|]. by apply indexMatches_throws in Ei.
Qed.

Lemma without_payload ev s o :
  toolInProgress (tool s) = true -> data ev = None ->
  processor ev s o = (logError s (Unexpected TypeError), o, Throw TypeError).
Proof.
  intros Hp Hd. unfold Interceptor.processor, Interceptor.detectToolCallStart,
    collectToolArguments, indexMatches.
  rewrite Hd, Hp. reflexivity.
Qed.

(** X18. The step function throws in one situation only: a tool call is
    in progress and the event has no payload.  What it throws then is
    the [TypeError] of reading [index] off the missing payload, after
    logging it; the output is not touched. *)
Theorem step_throws_without_payload ev s o :
  (toolInProgress (tool s) = true /\ data ev = None <->
   exists s' o' e, processor ev s o = (s', o', Throw e)) /\
  (forall s' o' e,
     processor ev s o = (s', o', Throw e) ->
     e = TypeError /\ o' = o /\ s' = logError s (Unexpected TypeError)).
Proof.
  assert (forall s' o' e, processor ev s o = (s', o', Throw e) ->
                          toolInProgress (tool s) = true /\ data ev = None)
    as Honly.
  { intros s' o' e. unfold Interceptor.processor.
    destruct (detectToolCallStart ev (tool s)) as [[] state]; [discriminate|].
    destruct (collectToolArguments ev (tool s)) as [[[] state']|e0] eqn:Ec;
      [discriminate| |].
    - destruct (executeAgentTool ev s o) as [[s1 o1] [[]|e1]] eqn:Ee;
        [discriminate| |].
      + destruct (_ && _); [|discriminate].
        destruct (fetchToolResponse s1 o1). discriminate.
      + intros _. apply execute_throws in Ee. tauto.
    - intros _. apply collect_throws in Ec. tauto. }
  split; [split|].
  - intros [Hp Hd]. eexists _, _, _. by apply without_payload.
  - intros (s' & o' & e & H). by eapply Honly.
  - intros s' o' e H. destruct (Honly _ _ _ H) as [Hp Hd].
    rewrite (without_payload _ _ _ Hp Hd) in H. by injection H as <- <- <-.
Qed.

(** *** Requests whose agents register nothing *)

(** No agent the request lists registers a tool, whatever its name. *)
Definition unregistered : Prop :=
  forall name,
    JS.find (Interceptor.registers M Args getAgent name) agents = None.

(** No tool call is in progress and no tool result is on record. *)
Definition idle s : Prop :=
  toolInProgress (tool s) = false /\ toolMessages (tool s) = [].

Lemma idle_passes ev s o :
  unregistered -> idle s -> processor ev s o = (s, o, Return (Some ev)).
Proof.
  intros Hu [Hp Hr]. unfold Interceptor.processor.
  assert (detectToolCallStart ev (tool s) = (false, tool s)) as ->.
  { unfold Interceptor.detectToolCallStart.
    destruct (data ev ≫= dataContentBlock) as [block|]; [|reflexivity].
    destruct (cb_name block) as [toolName|]; [|reflexivity].
    rewrite Hu. by destruct (_ && _). }
  rewrite (collect_skips _ _ _ _ (or_introl Hp)).
  rewrite (execute_skips _ _ _ _ _ _ o (or_introl Hp)).
  rewrite Hr. cbn [length Nat.eqb negb]. rewrite andb_false_r. reflexivity.
Qed.

Lemma omap_Some {X} (l : list X) : omap Some l = l.
Proof. induction l as [|x l IH]; [reflexivity|]. cbn. by rewrite IH. Qed.

(** X19. When none of the request's agents registers a tool, the
    interceptor is transparent: with a consumer that does not cancel,
    the output carries every event of the model's response, in order and
    unchanged, and is then closed; no request is posted, nothing is
    logged, and the tool state stays as created. *)
Theorem unregistered_tools_pass_through events messages :
  unregistered -> patient consumer ->
  let r := processEvents events None messages in
  emitted (ctl (output r)) = events /\
  closeRequested (ctl (output r)) = true /\
  reads r = S (length events) /\
  final r = newSession M Args messages.
Proof.
  intros Hu Hp r. subst r.
  unfold Interceptor.processEvents, RewriteStream.rewriteStream.
  assert (answers _ _ _ processor (newSession M Args messages) Some events) as Ha.
  { apply Forall_forall. intros ev _ o. by apply idle_passes. }
  destruct (loop_prefix _ _ _ consumer processor _ Some events [] None
              newOutput 0 Hp Ha eq_refl) as (o' & Hrun & Ho' & Hem).
  rewrite app_nil_r in Hrun. rewrite Hrun. cbn [RewriteStream.loop].
  destruct (close_open _ (await_open _ _ _ Hp Ho')) as (c & -> & Hcr & _ & Hem').
  cbn [output reads final released withCtl ctl].
  rewrite Hem', await_emitted, Hem, omap_Some. repeat split; auto.
Qed.

(** *** Tool results and tool uses *)

(** The ids of the recorded tool results occur, in order, among the ids
    of the recorded tool uses. *)
Definition answered state : Prop :=
  sublist (map tool_use_id (toolMessages state))
          (map (@tu_id Args) (assistantMessages state)).

Lemma runTool_answered s o :
  answered (tool s) -> answered (tool (runTool s o).1).
Proof.
  unfold answered, Interceptor.runTool. intros H.
  destruct (JSON5_parse _) as [args|]; [|exact H].
  destruct (mbind _ _) as [t|]; [destruct (handler t args _) as [args' []]|];
    cbn [fst tool withTool logError toolMessages assistantMessages pushTool
         pushAssistant currentToolId];
    rewrite ?map_app; cbn [map tool_use_id tu_id].
  - by apply sublist_app.
  - by apply sublist_inserts_r.
  - by apply sublist_app.
Qed.

Lemma detect_same_records ev state :
  toolMessages (detectToolCallStart ev state).2 = toolMessages state /\
  assistantMessages (detectToolCallStart ev state).2 = assistantMessages state.
Proof.
  unfold Interceptor.detectToolCallStart.
  repeat match goal with
         | |- context [match ?x with _ => _ end] => destruct x
         end; by split.
Qed.

Lemma collect_same_records ev state b state' :
  collectToolArguments ev state = Return (b, state') ->
  toolMessages state' = toolMessages state /\
  assistantMessages state' = assistantMessages state.
Proof.
  unfold collectToolArguments.
  repeat match goal with
         | |- context [match ?x with _ => _ end] => destruct x
         end; intros [= <- <-] || discriminate; by split.
Qed.

Lemma processor_answered ev s o :
  answered (tool s) -> answered (tool (processor ev s o).1.1).
Proof.
  intros H. unfold Interceptor.processor.
  pose proof (detect_same_records ev (tool s)) as [Hd1 Hd2].
  destruct (detectToolCallStart ev (tool s)) as [[] state] eqn:Ed.
  { cbn [fst snd tool withTool] in *. unfold answered. by rewrite Hd1, Hd2. }
  destruct (collectToolArguments ev (tool s)) as [[[] state']|e] eqn:Ec.
  - cbn [fst tool withTool].
    destruct (collect_same_records _ _ _ _ Ec) as [Hc1 Hc2].
    unfold answered. by rewrite Hc1, Hc2.
  - assert (answered (tool (executeAgentTool ev s o).1.1)) as He.
    { unfold Interceptor.executeAgentTool.
      destruct (toolInProgress _); [|exact H].
      destruct (indexMatches _ _) as [[]|]; try exact H.
      destruct (bool_decide _); [|exact H].
      pose proof (runTool_answered s o H) as Hr.
      destruct (runTool s o) as [s' o']. exact Hr. }
    destruct (executeAgentTool ev s o) as [[s' o'] [[]|e]]; cbn [fst] in *.
    + exact He.
    + destruct (_ && _); [|exact He].
      destruct (fetchToolResponse_spec _ _ JSON_parse fetch consumer s' o')
        as (s2 & o2 & _ & _ & Hrun & Ht & _).
      rewrite Hrun. cbn [fst]. by rewrite Ht.
    + by rewrite recover_tool.
  - by rewrite recover_tool.
Qed.

(** X20. At the end of any response stream, whatever its events, its end
    and the consumer, every recorded tool result answers a recorded tool
    use: the ids of the results occur in the same order among the ids of
    the uses, so there are never more results than uses. *)
Theorem results_answer_recorded_uses events ending messages :
  let state := tool (final (processEvents events ending messages)) in
  answered state /\
  (length (toolMessages state) <= length (assistantMessages state))%nat.
Proof.
  intros state.
  assert (answered state) as H.
  { subst state. unfold Interceptor.processEvents, RewriteStream.rewriteStream.
    apply (loop_invariant _ _ _ consumer processor (fun s => answered (tool s))).
    - intros v s o. apply processor_answered.
    - apply sublist_nil_l. }
  split; [exact H|]. apply sublist_length in H. by rewrite !length_map in H.
Qed.

(** *** Backpressure while a continuation is piped *)

Lemma await_wait o : (forall t, consumer t = Wait) -> ctl (await consumer o) = ctl o.
Proof. intros Hw. unfold await. cbn [ctl]. by rewrite Hw. Qed.

(** X21. While a continuation is piped to a consumer that has stopped
    reading, the desired size is tested against zero only.  With nothing
    waiting in the output, the first inner event is forwarded and the
    reading stops; with one chunk waiting nothing is forwarded; with two or
    more waiting the desired size is negative, which is not zero, and
    every inner event is forwarded. *)
Theorem backpressure_stops_at_zero_only events ending s o :
  (forall t, consumer t = Wait) -> open o ->
  exists s' o' thrown,
    pipeResponseToController events ending s o = (s', o', thrown) /\
    emitted (ctl o') =
      (emitted (ctl o) ++
       match queued (ctl o) with
       | O => take 1 (inner events)
       | S O => []
       | S (S _) => inner events
       end)%list.
Proof.
  intros Hw. revert s o. induction events as [|value events IH]; intros s o Ho.
  - cbn [Interceptor.pipeResponseToController].
    destruct ending as [e|]; [destruct (cancellation e)|];
      eexists _, _, _; (split; [reflexivity|]);
      rewrite await_emitted, inner_nil;
      destruct (queued (ctl o)) as [|[|q]]; cbn [take]; by rewrite app_nil_r.
  - cbn [Interceptor.pipeResponseToController].
    assert (open (await consumer o)) as Ho1
      by (unfold open; by rewrite await_wait).
    unfold inner. cbn [List.filter]. fold (inner events).
    destruct (envelope value) eqn:Eenv; cbn [negb].
    + destruct (IH s _ Ho1) as (s' & o' & th & -> & Hem).
      exists s', o', th. split; [reflexivity|].
      by rewrite Hem, await_emitted, await_wait.
    + rewrite (await_wait o Hw).
      destruct (enqueue_open value (ctl o) Ho) as (c & Hc & Hoc & Hemc).
      assert (queued c = S (queued (ctl o))) as Hq.
      { unfold enqueue in Hc. rewrite Ho in Hc. by injection Hc as <-. }
      assert (state (ctl o) = Readable) as Hst.
      { unfold open, canCloseOrEnqueue in Ho. by destruct (state (ctl o)). }
      unfold desiredSize. rewrite Hst. cbn [truthy].
      destruct (queued (ctl o)) as [|[|q]] eqn:Eq.
      * cbn [negb Z.eqb Z.of_nat highWaterMark Z.sub Z.add Z.opp Z.pos_sub].
        rewrite Hc.
        destruct (IH s (withCtl (await consumer o) c) Hoc)
          as (s' & o' & th & -> & Hem).
        exists s', o', th. split; [reflexivity|].
        rewrite Hem. cbn [withCtl ctl]. rewrite Hq, Hemc, app_nil_r.
        by cbn [take].
      * eexists _, _, _. split; [reflexivity|].
        by rewrite await_emitted, app_nil_r.
      * assert ((highWaterMark - Z.of_nat (S (S q)) =? 0) = false) as ->
          by (apply Z.eqb_neq; unfold highWaterMark; lia).
        cbn [negb]. rewrite Hc.
        destruct (IH s (withCtl (await consumer o) c) Hoc)
          as (s' & o' & th & -> & Hem).
        exists s', o', th. split; [reflexivity|].
        rewrite Hem. cbn [withCtl ctl]. rewrite Hq, Hemc.
        by rewrite <- app_assoc.
Qed.

(** *** A continuation whose body fails *)

Lemma pipe_reaches_end events ending s o :
  keepsUp consumer o ->
  exists o',
    pipeResponseToController events ending s o =
      (match ending with
       | Some e => if cancellation e then abort s else s
       | None => s
       end, o',
       match ending with
       | Some e => if cancellation e then None else Some e
       | None => None
       end) /\
    emitted (ctl o') = (emitted (ctl o) ++ inner events)%list.
Proof.
  revert s o. induction events as [|value events IH]; intros s o Hk.
  - cbn [Interceptor.pipeResponseToController].
    destruct ending as [e|]; [destruct (cancellation e)|];
      eexists; (split; [reflexivity|]);
      by rewrite await_emitted, inner_nil, app_nil_r.
  - cbn [Interceptor.pipeResponseToController].
    destruct (keepsUp_await consumer o Hk) as [Hk' Hq].
    destruct (envelope value) eqn:Eenv.
    + destruct (IH s _ Hk') as (o' & Hrun & Hem).
      exists o'. rewrite Hrun, Hem, await_emitted.
      unfold inner. cbn [List.filter]. rewrite Eenv. split; reflexivity.
    + destruct (keepsUp_enqueue consumer _ value Hk' Hq) as (Hds & c & Eq & Hk'').
      rewrite Hds, Eq. cbn [negb].
      destruct (IH s _ Hk'') as (o' & Hrun & Hem).
      exists o'. rewrite Hrun, Hem. cbn [withCtl ctl].
      rewrite (enqueue_emitted _ _ _ Eq), await_emitted.
      unfold inner. cbn [List.filter]. rewrite Eenv. cbn [negb].
      rewrite <- app_assoc. split; reflexivity.
Qed.

(** X22. The body of a continuation fails while it is read by a
    consumer that keeps up.  Every inner event parsed from complete lines
    before the failure has reached the output, and nothing is thrown.
    For an abort or a premature close the abort flag is raised and
    nothing is logged; for any other error the flag is left alone and the
    error is logged once as a failed fetch. *)
Theorem continuation_read_error s o status chunks e :
  fetch (length (requests s)) (continuationBody s)
    = Response true status chunks (Some e) ->
  keepsUp consumer o ->
  exists s' o',
    fetchToolResponse s o = (s', o') /\
    aborted s' = aborted s || cancellation e /\
    console s' =
      (console s ++ if cancellation e then [] else [FetchFailed e])%list /\
    emitted (ctl o') =
      (emitted (ctl o) ++ inner (bodyEvents chunks (Some e)))%list.
Proof.
  intros Hf Hk. unfold Interceptor.fetchToolResponse.
  set (s1 := pushHistory s [AssistantAlias; UserAlias]).
  assert (bodyMessages s1 = continuationBody s) as Hbody.
  { unfold bodyMessages, continuationBody, s1. cbn [history tool pushHistory].
    by rewrite map_app. }
  rewrite Hbody. change (requests s1) with (requests s). rewrite Hf.
  cbn [negb].
  destruct (keepsUp_await consumer o Hk) as [Hk' _].
  destruct (pipe_reaches_end (bodyEvents chunks (Some e)) (Some e)
              (post s1 (continuationBody s)) _ Hk') as (o' & -> & Hem).
  rewrite await_emitted in Hem.
  destruct (cancellation e) eqn:Ec.
  - eexists _, o'. split; [reflexivity|]. cbn [abort aborted console post].
    rewrite orb_true_r, app_nil_r. auto.
  - unfold cancellation in Ec. apply orb_false_elim in Ec as [-> _].
    eexists _, o'. split; [reflexivity|].
    cbn [logError aborted console post pushHistory s1].
    rewrite orb_false_r. auto.
Qed.

(** X24. A turn-complete event met with tool results on record, when the
    continuation request is rejected or answered with a status that is
    not a success: the step function still returns normally with nothing
    to enqueue, the output gets nothing, the failure is logged once - as a
    time-out when the rejection is an abort -, the abort flag and the
    recorded lists are left alone, and the request's history keeps the
    two messages that were added for the request. *)
Theorem failed_continuation_is_logged ev s o :
  event ev = Some "message_delta" ->
  toolMessages (tool s) <> [] ->
  notForTool ev (tool s) ->
  let answer := fetch (length (requests s)) (continuationBody s) in
  (forall status chunks ending, answer <> Response true status chunks ending) ->
  exists s',
    processor ev s o = (s', await consumer o, Return None) /\
    console s' =
      (console s ++
       [match answer with
        | FetchRejected e =>
            if String.eqb (err_name e) "AbortError" then FetchTimedOut
            else FetchFailed e
        | Response _ status _ _ => FetchStatus status
        end])%list /\
    aborted s' = aborted s /\ tool s' = tool s /\
    history s' = (history s ++ [AssistantAlias; UserAlias])%list /\
    requests s' = (requests s ++ [continuationBody s])%list.
Proof.
  intros Hev Hrec Hnot answer Hfail.
  rewrite (turn_complete_runs_continuation _ _ getAgent JSON5_parse JSON_parse
             fetch consumer agents _ _ _ Hev Hrec Hnot).
  unfold Interceptor.fetchToolResponse.
  set (s1 := pushHistory s [AssistantAlias; UserAlias]).
  assert (bodyMessages s1 = continuationBody s) as Hbody.
  { unfold bodyMessages, continuationBody, s1. cbn [history tool pushHistory].
    by rewrite map_app. }
  rewrite Hbody. change (requests s1) with (requests s). fold answer.
  destruct answer as [e|[] status chunks ending] eqn:Ea; cbn [negb].
  - eexists. split; [reflexivity|]. repeat split.
  - by destruct (Hfail status chunks ending).
  - eexists. split; [reflexivity|]. repeat split.
Qed.

(** *** A streamed tool call *)

(** The three kinds of event a tool call arrives as: the start of block
    [i] naming the tool, a fragment of its arguments, the block's end. *)
Definition startOf (i : Z) (name : string) (id : option string)
    : ParsedSSEEvent :=
  {| event := Some "content_block_start";
     data := Some (Payload
       {| type := Some "content_block_start"; index := Some i;
          content_block := Some {| cb_type := "tool_use"; cb_name := Some name;
                                   cb_id := id; cb_text := None |};
          delta := None; usage := None |});
     id := None; retry := None |}.

Definition fragmentOf (i : Z) (json : string) : ParsedSSEEvent :=
  {| event := Some "content_block_delta";
     data := Some (Payload
       {| type := Some "content_block_delta"; index := Some i;
          content_block := None;
          delta := Some {| delta_type := "input_json_delta";
                           partial_json := Some json; delta_text := None |};
          usage := None |});
     id := None; retry := None |}.

Definition stopOf (i : Z) : ParsedSSEEvent :=
  {| event := Some "content_block_stop";
     data := Some (Payload
       {| type := Some "content_block_stop"; index := Some i;
          content_block := None; delta := None; usage := None |});
     id := None; retry := None |}.

(** The session while the call is collected: [acc] is what has been
    accumulated of its arguments. *)
Definition calling (messages : list M) (a : IAgent M Args) (i : Z)
    (name : string) (id : option string) (acc : string) : Session M Args :=
  withTool (newSession M Args messages)
    {| currentAgent := Some a; currentToolIndex := Some i;
       currentToolName := name; currentToolArgs := acc; currentToolId := id;
       toolMessages := []; assistantMessages := [] |}.

(** The session once the call is carried out: [args] is what the tool
    use on record holds. *)
Definition called (messages : list M) (name : string) (id : option string)
    (args : Args) (out : string) : Session M Args :=
  withTool (newSession M Args messages)
    {| currentAgent := None; currentToolIndex := Some (-1);
       currentToolName := ""; currentToolArgs := ""; currentToolId := Some "";
       toolMessages := [{| tool_use_id := id; tr_content := Some out |}];
       assistantMessages :=
         [{| tu_id := id; tu_name := name; tu_input := args |}] |}.

Lemma start_is_bound messages i name id agentName a o :
  JS.truthy name = true ->
  JS.find (Interceptor.registers M Args getAgent name) agents = Some agentName ->
  JS.truthy agentName = true ->
  getAgent agentName = Some a ->
  processor (startOf i name id) (newSession M Args messages) o =
    (calling messages a i name id "", o, Return None).
Proof.
  intros Hn Hf Ht Ha. unfold Interceptor.processor, Interceptor.detectToolCallStart.
  cbn [startOf data event mbind option_bind dataContentBlock content_block
       cb_name cb_id dataIndex index].
  unfold eventIs. cbn [event].
  rewrite bool_decide_eq_true_2 by reflexivity.
  rewrite Hn, Hf, Ht, Ha. reflexivity.
Qed.

Lemma truthy_or_empty j : (if JS.truthy j then j else "") = j.
Proof. by destruct j. Qed.

Lemma fragment_is_collected messages a i name id acc json o :
  0 <= i ->
  processor (fragmentOf i json) (calling messages a i name id acc) o =
    (calling messages a i name id (acc ++ json), o, Return None).
Proof.
  intros Hi. unfold Interceptor.processor, Interceptor.detectToolCallStart,
    collectToolArguments, indexMatches, toolInProgress.
  cbn [fragmentOf data event mbind option_bind dataContentBlock content_block
       dataIndex index dataDelta delta delta_type partial_json calling tool
       withTool currentToolIndex].
  assert ((-1 <? i) = true) as -> by (apply Z.ltb_lt; lia).
  rewrite bool_decide_eq_true_2 by reflexivity.
  cbn [String.eqb Ascii.eqb Bool.eqb]. rewrite truthy_or_empty. reflexivity.
Qed.

Lemma bodyMessages_kept messages s :
  history s = map Kept messages -> bodyMessages s = map Original messages.
Proof.
  intros H. unfold bodyMessages. rewrite H, map_map. reflexivity.
Qed.

Lemma stop_runs_tool messages a t i name id acc args args' out o :
  0 <= i ->
  tools a !! name = Some t ->
  JSON5_parse acc = Some args ->
  handler t args (map Original messages) = (args', Resolved out) ->
  processor (stopOf i) (calling messages a i name id acc) o =
    (called messages name id args' out, await consumer o, Return None).
Proof.
  intros Hi Ht Hp Hh.
  unfold Interceptor.processor, Interceptor.detectToolCallStart,
    collectToolArguments, Interceptor.executeAgentTool, indexMatches,
    toolInProgress, Interceptor.runTool, calling.
  cbn [stopOf data event mbind option_bind dataContentBlock content_block
       dataIndex index dataDelta delta dataType type tool
       withTool currentToolIndex currentToolArgs currentToolName currentToolId
       currentAgent pushAssistant].
  assert ((-1 <? i) = true) as -> by (apply Z.ltb_lt; lia).
  rewrite !bool_decide_eq_true_2 by reflexivity.
  rewrite Hp, Ht, (bodyMessages_kept messages) by reflexivity.
  rewrite Hh. reflexivity.
Qed.

Lemma fragments_are_collected messages a i name id fragments rest ending acc o n :
  0 <= i -> patient consumer ->
  exists o',
    RewriteStream.loop _ _ _ consumer processor
      (map (fragmentOf i) fragments ++ rest) ending
      (calling messages a i name id acc) o n
    = RewriteStream.loop _ _ _ consumer processor rest ending
        (calling messages a i name id (acc ++ SSEProps.concatText fragments))
        o' (n + length fragments) /\
    emitted (ctl o') = emitted (ctl o) /\ (open o -> open o').
Proof.
  intros Hi Hp. revert acc o n.
  induction fragments as [|json fragments IH]; intros acc o n.
  - exists o. cbn [map app SSEProps.concatText length].
    rewrite SSEProps.append_nil_r, Nat.add_0_r. auto.
  - cbn [map app].
    rewrite (loop_reads_on _ _ _ consumer processor _ _ _ _ _ _ _ _
               (fragment_is_collected messages a i name id acc json _ Hi)).
    destruct (IH (acc ++ json) (await consumer (await consumer o)) (S n))
      as (o' & -> & Hem & Hopen).
    exists o'. cbn [SSEProps.concatText length].
    rewrite SSEProps.append_assoc, Nat.add_succ_r. split; [reflexivity|].
    split; [by rewrite Hem, !await_emitted|].
    intros Ho. apply Hopen. by do 2 (apply await_open; [exact Hp|]).
Qed.

(** X23. A tool call streamed as a block start, any number of argument
    fragments and a block stop, to an agent of the request that registers
    the tool: the fragments are joined in their order of arrival and
    parsed once, the handler is given the parsed arguments and the
    request as it arrived, and one tool use and one tool result with the
    block's id are recorded.  The tool use holds the arguments as the
    handler left them, which need not be the arguments as parsed.  None
    of these events reaches the output, which is closed at the end of the
    stream; no request is posted and nothing is logged. *)
Theorem streamed_call_is_recorded messages i name id fragments agentName a t
    args args' out :
  0 <= i ->
  JS.truthy name = true ->
  JS.find (Interceptor.registers M Args getAgent name) agents = Some agentName ->
  JS.truthy agentName = true ->
  getAgent agentName = Some a ->
  tools a !! name = Some t ->
  JSON5_parse (SSEProps.concatText fragments) = Some args ->
  handler t args (map Original messages) = (args', Resolved out) ->
  patient consumer ->
  let r := processEvents
             (startOf i name id :: map (fragmentOf i) fragments ++ [stopOf i])
             None messages in
  final r = called messages name id args' out /\
  emitted (ctl (output r)) = [] /\
  closeRequested (ctl (output r)) = true /\
  reads r = (length fragments + 3)%nat.
Proof.
  intros Hi Hn Hf Hta Ha Ht Hparse Hh Hp r. subst r.
  unfold Interceptor.processEvents, RewriteStream.rewriteStream.
  rewrite (loop_reads_on _ _ _ consumer processor _ _ _ _ _ _ _ _
             (start_is_bound messages i name id agentName a _ Hn Hf Hta Ha)).
  destruct (fragments_are_collected messages a i name id fragments [stopOf i]
              None "" (await consumer (await consumer newOutput)) 1 Hi Hp)
    as (o' & -> & Hem & Hopen).
  change ("" ++ SSEProps.concatText fragments) with (SSEProps.concatText fragments).
  rewrite (loop_reads_on _ _ _ consumer processor _ _ _ _ _ _ _ _
             (stop_runs_tool messages a t i name id _ args args' out _ Hi Ht Hparse Hh)).
  cbn [RewriteStream.loop].
  assert (open o') as Ho'
    by (apply Hopen; by do 2 (apply await_open; [exact Hp|])).
  destruct (close_open _ (await_open _ _ _ Hp (await_open _ _ _ Hp
              (await_open _ _ _ Hp (await_open _ _ _ Hp Ho')))))
    as (c & -> & Hcr & _ & Hemc).
  cbn [final output reads withCtl ctl].
  rewrite Hemc, !await_emitted, Hem, !await_emitted.
  repeat split; auto. lia.
Qed.

End Props.

Arguments unregistered {M Args} getAgent agents.
Arguments calling {M Args} messages a i name id acc.
Arguments called {M Args} messages name id args out.

(** *** On the sample agent *)

(** A loopback server that is down, and one whose answer breaks off with
    an abort after the continuation's three events. *)
Definition downFetch (_ : nat) (_ : list (BodyMessage string string))
    : FetchResult :=
  Response false 503 [] None.

Definition brokenFetch (_ : nat) (_ : list (BodyMessage string string))
    : FetchResult :=
  Response true 200 Sample.continuation
    (Some {| err_name := "AbortError"; err_code := None |}).

Lemma eager_patient : patient Sample.eager.
Proof. intros t. discriminate. Qed.

Lemma unregistered_tools_pass_through_witness :
  let r :=
    processEvents string string Sample.getAgent Sample.JSON5_parse
      SSEProps.rejectAll Sample.fetch Sample.eager []
      [Sample.blockStart; Sample.argsDelta "{}"; Sample.messageDelta]
      None ["look at this"] in
  emitted (ctl (output r)) =
    [Sample.blockStart; Sample.argsDelta "{}"; Sample.messageDelta] /\
  closeRequested (ctl (output r)) = true /\
  reads r = 4%nat /\
  final r = newSession string string ["look at this"].
Proof.
  apply (unregistered_tools_pass_through string string Sample.getAgent
           Sample.JSON5_parse SSEProps.rejectAll Sample.fetch Sample.eager []
           [Sample.blockStart; Sample.argsDelta "{}"; Sample.messageDelta]
           ["look at this"]).
  - intros name. reflexivity.
  - exact eager_patient.
Defined.

Lemma backpressure_stops_at_zero_only_witness :
  exists s' o' thrown,
    pipeResponseToController string string stalled
      [Sample.textDelta; Sample.textDelta] None Sample.afterTool newOutput
      = (s', o', thrown) /\
    emitted (ctl o') = [Sample.textDelta].
Proof.
  apply (backpressure_stops_at_zero_only string string stalled
           [Sample.textDelta; Sample.textDelta] None Sample.afterTool newOutput).
  - reflexivity.
  - reflexivity.
Defined.

Lemma continuation_read_error_witness :
  exists s' o',
    fetchToolResponse string string SSEProps.rejectAll brokenFetch Sample.eager
      Sample.afterTool newOutput = (s', o') /\
    aborted s' = true /\
    console s' = [] /\
    emitted (ctl o') = [Sample.textDelta].
Proof.
  apply (continuation_read_error string string SSEProps.rejectAll brokenFetch
           Sample.eager Sample.afterTool newOutput 200 Sample.continuation
           {| err_name := "AbortError"; err_code := None |}).
  - reflexivity.
  - exact eager_keepsUp.
Defined.

(** A tool that, like the repository's image tool, takes a field out of
    the arguments object it is given: here it leaves [{}]. *)
Definition viewImage : ITool string string :=
  {| handler := fun args _ => ("{}", Resolved ("seen " ++ args)) |}.

Definition viewer : IAgent string string :=
  {| agent_name := "viewer"; tools := {[ "viewImage" := viewImage ]} |}.

Definition viewers (name : string) : option (IAgent string string) :=
  if String.eqb name "viewer" then Some viewer else None.

Lemma streamed_call_is_recorded_witness :
  let r :=
    processEvents string string viewers Sample.JSON5_parse
      SSEProps.rejectAll Sample.fetch Sample.eager ["viewer"]
      (startOf 1 "viewImage" (Some "toolu_1")
       :: map (fragmentOf 1) ["{id:"; "7}"] ++ [stopOf 1])
      None ["look at this"] in
  final r =
    called ["look at this"] "viewImage" (Some "toolu_1") "{}" "seen {id:7}" /\
  emitted (ctl (output r)) = [] /\
  closeRequested (ctl (output r)) = true /\
  reads r = 5%nat.
Proof.
  apply (streamed_call_is_recorded string string viewers
           Sample.JSON5_parse SSEProps.rejectAll Sample.fetch Sample.eager
           ["viewer"] ["look at this"] 1 "viewImage" (Some "toolu_1")
           ["{id:"; "7}"] "viewer" viewer viewImage
           "{id:7}" "{}" "seen {id:7}").
  - lia.
  - reflexivity.
  - reflexivity.
  - reflexivity.
  - reflexivity.
  - reflexivity.
  - reflexivity.
  - reflexivity.
  - exact eager_patient.
Defined.

Lemma failed_continuation_is_logged_witness :
  exists s',
    Interceptor.processor string string Sample.getAgent Sample.JSON5_parse
      SSEProps.rejectAll downFetch Sample.eager ["image"]
      Sample.messageDelta Sample.afterTool newOutput
      = (s', await Sample.eager newOutput, Return None) /\
    console s' = [FetchStatus 503] /\
    aborted s' = false /\ tool s' = tool Sample.afterTool /\
    history s' = [Kept "look at this"; AssistantAlias; UserAlias] /\
    requests s' =
      [ [Original "look at this";
         AssistantMessage [Sample.toolUse "{}"];
         UserMessage [Sample.toolResult "seen {}"]] ].
Proof.
  apply (failed_continuation_is_logged string string Sample.getAgent
           Sample.JSON5_parse SSEProps.rejectAll downFetch Sample.eager
           ["image"] Sample.messageDelta Sample.afterTool newOutput).
  - reflexivity.
  - discriminate.
  - left. reflexivity.
  - discriminate.
Defined.

End InterceptorExtra.

(** ** API-key middleware *)

Module AuthProps.

Import Auth.

Lemma split_head_prefix sep s hd :
  head (JS.split sep s) = Some hd -> exists post, s = hd ++ post.
Proof.
  revert hd. induction s as [|c s IH]; intros hd; cbn [JS.split].
  - intros [= <-]. by exists "".
  - destruct (Ascii.eqb c sep).
    + intros [= <-]. by exists (String c s).
    + destruct (JS.split sep s) as [|hd' tl] eqn:E.
      * by destruct (SSEProps.split_nonempty sep s).
      * intros [= <-]. destruct (IH hd' eq_refl) as [post ->].
        by exists post.
Qed.

(** Every piece of a split is a part of the text. *)
Lemma split_piece sep s k t :
  JS.split sep s !! k = Some t -> exists pre post, s = pre ++ t ++ post.
Proof.
  revert k t. induction s as [|c s IH]; intros k t; cbn [JS.split].
  - destruct k; [|done]. intros [= <-]. by exists "", "".
  - destruct (Ascii.eqb c sep).
    + destruct k as [|k].
      * intros [= <-]. by exists "", (String c s).
      * intros H. destruct (IH k t H) as (pre & post & ->).
        by exists (String c pre), post.
    + destruct (JS.split sep s) as [|hd tl] eqn:E.
      * by destruct (SSEProps.split_nonempty sep s).
      * destruct k as [|k].
        -- intros [= <-]. destruct (split_head_prefix sep s hd) as [post ->].
           { by rewrite E. }
           by exists "", post.
        -- intros H. destruct (IH (S k) t H) as (pre & post & ->).
           by exists (String c pre), post.
Qed.

Lemma arrayIncludes_In l x : arrayIncludes l x = true -> In x l.
Proof.
  unfold arrayIncludes. intros H. apply existsb_exists in H as (y & Hy & E).
  apply String.eqb_eq in E. by subst.
Qed.

Section Checks.

Variable toString : Z -> string.

Local Abbreviation apiKeyAuth := (Auth.apiKeyAuth toString).

(** X25. With a key configured, a request for anything but a public
    endpoint goes through only if the header read for the key -
    [authorization], or [x-api-key] when that is absent or empty -
    contains the key; no cross-origin header is ever set for it. *)
Theorem no_entry_without_key config req key h :
  APIKEY config = Some key -> JS.truthy key = true ->
  isPublic (url req) = false ->
  apiKeyAuth config req = Next h ->
  h = None /\
  exists authKey,
    authKeyOf (headers req) = Some authKey /\
    JS.includes key authKey = true.
Proof.
  intros Hk Ht Hpub. unfold Auth.apiKeyAuth. rewrite Hpub, Hk, Ht.
  destruct (authKeyOf (headers req)) as [authKey|]; [|discriminate].
  destruct (JS.truthy authKey); cbn [negb]; [|discriminate].
  destruct (bool_decide_reflect (tokenOf authKey = Some key)) as [Htok|];
    [|discriminate].
  intros [= <-]. split; [reflexivity|]. exists authKey. split; [reflexivity|].
  unfold tokenOf in Htok. destruct (JS.startsWith "Bearer" authKey).
  - destruct (split_piece _ _ _ _ Htok) as (pre & post & ->).
    apply RouterExtra.includes_middle.
  - injection Htok as ->.
    apply RouterExtra.includes_at_start.
    rewrite <- (SSEProps.append_nil_r key) at 2.
    apply RouterExtra.startsWith_app.
Qed.

(** X26. The configured key opens every endpoint when it is sent either
    as [Bearer <key>] in the [authorization] header, provided the key
    has no space in it, or as the bare value of the header read for the
    key, provided the key does not begin with [Bearer]. *)
Theorem key_is_accepted config req key :
  APIKEY config = Some key -> JS.truthy key = true ->
  (authorization (headers req) = Some ("Bearer " ++ key) /\
   SSEProps.oneLine " " key) \/
  (authKeyOf (headers req) = Some key /\ JS.startsWith "Bearer" key = false) ->
  apiKeyAuth config req = Next None.
Proof.
  intros Hk Ht Hsent. unfold Auth.apiKeyAuth.
  destruct (isPublic (url req)); [reflexivity|]. rewrite Hk, Ht.
  destruct Hsent as [[Ha Hone]|[Ha Hb]].
  - unfold authKeyOf, authHeaderValue. rewrite Ha.
    assert (JS.truthy ("Bearer " ++ key) = true) as Htr by reflexivity.
    rewrite !Htr. cbn [negb]. unfold tokenOf.
    change ("Bearer " ++ key) with ("Bearer" ++ String " " key).
    rewrite RouterExtra.startsWith_app.
    rewrite SSEProps.oneLine_then_separator by reflexivity.
    rewrite Hone. cbn [lookup list_lookup].
    by rewrite bool_decide_eq_true_2.
  - rewrite Ha, Ht. cbn [negb]. unfold tokenOf. rewrite Hb.
    by rewrite bool_decide_eq_true_2.
Qed.

(** X27. The [Access-Control-Allow-Origin] header is set only when no
    key is configured, and then only to the request's own [Origin] when
    that is one of the two loopback origins of the configured port. *)
Theorem cors_header_only_for_loopback config req o :
  apiKeyAuth config req = Next (Some o) ->
  JS.truthy_opt (APIKEY config) = false /\
  origin (headers req) = Some o /\
  In o (allowedOrigins toString config).
Proof.
  unfold Auth.apiKeyAuth. destruct (isPublic (url req)); [discriminate|].
  assert (withoutKey toString config req = Next (Some o) ->
          origin (headers req) = Some o /\
          In o (allowedOrigins toString config)) as Hcors.
  { unfold withoutKey.
    destruct (origin (headers req)) as [o'|]; [|discriminate].
    destruct (JS.truthy o'); [|discriminate].
    destruct (arrayIncludes _ o') eqn:E; [|discriminate].
    intros [= ->]. split; [reflexivity|]. by apply arrayIncludes_In. }
  destruct (APIKEY config) as [key|]; cbn [JS.truthy_opt].
  - destruct (JS.truthy key).
    + destruct (authKeyOf (headers req)) as [authKey|]; [|discriminate].
      destruct (negb _); [discriminate|]. destruct (bool_decide _); discriminate.
    + intros H. split; [reflexivity|]. by apply Hcors.
  - intros H. split; [reflexivity|]. by apply Hcors.
Qed.

End Checks.

(** A configuration with the key [secret], one without a key, and a
    request for the messages endpoint. *)
Definition locked : AuthConfig := {| APIKEY := Some "secret"; PORT := None |}.

Definition unlocked : AuthConfig := {| APIKEY := None; PORT := Some 8080 |}.

Definition decimalPort (p : Z) : string :=
  if p =? 8080 then "8080" else "3456".

Definition messages (h : Headers) : AuthRequest :=
  {| url := "/v1/messages"; headers := h |}.

Definition bearer : Headers :=
  {| origin := None; authorization := Some "Bearer secret";
     x_api_key := None |}.

Definition fromBrowser : Headers :=
  {| origin := Some "http://localhost:8080"; authorization := None;
     x_api_key := None |}.

Lemma no_entry_without_key_witness :
  @None string = None /\
  exists authKey,
    authKeyOf bearer = Some authKey /\ JS.includes "secret" authKey = true.
Proof.
  apply (no_entry_without_key decimalPort locked (messages bearer) "secret" None).
  - reflexivity.
  - reflexivity.
  - reflexivity.
  - reflexivity.
Defined.

Lemma key_is_accepted_witness :
  Auth.apiKeyAuth decimalPort locked (messages bearer) = Next None.
Proof.
  apply (key_is_accepted decimalPort locked (messages bearer) "secret").
  - reflexivity.
  - reflexivity.
  - left. split; reflexivity.
Defined.

Lemma cors_header_only_for_loopback_witness :
  JS.truthy_opt (APIKEY unlocked) = false /\
  origin fromBrowser = Some "http://localhost:8080" /\
  In "http://localhost:8080" (allowedOrigins decimalPort unlocked).
Proof.
  apply (cors_header_only_for_loopback decimalPort unlocked
           (messages fromBrowser) "http://localhost:8080").
  reflexivity.
Defined.

End AuthProps.

(** ** Service process check *)

Module ProcessCheckProps.

Import SSEParser ProcessCheck.

(** *** Digits and white space *)

Lemma digit_not_space a d :
  digit a = Some d ->
  is_ws1 a = false /\ (forall b, is_ws2 a b = false) /\
  (forall b c, is_ws3 a b c = false) /\
  Ascii.eqb a "0" && (Ascii.eqb a "x" || Ascii.eqb a "X") = false /\
  Ascii.eqb a "x" = false /\ Ascii.eqb a "X" = false.
Proof.
  destruct a as [[] [] [] [] [] [] [] []]; intros H; cbv in H;
    try discriminate H; repeat split; intros; reflexivity.
Qed.

Lemma trimStart_digit a s d :
  digit a = Some d -> trimStart (String a s) = String a s.
Proof.
  intros H. destruct (digit_not_space a d H) as (H1 & H2 & H3 & _).
  cbn [trimStart]. rewrite H1. destruct s as [|b [|c s]]; [reflexivity| |].
  - by rewrite H2.
  - by rewrite H2, H3.
Qed.

Lemma blank_not_digit a s : blank (String a s) = true -> digit a = None.
Proof.
  unfold blank. destruct (digit a) as [d|] eqn:E; [|reflexivity].
  by rewrite (trimStart_digit a s d E).
Qed.

Lemma parseInt10_digit a s d :
  digit a = Some d -> parseInt10 (String a s) = digits (String a s) None.
Proof.
  intros H. unfold parseInt10. rewrite (trimStart_digit a s d H).
  destruct a as [[] [] [] [] [] [] [] []]; cbv in H; try discriminate H;
    reflexivity.
Qed.

(** The characters of [s] are decimal digits. *)
Definition digitsOnly (s : string) : bool :=
  forallb (fun c => bool_decide (is_Some (digit c))) (list_ascii_of_string s).

Lemma allDigits_cons s :
  allDigits s = true ->
  exists a s' d, s = String a s' /\ digit a = Some d /\ digitsOnly s' = true.
Proof.
  destruct s as [|a s']; [discriminate|]. unfold allDigits.
  cbn [list_ascii_of_string forallb]. intros H.
  apply andb_prop in H as [Ha Hs]. apply bool_decide_eq_true in Ha as [d Hd].
  by exists a, s', d.
Qed.

(** The digits read off a text are those read off the text with its
    trailing white space removed, when nothing but digits is left. *)
Lemma digits_trimEnd s acc :
  digitsOnly (trimEnd s) = true -> digits s acc = digits (trimEnd s) acc.
Proof.
  revert acc. induction s as [|a s IH]; intros acc; [reflexivity|].
  cbn [trimEnd]. destruct (blank (String a s)) eqn:Eb.
  - intros _. cbn [digits]. by rewrite (blank_not_digit a s Eb).
  - unfold digitsOnly. cbn [list_ascii_of_string forallb]. intros H.
    apply andb_prop in H as [Ha Hs]. apply bool_decide_eq_true in Ha as [d Hd].
    cbn [digits]. rewrite Hd. by apply IH.
Qed.

Lemma trimEnd_cons s a r :
  trimEnd s = String a r -> exists s', s = String a s' /\ r = trimEnd s'.
Proof.
  destruct s as [|b s']; [discriminate|]. cbn [trimEnd].
  destruct (blank _); [discriminate|]. intros [= -> <-]. by exists s'.
Qed.

Lemma digitsOnly_trimEnd_head b s :
  digitsOnly (trimEnd (String b s)) = true ->
  Ascii.eqb b "x" || Ascii.eqb b "X" = false.
Proof.
  cbn [trimEnd]. destruct (blank (String b s)) eqn:Eb.
  - intros _. unfold blank in Eb.
    destruct (Ascii.eqb b "x") eqn:Ex.
    { apply Ascii.eqb_eq in Ex. subst b. cbn [trimStart] in Eb.
      by destruct s as [|c [|c' s]]. }
    destruct (Ascii.eqb b "X") eqn:EX; [|reflexivity].
    apply Ascii.eqb_eq in EX. subst b. cbn [trimStart] in Eb.
    by destruct s as [|c [|c' s]].
  - unfold digitsOnly. cbn [list_ascii_of_string forallb]. intros H.
    apply andb_prop in H as [Ha _]. apply bool_decide_eq_true in Ha as [d Hd].
    destruct (digit_not_space b d Hd) as (_ & _ & _ & _ & -> & ->). reflexivity.
Qed.

(** A text that is decimal digits between white space reads the same
    with and without a radix. *)
Lemma parseInt_of_digits content :
  allDigits (trim content) = true ->
  parseInt content = parseInt10 (trim content).
Proof.
  intros Hall. destruct (allDigits_cons _ Hall) as (a & r & d & Et & Hd & Hr).
  unfold trim in *. destruct (trimEnd_cons _ _ _ Et) as (t' & Es & ->).
  rewrite Et, (parseInt10_digit a _ d Hd).
  unfold parseInt. rewrite Es.
  assert (unsignedInt (String a t') = digits (String a t') None) as Hu.
  { unfold unsignedInt. destruct t' as [|b t'']; [reflexivity|].
    destruct (digit_not_space a d Hd) as (_ & _ & _ & _ & _ & _).
    rewrite (digitsOnly_trimEnd_head b t'' Hr), andb_false_r. reflexivity. }
  assert (digits (String a t') None = digits (String a (trimEnd t')) None) as <-.
  { cbn [digits]. rewrite Hd. by apply digits_trimEnd. }
  rewrite <- Hu.
  destruct a as [[] [] [] [] [] [] [] []]; cbv in Hd; try discriminate Hd;
    reflexivity.
Qed.

(** *** The check *)

(** X28. The check signals a process or runs a command only after the
    PID file was read and its trimmed content found to be plain decimal
    digits denoting a number from 1 to 4194304; the probe is then made
    with that number and nothing else from the file. *)
Theorem probe_needs_valid_pid h d r d' p :
  isServiceRunning h d = (r, d', Some p) ->
  exists content pid,
    pidFile d = Some content /\ readable d = true /\
    allDigits (trim content) = true /\
    parseInt10 (trim content) = Some pid /\
    0 < pid <= MAX_PID_VALUE /\
    p = if win32 h then Ran (tasklistCommand h pid) else Signalled pid.
Proof.
  unfold isServiceRunning.
  destruct (pidFile d) as [content|]; [|discriminate].
  destruct (readable d); cbn [negb]; [|discriminate].
  destruct (parseInt10 (trim content)) as [pid|] eqn:Ep; [|discriminate].
  destruct (pid <=? 0) eqn:E1; [discriminate|].
  destruct (MAX_PID_VALUE <? pid) eqn:E2; [discriminate|].
  destruct (allDigits (trim content)) eqn:E3; cbn [orb negb]; [|discriminate].
  apply Z.leb_gt in E1. apply Z.ltb_ge in E2.
  destruct (win32 h).
  - destruct (execSync h _) as [output|]; [destruct (JS.includes _ _)|];
      intros [= _ _ <-]; exists content, pid; repeat split; auto.
  - destruct (kill h pid); intros [= _ _ <-]; exists content, pid;
      repeat split; auto.
Qed.

(** X29. When the PID file can be read and unlinked, a check that
    answers no leaves no PID file behind, whatever made it say no - no
    file, a content that is not a valid PID, a process that is gone, a
    command that failed -, and a check that answers yes leaves the file
    as it is. *)
Theorem stale_pid_file_is_removed h d :
  readable d = true -> removable d = true ->
  let '(r, d', _) := isServiceRunning h d in
  if r then d' = d else pidFile d' = None.
Proof.
  intros Hr Hu. unfold isServiceRunning.
  assert (pidFile (cleanupPidFile d) = None) as Hclean.
  { unfold cleanupPidFile. rewrite Hu. by destruct (pidFile d) eqn:E. }
  destruct (pidFile d) as [content|] eqn:Ef; [|exact Ef].
  rewrite Hr. cbn [negb].
  destruct (parseInt10 (trim content)) as [pid|]; [|exact Hclean].
  destruct (_ || _); [exact Hclean|].
  destruct (win32 h).
  - destruct (execSync h _) as [output|]; [|exact Hclean].
    destruct (JS.includes _ _); [reflexivity|exact Hclean].
  - destruct (kill h pid); [reflexivity|exact Hclean].
Qed.

(** X30. When the check answers yes, [getServicePid] returns the very
    number that was probed, although it reads the file on its own,
    without trimming it and without a radix. *)
Theorem running_service_pid_agrees h d d' p :
  isServiceRunning h d = (true, d', p) ->
  exists pid,
    getServicePid d = Some pid /\ 0 < pid <= MAX_PID_VALUE /\
    p = Some (if win32 h then Ran (tasklistCommand h pid) else Signalled pid).
Proof.
  unfold isServiceRunning, getServicePid.
  destruct (pidFile d) as [content|]; [|discriminate].
  destruct (readable d); cbn [negb]; [|discriminate].
  destruct (parseInt10 (trim content)) as [pid|] eqn:Ep; [|discriminate].
  destruct (pid <=? 0) eqn:E1; [discriminate|].
  destruct (MAX_PID_VALUE <? pid) eqn:E2; [discriminate|].
  destruct (allDigits (trim content)) eqn:E3; cbn [orb negb]; [|discriminate].
  apply Z.leb_gt in E1. apply Z.ltb_ge in E2.
  rewrite (parseInt_of_digits content E3), Ep.
  destruct (win32 h).
  - destruct (execSync h _) as [output|]; [|discriminate].
    destruct (JS.includes _ _); [|discriminate].
    intros [= _ <-]. exists pid. auto.
  - destruct (kill h pid); [|discriminate].
    intros [= _ <-]. exists pid. auto.
Qed.

(** A host where only process 4242 is alive, and a PID file written with
    a line end. *)
Definition unix : Host :=
  {| win32 := false; kill := fun pid => pid =? 4242;
     execSync := fun _ => None; toString := fun _ => "" |}.

Definition onDisk (content : string) : Disk :=
  {| pidFile := Some content; readable := true; removable := true |}.

Lemma probe_needs_valid_pid_witness :
  exists content pid,
    pidFile (onDisk (" 4242" ++ SSEProps.NL)) = Some content /\
    readable (onDisk (" 4242" ++ SSEProps.NL)) = true /\
    allDigits (trim content) = true /\
    parseInt10 (trim content) = Some pid /\
    0 < pid <= MAX_PID_VALUE /\
    Signalled 4242 = if win32 unix then Ran (tasklistCommand unix pid)
                     else Signalled pid.
Proof.
  apply (probe_needs_valid_pid unix (onDisk (" 4242" ++ SSEProps.NL)) true
           (onDisk (" 4242" ++ SSEProps.NL)) (Signalled 4242)).
  reflexivity.
Defined.

Lemma stale_pid_file_is_removed_witness :
  let '(r, d', _) := isServiceRunning unix (onDisk "17; rm -rf /") in
  if r then d' = onDisk "17; rm -rf /" else pidFile d' = None.
Proof.
  apply (stale_pid_file_is_removed unix (onDisk "17; rm -rf /")).
  - reflexivity.
  - reflexivity.
Defined.

Lemma running_service_pid_agrees_witness :
  exists pid,
    getServicePid (onDisk (" 4242" ++ SSEProps.NL)) = Some pid /\
    0 < pid <= MAX_PID_VALUE /\
    Some (Signalled 4242) =
      Some (if win32 unix then Ran (tasklistCommand unix pid)
            else Signalled pid).
Proof.
  apply (running_service_pid_agrees unix (onDisk (" 4242" ++ SSEProps.NL))
           (onDisk (" 4242" ++ SSEProps.NL)) (Some (Signalled 4242))).
  reflexivity.
Defined.

End ProcessCheckProps.
